(** * django-orchestra: a shallow embedding of the administration fragment

  The development follows the Python sources module by module:

  - [Py]          : the few Python built-ins the sources rely on
                    ([str.strip], [str.split], truthiness), on short
                    texts such as names, keys and command output;
  - [Str]         : [str] as a sequence of Unicode code points, with
                    [str.strip], [str.split] and [int], for the texts
                    that come from outside (query values, rendered
                    templates);
  - [DnsSettings] : [orchestra/apps/dns/zones/settings.py];
  - [Bills]       : [orchestra/contrib/bills/admin.py];
  - [Forms]       : [orchestra/forms/options.py];
  - [Mail]        : [orchestra/utils/mail.py];
  - [SystemUserTests] :
      [orchestra/apps/systemusers/tests/functional_tests/tests.py].

  Dictionaries are [gmap]s, decimals are rationals ([Q]), exceptions are
  explicit result constructors. *)

From Stdlib Require Import ZArith QArith Qround Ascii String List Lia.
From Stdlib Require Import DecimalString DecimalPos DecimalZ.
From stdpp Require Import base option list gmap strings.

Local Open Scope Z_scope.

(* ===================================================================== *)
(** * Python built-ins *)
(* ===================================================================== *)

Module Py.

(** The outcome of a call: a returned value or a raised exception. *)
Inductive exn : Type :=
| ValueError          (* int() on a malformed literal *)
| KeyError (key : string)
| DoesNotExist        (* Model.objects.get without a match *)
| MultipleObjectsReturned
| ValidationError (code : string) (message : string)
| CommandError (return_code : Z)
| AssertionError.     (* a failed unittest assertion *)

Inductive result (A : Type) : Type :=
| Return (a : A)
| Raise (e : exn).
Arguments Return {A} a.
Arguments Raise {A} e.

(** Sequencing propagates the first exception; with these instances the
    usual [x ← r; k] notation applies. *)
#[export] Instance result_ret : MRet result := fun _ a => Return a.
#[export] Instance result_bind : MBind result := fun _ _ k r =>
  match r with
  | Return a => k a
  | Raise e => Raise e
  end.

(** [map f xs] where [f] may raise: the first exception aborts the whole
    traversal, as [list(map(int, ...))] does. *)
Fixpoint mapM {A B} (f : A -> result B) (xs : list A) : result (list B) :=
  match xs with
  | [] => Return []
  | x :: xs' => y ← f x; ys ← mapM f xs'; Return (y :: ys)
  end.

(** The Python values that travel through forms, instances and blobs. *)
Inductive value : Type :=
| PNone
| PBool (b : bool)
| PInt (z : Z)
| PStr (s : string).

#[export] Instance value_eq_dec : EqDecision value.
Proof. solve_decision. Defined.

(** Truthiness, as tested by [if x:] and by [and]. *)
Definition truthy (v : value) : bool :=
  match v with
  | PNone => false
  | PBool b => b
  | PInt z => negb (z =? 0)
  | PStr s => negb (String.eqb s EmptyString)
  end.

(** [d.get(key)] and [d.get(key, default)] *)
Definition dict_get (d : gmap string value) (key : string) (dflt : value) : value :=
  match d !! key with
  | Some v => v
  | None => dflt
  end.

(** [d[key]] *)
Definition dict_item (d : gmap string value) (key : string) : result value :=
  match d !! key with
  | Some v => Return v
  | None => Raise (KeyError key)
  end.

(** ** Characters *)

(** A character of a [string] is a code point below 256, [code] gives
    it. *)
Definition code (c : ascii) : N := N_of_ascii c.

(** [str.isspace] on one character, by code point: the characters Unicode
    classes as white space.  They are TAB, LF, VT, FF, CR, the separators
    FS, GS, RS and US, the space, NEL, the no-break space, the Ogham space
    mark, the spaces U+2000 to U+200A, the line and the paragraph
    separator, the narrow no-break space, the medium mathematical space
    and the ideographic space.  [str.strip()] removes exactly these. *)
Definition isspace (c : N) : bool :=
  ((0x9 <=? c) && (c <=? 0xD) || (0x1C <=? c) && (c <=? 0x20)
   || (c =? 0x85) || (c =? 0xA0) || (c =? 0x1680)
   || (0x2000 <=? c) && (c <=? 0x200A) || (c =? 0x2028) || (c =? 0x2029)
   || (c =? 0x202F) || (c =? 0x205F) || (c =? 0x3000))%N.

(** White space among the characters of a [string]. *)
Definition is_space (c : ascii) : bool := isspace (code c).

Definition is_digit (c : ascii) : bool :=
  let n := code c in ((48 <=? n) && (n <=? 57))%N.

(** [str.lower()] on the ASCII letters. *)
Definition lower_char (c : ascii) : ascii :=
  let n := code c in
  if ((65 <=? n) && (n <=? 90))%N then ascii_of_N (n + 32) else c.

Fixpoint lower (s : string) : string :=
  match s with
  | EmptyString => EmptyString
  | String c r => String (lower_char c) (lower r)
  end.

(** The double quote character, as a string. *)
Definition dquote : string := String "034"%char EmptyString.

(** ** [str.strip()] *)

Fixpoint lstrip (s : string) : string :=
  match s with
  | EmptyString => EmptyString
  | String c r => if is_space c then lstrip r else s
  end.

(** [rstrip] keeps a character when it is not a space or when something
    survives to its right. *)
Fixpoint rstrip (s : string) : string :=
  match s with
  | EmptyString => EmptyString
  | String c r =>
      match rstrip r with
      | EmptyString => if is_space c then EmptyString else String c EmptyString
      | r' => String c r'
      end
  end.

Definition strip (s : string) : string := rstrip (lstrip s).

(** White space at either end of a string. *)
Definition starts_with_space (s : string) : bool :=
  match s with
  | EmptyString => false
  | String c _ => is_space c
  end.

Fixpoint ends_with_space (s : string) : bool :=
  match s with
  | EmptyString => false
  | String c EmptyString => is_space c
  | String _ r => ends_with_space r
  end.

Fixpoint all_space (s : string) : bool :=
  match s with
  | EmptyString => true
  | String c r => is_space c && all_space r
  end.

(** ** [str.split(sep)] for a one-character separator.  The result always
    has at least one component. *)
Fixpoint split (sep : ascii) (s : string) : list string :=
  match s with
  | EmptyString => [EmptyString]
  | String c r =>
      if Ascii.eqb c sep then EmptyString :: split sep r
      else match split sep r with
           | [] => [String c EmptyString]
           | w :: ws => String c w :: ws
           end
  end.

(** [sep.join(parts)] *)
Fixpoint join (sep : string) (parts : list string) : string :=
  match parts with
  | [] => EmptyString
  | [p] => p
  | p :: ps => p +:+ sep +:+ join sep ps
  end.

(** ** Reading a decimal integer: CPython's [PyLong_FromString] in base
    10, the routine behind [int(s)].  It works on an ASCII text: white
    space of the C locale is skipped at both ends, one sign may come first,
    then decimal digits, where single underscores may stand between two
    digits (as interpreters read them since 3.6).  The limit that
    interpreters since 3.11 put on the number of digits, 4300 unless
    configured otherwise, is not modelled. *)
Definition int_digits (s : string) : option Z :=
  option_map Z.of_uint (NilZero.uint_of_string s).

(** [Py_ISSPACE] *)
Definition c_isspace (c : ascii) : bool :=
  let n := code c in ((9 <=? n) && (n <=? 13) || (n =? 32))%N.

Fixpoint skip_spaces (s : string) : string :=
  match s with
  | EmptyString => EmptyString
  | String c r => if c_isspace c then skip_spaces r else s
  end.

(** The digits at the start of [s], without their underscores, and what
    follows them; [prev_digit] tells whether the character just read was a
    digit.  There is no result when no digit comes first, or when an
    underscore is not followed by a digit. *)
Fixpoint scan_digits (prev_digit : bool) (s : string) : option (string * string) :=
  match s with
  | EmptyString => if prev_digit then Some (EmptyString, EmptyString) else None
  | String c r =>
      if is_digit c then
        match scan_digits true r with
        | Some (digits, rest) => Some (String c digits, rest)
        | None => None
        end
      else if Ascii.eqb c "_" then
        if prev_digit then scan_digits false r else None
      else if prev_digit then Some (EmptyString, s) else None
  end.

Definition long_from_string (s : string) : result Z :=
  let t := skip_spaces s in
  let '(negative, u) :=
    match t with
    | String c r =>
        if Ascii.eqb c "-" then (true, r)
        else if Ascii.eqb c "+" then (false, r)
        else (false, t)
    | EmptyString => (false, t)
    end in
  match scan_digits false u with
  | Some (digits, rest) =>
      match skip_spaces rest, int_digits digits with
      | EmptyString, Some z => Return (if negative then - z else z)
      | _, _ => Raise ValueError
      end
  | None => Raise ValueError
  end.

(** [str(z)] for an integer. *)
Definition str_of_int (z : Z) : string := NilZero.string_of_int (Z.to_int z).

(** A decimal integer literal -- an optional minus sign and one or more
    digits -- and the integer it denotes, read with the standard decimal
    conversion. *)
Definition literal_value (s : string) : option Z :=
  option_map Z.of_int (NilZero.int_of_string s).

Definition no_comma (c : ascii) : bool := negb (Ascii.eqb c ",").

Fixpoint all_chars (p : ascii -> bool) (s : string) : bool :=
  match s with
  | EmptyString => true
  | String c r => p c && all_chars p r
  end.

End Py.

(* ===================================================================== *)
(** * Python [str] values: sequences of code points *)
(* ===================================================================== *)

Module Str.
Import Py.

(** A text of any characters is the list of its code points. *)
Definition str : Type := list N.

(** The text a [string] stands for. *)
Definition of_string (s : string) : str := List.map code (list_ascii_of_string s).

(** ** [str.strip()] *)

Fixpoint lstrip (s : str) : str :=
  match s with
  | [] => []
  | c :: r => if isspace c then lstrip r else s
  end.

Fixpoint rstrip (s : str) : str :=
  match s with
  | [] => []
  | c :: r =>
      match rstrip r with
      | [] => if isspace c then [] else [c]
      | r' => c :: r'
      end
  end.

Definition strip (s : str) : str := rstrip (lstrip s).

(** White space at either end of a text, and a text of white space
    only. *)
Definition starts_with_space (s : str) : bool :=
  match s with
  | [] => false
  | c :: _ => isspace c
  end.

Fixpoint ends_with_space (s : str) : bool :=
  match s with
  | [] => false
  | [c] => isspace c
  | _ :: r => ends_with_space r
  end.

Definition all_space (s : str) : bool := forallb isspace s.

(** The code points [str.isspace] accepts, one by one. *)
Definition white_space : list N :=
  [ 0x9; 0xA; 0xB; 0xC; 0xD; 0x1C; 0x1D; 0x1E; 0x1F; 0x20; 0x85; 0xA0; 0x1680;
    0x2000; 0x2001; 0x2002; 0x2003; 0x2004; 0x2005; 0x2006; 0x2007; 0x2008;
    0x2009; 0x200A; 0x2028; 0x2029; 0x202F; 0x205F; 0x3000 ]%N.

(** ** [str.split(sep)] for a one-character separator.  The result always
    has at least one component. *)
Fixpoint split (sep : N) (s : str) : list str :=
  match s with
  | [] => [[]]
  | c :: r =>
      if (c =? sep)%N then [] :: split sep r
      else match split sep r with
           | [] => [[c]]
           | w :: ws => (c :: w) :: ws
           end
  end.

(** The comma. *)
Definition comma : N := 44%N.

(** ** [int(s)] on a [str] *)

Section Int.
(** The decimal digit value the Unicode database gives a character
    ([Py_UNICODE_TODECIMAL]), a number from 0 to 9, for the characters that
    are decimal digits; it is asked for characters from code point 127
    on. *)
Variable decimal : N -> option N.

(** One character of a text that is not plain ASCII: characters below 127
    stay, white space becomes a space and a decimal digit becomes the
    ASCII digit of its value.  Any other character ends the conversion
    with a question mark. *)
Fixpoint transform (s : str) : string :=
  match s with
  | [] => EmptyString
  | c :: r =>
      if (c <? 127)%N then String (ascii_of_N c) (transform r)
      else if isspace c then String " " (transform r)
      else match decimal c with
           | Some d => String (ascii_of_N (48 + d)) (transform r)
           | None => "?"
           end
  end.

(** [_PyUnicode_TransformDecimalAndSpaceToASCII]: an ASCII text is taken as
    it is. *)
Definition to_ascii (s : str) : string :=
  if forallb (fun c => (c <? 128)%N) s
  then string_of_list_ascii (List.map ascii_of_N s)
  else transform s.

(** [int(s)]: white space is skipped at both ends (beyond ASCII, every
    character [str.isspace] accepts; within ASCII, the separators FS to US
    are not skipped), one sign may come first, then decimal digits of any
    script, where single underscores may stand between two digits. *)
Definition int (s : str) : result Z := long_from_string (to_ascii s).

(** The characters that can occur in a text [int] accepts. *)
Definition int_char (c : N) : bool :=
  if (c <? 127)%N then
    let a := ascii_of_N c in
    is_digit a || c_isspace a || Ascii.eqb a "+" || Ascii.eqb a "-" || Ascii.eqb a "_"
  else isspace c || bool_decide (is_Some (decimal c)).
End Int.

(** A text that is a decimal integer literal -- an optional minus sign and
    one or more ASCII digits -- and the integer it denotes. *)
Definition decimal_literal (s : str) : option Z :=
  if forallb (fun c => (c <? 128)%N) s
  then literal_value (string_of_list_ascii (List.map ascii_of_N s))
  else None.

End Str.

(* ===================================================================== *)
(** * DNS zone defaults: [orchestra/apps/dns/zones/settings.py] *)
(* ===================================================================== *)

Module DnsSettings.

(** The values a setting of this module can hold. *)
Inductive setting : Type :=
| SStr (s : string)
| SInt (z : Z)
| SChoices (choices : list (string * string))
| SRecords (records : list (string * string)).

(** [getattr(settings, name, default)] on the deployment settings object,
    whose attributes are a dictionary from names to values. *)
Definition getattr (settings : gmap string setting) (name : string)
    (dflt : setting) : setting :=
  match settings !! name with
  | Some v => v
  | None => dflt
  end.

Section Values.
Variable settings : gmap string setting.

Definition DNS_DEFAULT_HOSTMASTER_EMAIL : setting :=
  getattr settings "DNS_DEFAULT_HOSTMASTER_EMAIL" (SStr "suport.orchestra.org").

Definition DNS_DEFAULT_PRIMARY_NS : setting :=
  getattr settings "DNS_DEFAULT_PRIMARY_NS" (SStr "ns1.orchestra.org").

Definition DNS_DOMAIN_SERIAL : setting :=
  getattr settings "DNS_DOMAIN_SERIAL" (SInt 203308).

Definition DNS_DOMAIN_SLAVE_REFRESH : setting :=
  getattr settings "DNS_DOMAIN_SLAVE_REFRESH" (SStr "1d").

Definition DNS_DOMAIN_SLAVE_RETRY : setting :=
  getattr settings "DNS_DOMAIN_SLAVE_RETRY" (SStr "2h").

Definition DNS_DOMAIN_SLAVE_EXPIRATION : setting :=
  getattr settings "DNS_DOMAIN_SLAVE_EXPIRATION" (SStr "4w").

Definition DNS_DOMAIN_MIN_CACHING_TIME : setting :=
  getattr settings "DNS_DOMAIN_MIN_CACHING_TIME" (SStr "1h").

Definition DNS_REGISTER_CHOICES : setting :=
  getattr settings "DNS_REGISTER_CHOICES"
    (SChoices [("MX", "MX"); ("TTL", "TTL"); ("NS", "NS"); ("CNAME", "CNAME");
               ("A", "A: IPv4 Address"); ("AAAA", "AAAA: IPv6 Address")]).

Definition DNS_DEFAULT_DOMAIN_REGISTERS : setting :=
  getattr settings "DNS_DEFAULT_DOMAIN_REGISTERS"
    (SRecords [("NS", "ns1.orchestra.org.")]).
End Values.

(** The seven scalar settings, by attribute name. *)
Definition scalar_settings : list (string * (gmap string setting -> setting)) :=
  [ ("DNS_DEFAULT_HOSTMASTER_EMAIL", DNS_DEFAULT_HOSTMASTER_EMAIL);
    ("DNS_DEFAULT_PRIMARY_NS", DNS_DEFAULT_PRIMARY_NS);
    ("DNS_DOMAIN_SERIAL", DNS_DOMAIN_SERIAL);
    ("DNS_DOMAIN_SLAVE_REFRESH", DNS_DOMAIN_SLAVE_REFRESH);
    ("DNS_DOMAIN_SLAVE_RETRY", DNS_DOMAIN_SLAVE_RETRY);
    ("DNS_DOMAIN_SLAVE_EXPIRATION", DNS_DOMAIN_SLAVE_EXPIRATION);
    ("DNS_DOMAIN_MIN_CACHING_TIME", DNS_DOMAIN_MIN_CACHING_TIME) ].

End DnsSettings.

(* ===================================================================== *)
(** * Billing administration: [orchestra/contrib/bills/admin.py] *)
(* ===================================================================== *)

Module Bills.
Import Py.

(** ** Tables *)

(** Modelled from the spec: the bills models are not part of this fragment.
    A bill, with the columns the admin module reads: its key, its number,
    whether it is open, and the bill it amends if any. *)
Record Bill : Type := {
  pk : Z;
  number : string;
  is_open : bool;
  amend_of_id : option Z
}.

(** Modelled from the spec: a bill line, with the bill it belongs to, its
    subtotal and its tax percentage, both decimals. *)
Record BillLine : Type := {
  line_pk : Z;
  bill_id : Z;
  subtotal : Q;
  tax : Q
}.

(** Modelled from the spec: a subline, with the line it corrects and its
    total. *)
Record BillSubline : Type := {
  subline_pk : Z;
  line_id : Z;
  total : Q
}.

(** The three tables. *)
Record database : Type := {
  bills : list Bill;
  lines : list BillLine;
  sublines : list BillSubline
}.

(** ** Query expressions.  A column reached through an outer join is
    nullable: [None] is SQL NULL. *)

Definition sql (A : Type) : Type := option A.

(** Arithmetic is NULL as soon as one operand is. *)
Definition sql_lift2 (f : Q -> Q -> Q) (x y : sql Q) : sql Q :=
  match x, y with
  | Some a, Some b => Some (f a b)
  | _, _ => None
  end.

Definition Coalesce (x : sql Q) (dflt : Q) : Q :=
  match x with
  | Some a => a
  | None => dflt
  end.

(** [Sum] skips NULLs and is NULL when nothing is left. *)
Fixpoint Sum (xs : list (sql Q)) : sql Q :=
  match xs with
  | [] => None
  | None :: xs' => Sum xs'
  | Some a :: xs' => Some (a + Coalesce (Sum xs') 0)%Q
  end.

(** [Count] counts the non-NULL values. *)
Definition Count {A} (xs : list (sql A)) : nat :=
  length (List.filter (fun x => match x with Some _ => true | None => false end) xs).

(** LEFT OUTER JOIN: every left row appears at least once, paired with NULL
    when nothing matches. *)
Definition left_join {A B} (on : A -> B -> bool) (xs : list A) (ys : list B)
    : list (A * sql B) :=
  flat_map (fun x =>
    match List.filter (on x) ys with
    | [] => [(x, None)]
    | matches => List.map (fun y => (x, Some y)) matches
    end) xs.

(** ** [BillAdmin.get_queryset]: the rows over which the annotations of one
    bill are aggregated.  Both [lines] and [lines__sublines] are followed,
    so the bill is joined to its lines and each line to its sublines. *)
Definition bill_rows (db : database) (b : Bill)
    : list (sql BillLine * sql BillSubline) :=
  List.map (fun '(b_l, s) => (snd b_l, s))
    (left_join (fun b_l s =>
                  match snd b_l with
                  | Some l => line_id s =? line_pk l
                  | None => false
                  end)
               (left_join (fun b l => bill_id l =? pk b) [b] (lines db))
               (sublines db)).

(** [(F('lines__subtotal') + Coalesce('lines__sublines__total', 0))
      * (1 + F('lines__tax')/100)] on one joined row. *)
Definition approx_total_term (row : sql BillLine * sql BillSubline) : sql Q :=
  let '(l, s) := row in
  sql_lift2 Qmult
    (sql_lift2 Qplus (option_map subtotal l) (Some (Coalesce (option_map total s) 0)))
    (sql_lift2 Qplus (Some 1%Q) (sql_lift2 Qdiv (option_map tax l) (Some 100%Q))).

(** The two annotations of the listing. *)
Definition lines__count (db : database) (b : Bill) : nat :=
  Count (List.map (fun row => option_map line_pk (fst row)) (bill_rows db b)).

Definition approx_total (db : database) (b : Bill) : Q :=
  Coalesce (Sum (List.map approx_total_term (bill_rows db b))) 0.

(** ** [BillLineAdmin.get_queryset]: per line, the sublines are aggregated
    before the line's own columns are combined. *)
Definition line_rows (db : database) (l : BillLine) : list (sql BillSubline) :=
  List.map snd (left_join (fun l s => line_id s =? line_pk l) [l] (sublines db)).

Definition subline_total (db : database) (l : BillLine) : sql Q :=
  Sum (List.map (option_map total) (line_rows db l)).

Definition computed_total (db : database) (l : BillLine) : sql Q :=
  sql_lift2 Qmult
    (sql_lift2 Qplus (Some (subtotal l))
       (Sum (List.map (fun s => Some (Coalesce (option_map total s) 0)) (line_rows db l))))
    (sql_lift2 Qplus (Some 1%Q) (sql_lift2 Qdiv (Some (tax l)) (Some 100%Q))).

(** ** Rounding.  [round(x, 2)] on a decimal rounds half to even. *)
Definition round_half_even (q : Q) : Z :=
  let f := Qfloor q in
  match Qcompare (q - inject_Z f) (1 # 2) with
  | Lt => f
  | Gt => f + 1
  | Eq => if Z.even f then f else f + 1
  end.

Definition round2 (q : Q) : Q := (inject_Z (round_half_even (q * 100)) / 100)%Q.

(** [BillLineAdmin.display_total]: [round(instance.computed_total or 0, 2)] *)
Definition line_display_total (db : database) (l : BillLine) : Q :=
  round2 (match computed_total db l with
          | Some q => if Qeq_bool q 0 then 0 else q
          | None => 0
          end).

(** The related managers [bill.lines.all()] and [line.sublines.all()]. *)
Definition lines_of (db : database) (b : Bill) : list BillLine :=
  List.filter (fun l => bill_id l =? pk b) (lines db).

Definition sublines_of (db : database) (l : BillLine) : list BillSubline :=
  List.filter (fun s => line_id s =? line_pk l) (sublines db).

Definition Qsum (xs : list Q) : Q := fold_right Qplus 0%Q xs.

(** Modelled from the spec: the total of one line, which the bills models
    (not part of this fragment) compute; the specification gives
    [total = (subtotal + sum(subline totals)) * (1 + tax/100)]. *)
Definition line_total (db : database) (l : BillLine) : Q :=
  ((subtotal l + Qsum (List.map total (sublines_of db l))) * (1 + tax l / 100))%Q.

(** Modelled from the spec: the unrounded sum of the line totals of a bill,
    the formula the specification gives for the computed total. *)
Definition exact_total (db : database) (b : Bill) : Q :=
  Qsum (List.map (line_total db) (lines_of db b)).

(** Modelled from the spec: [Bill.compute_total] lives in the bills models,
    which are not part of this fragment.  The specification gives it as the
    sum over the bill's lines of
    [(line.subtotal + sum of subline totals) * (1 + line.tax/100)],
    rounded to 2 decimal places. *)
Definition compute_total (db : database) (b : Bill) : Q :=
  round2 (exact_total db b).

(** [BillAdmin.display_total]: the shown total, followed by the HTML entity
    of the configured currency; the column is ordered on
    [admin_order_field = 'approx_total']. *)
Definition display_total (BILLS_CURRENCY : string) (db : database) (b : Bill)
    : Q * string :=
  (compute_total db b, " &" +:+ lower BILLS_CURRENCY +:+ ";").

Definition display_total_admin_order_field (db : database) (b : Bill) : Q :=
  approx_total db b.

(** ** Reading the annotation line by line.  The rows one line brings into
    [bill_rows], and the amount it thereby adds to [approx_total]. *)
Definition rows_of_line (db : database) (l : BillLine)
    : list (sql BillLine * sql BillSubline) :=
  match sublines_of db l with
  | [] => [(Some l, None)]
  | ss => List.map (fun s => (Some l, Some s)) ss
  end.

Definition approx_line_share (db : database) (l : BillLine) : Q :=
  match sublines_of db l with
  | [] => (subtotal l * (1 + tax l / 100))%Q
  | ss => Qsum (List.map (fun s => ((subtotal l + total s) * (1 + tax l / 100))%Q) ss)
  end.

(** ** [BillAdmin.formfield_for_dbfield] *)

Inductive widget : Type :=
| DefaultWidget
| TextInput (size : Z)
| Textarea (cols rows : Z)
| HiddenInput.

(** The form field built for a model field; for a relation it carries the
    queryset of candidates offered for selection. *)
Record formfield : Type := {
  field_widget : widget;
  queryset : list Bill
}.

Section FormField.
(** The inherited [formfield_for_dbfield], given the model field's name and
    the [widget] keyword argument if any. *)
Variable super_formfield_for_dbfield : string -> option widget -> formfield.

Definition formfield_for_dbfield (db_field_name : string) (kwargs_widget : option widget)
    : formfield :=
  let kwargs_widget :=
    if String.eqb db_field_name "comments" then Some (Textarea 70 4)
    else if String.eqb db_field_name "html" then Some (Textarea 150 20)
    else kwargs_widget in
  let formfield := super_formfield_for_dbfield db_field_name kwargs_widget in
  if String.eqb db_field_name "amend_of" then
    {| field_widget := field_widget formfield;
       queryset := List.filter (fun b => Bool.eqb (is_open b) false) (queryset formfield) |}
  else formfield.
End FormField.

(** ** [BillLineManagerAdmin] *)

Inductive level : Type := ERROR | WARNING.

Record message : Type := {
  msg_level : level;
  msg_text : string
}.

(** The notice of the empty selection. *)
Definition no_bills_selected : message :=
  {| msg_level := ERROR; msg_text := "No bills selected." |}.

(** What the view answers with: a redirect, or the change list of the lines
    in [shown], rendered with [context] and the remaining query string. *)
Inductive response : Type :=
| Redirect (to : string)
| ChangeList (context : gmap string string) (query : gmap string (list Str.str))
             (shown : list BillLine).

(** The outcome of a request that did not raise: the notices queued on the
    request, the response and the [bill_ids] attribute left on the admin
    object ([None] while it was never assigned). *)
Record outcome : Type := {
  messages : list message;
  answer : response;
  self_bill_ids : option (list Z)
}.

(** [BillLineManagerAdmin.get_queryset]: the inherited queryset, narrowed to
    the selected bills when [self.bill_ids] is a non-empty list. *)
Definition manager_get_queryset (db : database) (bill_ids : list Z) : list BillLine :=
  match bill_ids with
  | [] => lines db
  | _ => List.filter (fun l => existsb (Z.eqb (bill_id l)) bill_ids) (lines db)
  end.

(** [Bill.objects.get(pk=...)] *)
Definition objects_get (db : database) (key : Z) : result Bill :=
  match List.filter (fun b => pk b =? key) (bills db) with
  | [] => Raise DoesNotExist
  | [b] => Return b
  | _ => Raise MultipleObjectsReturned
  end.

(** [Bill.objects.filter(id__in=bill_ids, is_open=False).exists()] *)
Definition some_selected_bill_closed (db : database) (bill_ids : list Z) : bool :=
  existsb (fun b => existsb (Z.eqb (pk b)) bill_ids && Bool.eqb (is_open b) false)
          (bills db).

Section ChangeListView.
(** The decimal digit values of the Unicode database, as [int] reads
    them. *)
Variable decimal : N -> option N.
(** [reverse('admin:bills_bill_change', args=(id,))] *)
Variable reverse_bill_change : Z -> string.

(** [list(map(int, bill_ids.split(',')))] *)
Definition parse_bill_ids (bill_ids : Str.str) : result (list Z) :=
  mapM (Str.int decimal) (Str.split Str.comma bill_ids).

(** [BillLineManagerAdmin.changelist_view].  [GET] is the request's query
    dictionary, each key holding the list of its values; [old_bill_ids] is
    the attribute found on the admin object. *)
Definition changelist_view (db : database) (old_bill_ids : option (list Z))
    (GET : gmap string (list Str.str)) (extra_context : option (gmap string string))
    : result outcome :=
  let GET_copy := delete "ids" GET in
  match GET !! "ids" with
  | Some (first :: _) =>
      bill_ids ← parse_bill_ids first;
      '(title, notices) ←
        (if (length bill_ids =? 1)%nat then
           let id0 := List.hd 0 bill_ids in
           let bill_url := reverse_bill_change id0 in
           bill ← objects_get db id0;
           let bill_link :=
             "<a href=" +:+ dquote +:+ bill_url +:+ dquote +:+ ">"
               +:+ number bill +:+ "</a>" in
           Return ("Manage " +:+ bill_link +:+ " bill lines.",
                   if negb (is_open bill)
                   then [{| msg_level := WARNING; msg_text := "Bill not in open state." |}]
                   else [])
         else
           Return ("Manage bill lines of multiple bills.",
                   if some_selected_bill_closed db bill_ids
                   then [{| msg_level := WARNING;
                            msg_text := "Not all bills are in open state." |}]
                   else []));
      let context : gmap string string :=
        default ∅ extra_context ∪ {[ "title" := title ]} in
      Return {| messages := notices;
                answer := ChangeList context GET_copy (manager_get_queryset db bill_ids);
                self_bill_ids := Some bill_ids |}
  | _ =>
      (* messages.error(request, _("No bills selected.")) *)
      Return {| messages := [no_bills_selected];
                answer := Redirect "..";
                self_bill_ids := old_bill_ids |}
  end.
End ChangeListView.

End Bills.

(* ===================================================================== *)
(** * Forms: [orchestra/forms/options.py] *)
(* ===================================================================== *)

Module Forms.
Import Py.

(** A model instance: its attributes by name, and for plugin-backed records
    the schemaless [data] dictionary. *)
Record instance : Type := {
  attrs : gmap string value;
  data : gmap string value
}.

Inductive widget : Type := DefaultWidget | PasswordInput | HiddenInput.

Record field : Type := {
  initial : value;
  field_widget : widget
}.

(** ** [PluginDataForm] *)

(** The state of a form object.  [plugin_field] and [plugin_name] stand for
    the class attribute [plugin_field] and for
    [self.plugin.get_plugin_name()]; [declared_fields] lists the names of
    the fields declared on the form class, in declaration order;
    [errors] is the form's error dictionary. *)
Record PluginDataForm : Type := {
  plugin_field : string;
  plugin_name : string;
  declared_fields : list string;
  fields : gmap string field;
  cleaned_data : gmap string value;
  errors : gmap string (list string);
  form_instance : instance
}.

(** The field [f] once its initial value is replaced by
    [instance.data.get(name, f.initial)]. *)
Definition seeded (inst : instance) (name : string) (f : field) : field :=
  {| initial := dict_get (data inst) name (initial f); field_widget := field_widget f |}.

(** One turn of the loop of [__init__]:
    [initial = self.fields[field].initial;
     self.fields[field].initial = instance.data.get(field, initial)]. *)
Definition seed_initial (inst : instance) (fields : gmap string field) (name : string)
    : result (gmap string field) :=
  match fields !! name with
  | None => Raise (KeyError name)
  | Some f => Return (<[ name := seeded inst name f ]> fields)
  end.

Fixpoint seed_initials (inst : instance) (names : list string)
    (fields : gmap string field) : result (gmap string field) :=
  match names with
  | [] => Return fields
  | name :: names' => fields' ← seed_initial inst fields name;
                      seed_initials inst names' fields'
  end.

(** [PluginDataForm.__init__].  [base_fields] are the fields the model form
    machinery has built (a fresh copy per form), [new_instance] the empty
    instance it creates when none is given, [kwargs_instance] the
    [instance] keyword argument (a model instance, when given, is truthy). *)
Definition PluginDataForm_init (plugin_field plugin_name : string)
    (declared_fields : list string) (base_fields : gmap string field)
    (new_instance : instance) (kwargs_instance : option instance)
    : result PluginDataForm :=
  (* try: self.fields[self.plugin_field].widget = HiddenInput()
     except KeyError: pass *)
  let fields :=
    match base_fields !! plugin_field with
    | Some f => <[ plugin_field := {| initial := initial f;
                                      field_widget := HiddenInput |} ]> base_fields
    | None => base_fields
    end in
  fields' ← match kwargs_instance with
            | Some inst => seed_initials inst declared_fields fields
            | None => Return fields
            end;
  Return {| plugin_field := plugin_field;
            plugin_name := plugin_name;
            declared_fields := declared_fields;
            fields := fields';
            cleaned_data := ∅;
            errors := ∅;
            form_instance := default new_instance kwargs_instance |}.

(** [{field: self.cleaned_data[field] for field in self.declared_fields}] *)
Fixpoint collect_declared (cleaned_data : gmap string value) (names : list string)
    : result (gmap string value) :=
  match names with
  | [] => Return ∅
  | name :: names' =>
      v ← dict_item cleaned_data name;
      rest ← collect_declared cleaned_data names';
      Return (<[ name := v ]> rest)
  end.

(** The inherited [ModelForm.save]: refuses a form with errors, writes the
    instance to the store when [commit] holds, and returns the instance. *)
Definition ModelForm_save (form_errors : gmap string (list string))
    (inst : instance) (commit : bool) (store : option instance)
    : result (instance * option instance) :=
  if decide (form_errors = ∅)
  then Return (inst, if commit then Some inst else store)
  else Raise ValueError.

(** [PluginDataForm.save].  [store] is the persisted copy of the record, if
    any; the result is the returned instance and the store afterwards. *)
Definition PluginDataForm_save (form : PluginDataForm) (commit : bool)
    (store : option instance) : result (instance * option instance) :=
  let inst := form_instance form in
  let attrs' := <[ plugin_field form := PStr (plugin_name form) ]> (attrs inst) in
  data' ← collect_declared (cleaned_data form) (declared_fields form);
  ModelForm_save (errors form) {| attrs := attrs'; data := data' |} commit store.

(** ** [UserCreationForm] *)

Definition password_mismatch : exn :=
  ValidationError "password_mismatch" "The two password fields didn't match.".

(** [UserCreationForm.clean_password2] *)
Definition clean_password2 (cleaned_data : gmap string value) : result value :=
  let password1 := dict_get cleaned_data "password1" PNone in
  let password2 := dict_get cleaned_data "password2" PNone in
  if truthy password1 && truthy password2 && negb (bool_decide (password1 = password2))
  then Raise password_mismatch
  else Return password2.

(** How the form machinery runs a [clean_<name>] hook: the returned value
    replaces the field's entry in [cleaned_data]; a validation error is
    recorded under the field's name and the entry is removed; any other
    exception goes through. *)
Definition run_clean_hook (name : string)
    (hook : gmap string value -> result value)
    (form : gmap string value * gmap string (list string))
    : result (gmap string value * gmap string (list string)) :=
  let '(cleaned_data, errors) := form in
  match hook cleaned_data with
  | Return v => Return (<[ name := v ]> cleaned_data, errors)
  | Raise (ValidationError code _) =>
      Return (delete name cleaned_data,
              <[ name := default [] (errors !! name) ++ [code] ]> errors)
  | Raise e => Raise e
  end.

(** The two password fields as the form machinery cleans them, in
    declaration order: a required text field refuses an empty entry, then
    runs its validators ([validate_password] on [password1], none on
    [password2]); only a field that passed is entered in [cleaned_data] and
    has its [clean_<name>] hook run. *)
Definition clean_required_field (name : string) (validator : string -> bool)
    (raw : string) (form : gmap string value * gmap string (list string))
    : gmap string value * gmap string (list string) :=
  let '(cleaned_data, errors) := form in
  if String.eqb raw EmptyString
  then (cleaned_data, <[ name := default [] (errors !! name) ++ ["required"] ]> errors)
  else if validator raw
  then (<[ name := PStr raw ]> cleaned_data, errors)
  else (cleaned_data, <[ name := default [] (errors !! name) ++ ["invalid"] ]> errors).

Definition clean_password_fields (validate_password : string -> bool)
    (raw1 raw2 : string) : result (gmap string value * gmap string (list string)) :=
  let form := clean_required_field "password1" validate_password raw1 (∅, ∅) in
  let form := clean_required_field "password2" (fun _ => true) raw2 form in
  match fst form !! "password2" with
  | Some _ => run_clean_hook "password2" clean_password2 form
  | None => Return form
  end.

(** [UserCreationForm.save]: the user is built by the inherited [save]
    (without committing), given the hash of [password1], and stored when
    [commit] holds.  [make_password] is the hasher behind [set_password]. *)
Definition UserCreationForm_save (make_password : string -> string)
    (cleaned_data : gmap string value) (errors : gmap string (list string))
    (user : instance) (commit : bool) (store : option instance)
    : result (instance * option instance) :=
  '(user, store) ← ModelForm_save errors user false store;
  password1 ← dict_item cleaned_data "password1";
  let hashed := match password1 with
                | PStr raw => PStr (make_password raw)
                | other => other
                end in
  let user := {| attrs := <[ "password" := hashed ]> (attrs user); data := data user |} in
  Return (user, if commit then Some user else store).

(** ** [UserChangeForm] *)

(** [initial] is the form's initial dictionary, [submitted] the posted
    data. *)
Record UserChangeForm : Type := {
  change_initial : gmap string value;
  change_submitted : gmap string value;
  change_instance : instance
}.

(** A change form bound to a stored user: the initial dictionary is read off
    the instance's attributes. *)
Definition UserChangeForm_init (user : instance) (submitted : gmap string value)
    : UserChangeForm :=
  {| change_initial := attrs user;
     change_submitted := submitted;
     change_instance := user |}.

(** [UserChangeForm.clean_password] *)
Definition clean_password (form : UserChangeForm) : result value :=
  dict_item (change_initial form) "password".

(** Cleaning the password field and writing the cleaned value back onto the
    instance, as the model form does for each of its fields. *)
Definition apply_password (form : UserChangeForm) : result instance :=
  v ← clean_password form;
  Return {| attrs := <[ "password" := v ]> (attrs (change_instance form));
            data := data (change_instance form) |}.

End Forms.

(* ===================================================================== *)
(** * Mailer: [orchestra/utils/mail.py] *)
(* ===================================================================== *)

Module Mail.
Import Py Str.

(** Values of a template context: plain values, or the [site] dictionary. *)
Inductive ctxval : Type :=
| CValue (v : value)
| CSite (name scheme domain : string).

(** The flag dictionary of a rendering pass: [{'subject': True}] or
    [{'message': True}]. *)
Inductive pass : Type := SubjectPass | MessagePass.

(** The [to] argument: one address or a list of addresses. *)
Inductive recipients : Type :=
| OneAddress (address : string)
| Addresses (addresses : list string).

(** An [EmailMultiAlternatives] message.  Subject, body and alternatives
    are rendered texts, of any characters; [attachments] holds what the
    constructor was given to attach. *)
Record EmailMultiAlternatives : Type := {
  subject : str;
  body : str;
  from_email : string;
  to : list string;
  attachments : list string;
  alternatives : list (str * string)   (* content, MIME type *)
}.

Definition attach_alternative (content : str) (mimetype : string)
    (msg : EmailMultiAlternatives) : EmailMultiAlternatives :=
  {| subject := subject msg; body := body msg; from_email := from_email msg;
     to := to msg; attachments := attachments msg;
     alternatives := alternatives msg ++ [(content, mimetype)] |}.

(** [if html:] on the optional template name. *)
Definition html_given (html : option string) : bool :=
  match html with
  | Some name => negb (String.eqb name EmptyString)
  | None => false
  end.

Section Mailer.
(** The template engine, the deployment's site settings with the URL
    already split by [urlparse], and Django's [DEFAULT_FROM_EMAIL]. *)
Variable render_to_string : string -> pass -> gmap string ctxval -> str.
Variable ORCHESTRA_SITE_NAME : string.
Variable site_url_scheme : string.
Variable site_url_netloc : string.
Variable DEFAULT_FROM_EMAIL : string.

(** [if not 'site' in context: context['site'] = {...}] *)
Definition with_site (context : gmap string ctxval) : gmap string ctxval :=
  match context !! "site" with
  | Some _ => context
  | None => <[ "site" := CSite ORCHESTRA_SITE_NAME site_url_scheme site_url_netloc ]> context
  end.

(** [EmailMultiAlternatives(subject, body, from_email, to,
    attachments=attachments)].  Django's constructor stores
    [from_email or settings.DEFAULT_FROM_EMAIL] as the sender: a sender
    that is [None] or empty gives way to the default. *)
Definition EmailMultiAlternatives_init (subject body : str) (from_email : option string)
    (to : list string) (attachments : list string) : EmailMultiAlternatives :=
  {| subject := subject; body := body;
     from_email := match from_email with
                   | Some sender =>
                       if String.eqb sender EmptyString then DEFAULT_FROM_EMAIL else sender
                   | None => DEFAULT_FROM_EMAIL
                   end;
     to := to; attachments := attachments; alternatives := [] |}.

(** [send_email_template]; the result is the message handed to [send]. *)
Definition send_email_template (template : string) (context : gmap string ctxval)
    (to : recipients) (email_from : option string) (html : option string)
    (attachments : list string) : EmailMultiAlternatives :=
  let to := match to with
            | OneAddress a => [a]
            | Addresses l => l
            end in
  let context := with_site context in
  let subject := strip (render_to_string template SubjectPass context) in
  let message := strip (render_to_string template MessagePass context) in
  let msg := EmailMultiAlternatives_init subject message email_from to attachments in
  if html_given html then
    let html_message := render_to_string (default EmptyString html) MessagePass context in
    attach_alternative html_message "text/html" msg
  else msg.
End Mailer.

End Mail.

(* ===================================================================== *)
(** * System user functional tests:
      [orchestra/apps/systemusers/tests/functional_tests/tests.py] *)
(* ===================================================================== *)

Module SystemUserTests.
Import Py.

(** The master server as the checks see it: the user names [id] resolves,
    and the text files by path, each a list of lines. *)
Record host : Type := {
  identities : list string;
  files : gmap string (list string)
}.

(** The commands the harness sends. *)
Inductive command : Type :=
| IdCmd (username : string)                 (* 'id %s' *)
| GrepCmd (username : string) (path : string). (* 'grep "^%s:" <path>' *)

(** The command line as the harness formats it. *)
Definition command_line (c : command) : string :=
  match c with
  | IdCmd u => "id " +:+ u
  | GrepCmd u path =>
      "grep " +:+ dquote +:+ "^" +:+ u +:+ ":" +:+ dquote +:+ " " +:+ path
  end.

(** Exit status of a command on the host: [id] gives 0 for a known account
    and 1 otherwise; [grep] gives 0 when some line of the file starts with
    the user name followed by a colon, 1 when none does, and 2 when the
    file cannot be read.  The harness pastes the user name into the command
    line and into the pattern: this reading of the two commands is the one
    of a plain user name, made of ASCII letters, digits, underscores and
    hyphens and not starting with a hyphen, which neither the shell nor
    [grep] nor [id] reads as anything but itself; what the commands do with
    other names is not described here. *)
Definition exit_status (h : host) (c : command) : Z :=
  match c with
  | IdCmd u => if existsb (String.eqb u) (identities h) then 0 else 1
  | GrepCmd u path =>
      match files h !! path with
      | None => 2
      | Some file_lines =>
          if existsb (String.prefix (u +:+ ":")) file_lines then 0 else 1
      end
  end.

(** Modelled from the spec: [sshrun] of [orchestra.utils.system], which is
    not part of this fragment.  It runs the command on the named host and
    returns the exit status, and signals a command failure carrying the
    status when it is not zero (the harness does not ask for silence
    here). *)
Definition sshrun (h : host) (c : command) : result Z :=
  let status := exit_status h c in
  if status =? 0 then Return status else Raise (CommandError status).

(** [self.assertRaises(CommandError, f, ...)]: passes when the call raises a
    command failure, fails the test when it returns, and lets any other
    exception through. *)
Definition assertRaises_CommandError {A} (call : result A) : result unit :=
  match call with
  | Raise (CommandError _) => Return tt
  | Raise e => Raise e
  | Return _ => Raise AssertionError
  end.

(** [self.assertRaises(SystemUser.DoesNotExist,
                       SystemUser.objects.get, username=username)]; the
    table of system users (its model is not part of this fragment) is
    given by the user names it holds. *)
Definition assert_record_gone (system_users : list string) (username : string)
    : result unit :=
  match List.filter (String.eqb username) system_users with
  | [] => Return tt
  | [_] => Raise AssertionError
  | _ => Raise MultipleObjectsReturned
  end.

(** The host-side lookups of [validate_delete], in order. *)
Definition validate_delete_commands (username : string) : list command :=
  [ IdCmd username;
    GrepCmd username "/etc/groups";
    GrepCmd username "/etc/passwd";
    GrepCmd username "/etc/shadow" ].

Fixpoint assert_all_fail (h : host) (cs : list command) : result unit :=
  match cs with
  | [] => Return tt
  | c :: cs' => _ ← assertRaises_CommandError (sshrun h c); assert_all_fail h cs'
  end.

(** [SystemUserMixin.validate_delete] *)
Definition validate_delete (system_users : list string) (master : host)
    (username : string) : result unit :=
  _ ← assert_record_gone system_users username;
  assert_all_fail master (validate_delete_commands username).

(** The files a list of commands reads. *)
Definition paths_checked (cs : list command) : list string :=
  flat_map (fun c => match c with GrepCmd _ p => [p] | IdCmd _ => [] end) cs.

End SystemUserTests.

(* ===================================================================== *)
(** * More Python built-ins *)
(* ===================================================================== *)

Module PyMore.
Import Py.

(** Calls that can also fail on a list index. *)
Inductive error : Type :=
| IndexError
| Exn (e : exn).

Inductive attempt (A : Type) : Type :=
| Done (a : A)
| Failed (e : error).
Arguments Done {A} a.
Arguments Failed {A} e.

#[export] Instance attempt_ret : MRet attempt := fun _ a => Done a.
#[export] Instance attempt_bind : MBind attempt := fun _ _ k r =>
  match r with
  | Done a => k a
  | Failed e => Failed e
  end.

Definition of_result {A} (r : result A) : attempt A :=
  match r with
  | Return a => Done a
  | Raise e => Failed (Exn e)
  end.

(** [l[i]] for a non-negative index. *)
Definition list_item {A} (l : list A) (i : nat) : attempt A :=
  match l !! i with
  | Some x => Done x
  | None => Failed IndexError
  end.

(** [l[i] = x] for a non-negative index: out of range it raises. *)
Definition list_set_item {A} (l : list A) (i : nat) (x : A) : attempt (list A) :=
  if (i <? length l)%nat then Done (<[ i := x ]> l) else Failed IndexError.

(** [str.upper()] on the ASCII letters. *)
Definition upper_char (c : ascii) : ascii :=
  let n := code c in
  if ((97 <=? n) && (n <=? 122))%N then ascii_of_N (n - 32) else c.

Fixpoint upper (s : string) : string :=
  match s with
  | EmptyString => EmptyString
  | String c r => String (upper_char c) (upper r)
  end.

(** ** The regular expression [\d+\((\w+)\)] *)

(** [\w] on the ASCII range: letters, digits and the underscore. *)
Definition is_word (c : ascii) : bool :=
  let n := code c in
  (is_digit c || (65 <=? n) && (n <=? 90) || (97 <=? n) && (n <=? 122) || (n =? 95))%N.

(** The longest prefix of characters satisfying [p], and what follows. *)
Fixpoint span (p : ascii -> bool) (s : string) : string * string :=
  match s with
  | EmptyString => (EmptyString, EmptyString)
  | String c r =>
      if p c then let '(a, b) := span p r in (String c a, b)
      else (EmptyString, s)
  end.

(** A match of [\d+\((\w+)\)] anchored at the start of [s]: the captured
    group and the text after the match.  Both repetitions are greedy, and
    giving characters back cannot help: the character wanted next, a
    parenthesis, belongs to neither class. *)
Definition match_group (s : string) : option (string * string) :=
  match span is_digit s with
  | (String _ _, String c r2) =>
      if Ascii.eqb c "(" then
        match span is_word r2 with
        | (String _ _ as w, String c' r4) =>
            if Ascii.eqb c' ")" then Some (w, r4) else None
        | _ => None
        end
      else None
  | _ => None
  end.

(** [re.findall]: the matches from left to right, without overlap; after a
    match the scan resumes behind it, otherwise one character further.
    Every step consumes a character, so the length of the text is fuel
    enough. *)
Fixpoint findall_fuel (fuel : nat) (s : string) : list string :=
  match fuel with
  | O => []
  | S fuel' =>
      match s with
      | EmptyString => []
      | String _ r =>
          match match_group s with
          | Some (w, rest) => w :: findall_fuel fuel' rest
          | None => findall_fuel fuel' r
          end
      end
  end.

Definition findall (s : string) : list string := findall_fuel (String.length s) s.

End PyMore.

(* ===================================================================== *)
(** * Bill administration, continued:
      [orchestra/contrib/bills/admin.py], class [BillAdmin] *)
(* ===================================================================== *)

Module BillAdmin.
Import Py PyMore Bills.

(** [obj and not obj.is_open] *)
Definition is_closed (obj : option Bill) : bool :=
  match obj with
  | Some b => negb (is_open b)
  | None => false
  end.

Definition add_fields : list string :=
  ["account"; "type"; "amend_of"; "is_open"; "due_on"; "comments"].

(** [BillAdmin.get_readonly_fields], given the inherited read-only
    fields. *)
Definition get_readonly_fields (super_fields : list string) (obj : option Bill)
    : list string :=
  if is_closed obj then super_fields ++ add_fields else super_fields.

(** The classes of the inline editors. *)
Inductive inline : Type :=
| BillLineInline
| ClosedBillLineInline
| OtherInline (name : string).

#[export] Instance inline_eq_dec : EqDecision inline.
Proof. solve_decision. Defined.

Definition inlines : list inline := [BillLineInline; ClosedBillLineInline].

(** [BillAdmin.get_inline_instances], given the inherited instances by
    class. *)
Definition get_inline_instances (super_inlines : list inline) (obj : option Bill)
    : list inline :=
  if is_closed obj
  then List.filter (fun i => negb (bool_decide (i = BillLineInline))) super_inlines
  else List.filter (fun i => negb (bool_decide (i = ClosedBillLineInline))) super_inlines.

(** One entry of [fieldsets]: the title, the CSS classes and the list of
    field names. *)
Record fieldset : Type := {
  fs_title : option string;
  fs_classes : list string;
  fs_fields : list string
}.

Definition fieldsets : list fieldset :=
  [ {| fs_title := None; fs_classes := [];
       fs_fields := ["number"; "type"; "amend_of_link"; "account_link"; "display_total";
                     "display_payment_state"; "is_sent"; "comments"] |};
    {| fs_title := Some "Dates"; fs_classes := ["collapse"];
       fs_fields := ["created_on_display"; "closed_on_display"; "updated_on_display";
                     "due_on"] |};
    {| fs_title := Some "Raw"; fs_classes := ["collapse"]; fs_fields := ["html"] |} ].

(** [if obj.amend_of_id:] *)
Definition has_amend_of (b : Bill) : bool :=
  match amend_of_id b with
  | Some z => negb (z =? 0)
  | None => false
  end.

(** [BillAdmin.get_fieldsets], given the inherited fieldsets.  The third
    field of the first fieldset is assigned by index. *)
Definition get_fieldsets (super_fieldsets : list fieldset) (obj : option Bill)
    : attempt (list fieldset) :=
  match obj with
  | None => Done super_fieldsets
  | Some b =>
      first ← list_item super_fieldsets 0;
      fields' ← list_set_item (fs_fields first) 2
                  (if has_amend_of b then "amend_of_link" else "amend_links");
      let first' := {| fs_title := fs_title first; fs_classes := fs_classes first;
                       fs_fields := fields' |} in
      if is_open b then Done [first'] else Done (<[ 0%nat := first' ]> super_fieldsets)
  end.

Definition change_view_actions : list string :=
  ["manage_lines"; "view_bill"; "download_bills"; "send_bills"; "close_bills";
   "amend_bills"; "close_send_download_bills"].

(** [BillAdmin.get_change_view_actions], given the inherited actions by
    name; [type_in_AMEND_MAP] tells whether [obj.type in obj.AMEND_MAP]. *)
Definition get_change_view_actions (super_actions : list string) (obj : option Bill)
    (type_in_AMEND_MAP : bool) : list string :=
  let exclude :=
    match obj with
    | Some b =>
        (if negb (is_open b) then ["close_bills"; "close_send_download_bills"] else [])
        ++ (if negb type_in_AMEND_MAP then ["amend_bills"] else [])
    | None => []
    end in
  List.filter (fun action => negb (existsb (String.eqb action) exclude)) super_actions.

(** [Prefetch('amends', queryset=Bill.objects.filter(is_open=False),
             to_attr='closed_amends')] of [BillAdmin.get_queryset]: the
    closed bills that amend [b]. *)
Definition closed_amends (db : database) (b : Bill) : list Bill :=
  List.filter (fun a => bool_decide (amend_of_id a = Some (pk b)) && Bool.eqb (is_open a) false)
              (bills db).

(** Modelled from the spec: the payment states, constants of the bills
    models, which are not part of this fragment; a state outside the table
    below is possible as far as this module goes. *)
Inductive payment_state : Type :=
| OPEN | CREATED | PROCESSED | AMENDED | PAID | EXECUTED | BAD_DEBT | INCOMPLETE
| UnlistedState (name : string).

Definition PAYMENT_STATE_COLORS (s : payment_state) : option string :=
  match s with
  | OPEN => Some "grey"
  | CREATED => Some "darkorange"
  | PROCESSED => Some "darkorange"
  | AMENDED => Some "blue"
  | PAID => Some "green"
  | EXECUTED => Some "darkorange"
  | BAD_DEBT => Some "red"
  | INCOMPLETE => Some "red"
  | UnlistedState _ => None
  end.

(** The parts of the link [display_payment_state] renders. *)
Record state_link : Type := {
  link_url : string;
  link_color : string;
  link_title : string;
  link_name : string
}.

Definition render_state_link (l : state_link) : string :=
  "<a href=" +:+ dquote +:+ link_url l +:+ dquote
    +:+ " style=" +:+ dquote +:+ "color:" +:+ link_color l +:+ dquote
    +:+ " title=" +:+ dquote +:+ link_title l +:+ dquote +:+ ">"
    +:+ link_name l +:+ "</a>".

Section PaymentState.
(** The admin URLs of the transactions: the change page of one, and the
    change list. *)
Variable reverse_transaction_change : Z -> string.
Variable reverse_transaction_changelist : string.

(** [BillAdmin.display_payment_state].  [transactions] are the keys of the
    bill's transactions, [state] and [state_display] its payment state and
    the label of that state, [amended_by] its [closed_amends]. *)
Definition display_payment_state (bill : Bill) (transactions : list Z)
    (state : payment_state) (state_display : string) (amended_by : list Bill)
    : state_link :=
  let url :=
    match transactions with
    | [t] => reverse_transaction_change t
    | _ => reverse_transaction_changelist +:+ "?bill=" +:+ str_of_int (pk bill)
    end in
  let stale := match amended_by with [] => false | _ => true end in
  {| link_url := url;
     link_color := default "grey" (PAYMENT_STATE_COLORS state);
     link_title := if stale
                   then "This bill has been amended, this value may not be valid."
                   else EmptyString;
     link_name := if stale then upper state_display +:+ "*" else upper state_display |}.
End PaymentState.

(** [BillLineAdmin.display_sublinetotal]: [instance.subline_total or ''],
    [None] standing for the empty text. *)
Definition display_sublinetotal (db : database) (l : BillLine) : option Q :=
  match subline_total db l with
  | Some q => if Qeq_bool q 0 then None else Some q
  | None => None
  end.

End BillAdmin.

(* ===================================================================== *)
(** * Forms, continued: [UserCreationForm.clean_username] *)
(* ===================================================================== *)

Module UserForms.
Import Py Forms.

(** The [error_messages] of the class itself. *)
Definition error_messages : gmap string string :=
  {[ "password_mismatch" := "The two password fields didn't match." ]}.

(** [self._meta.model._default_manager.get(username=username)] on the
    table of users, given by their user names. *)
Definition default_manager_get (users : list value) (username : value) : result value :=
  match List.filter (fun u => bool_decide (u = username)) users with
  | [] => Raise DoesNotExist
  | [u] => Return u
  | _ => Raise MultipleObjectsReturned
  end.

(** [UserCreationForm.clean_username].  [messages] is the [error_messages]
    dictionary of the form's class; the validation error is built from the
    message alone, without a code. *)
Definition clean_username (messages : gmap string string) (users : list value)
    (cleaned_data : gmap string value) : result value :=
  username ← dict_item cleaned_data "username";
  match default_manager_get users username with
  | Raise DoesNotExist => Return username
  | Raise e => Raise e
  | Return _ =>
      match messages !! "duplicate_username" with
      | Some message => Raise (ValidationError EmptyString message)
      | None => Raise (KeyError "duplicate_username")
      end
  end.

End UserForms.

(* ===================================================================== *)
(** * System user functional tests, continued: [validate_user] *)
(* ===================================================================== *)

Module SystemUserChecks.
Import Py PyMore.

(** What [sshr] returns for the [id] command: it runs silently, so a
    failure shows in the return code only. *)
Record command_result : Type := {
  return_code : Z;
  stdout : string
}.

(** The table of system users: each user name with the user names of its
    groups. *)
Definition objects_get (system_users : list (string * list string)) (username : string)
    : result (string * list string) :=
  match List.filter (fun u => String.eqb (fst u) username) system_users with
  | [] => Raise DoesNotExist
  | [u] => Return u
  | _ => Raise MultipleObjectsReturned
  end.

(** [self.assertEqual(a, b)] *)
Definition assertEqual `{EqDecision A} (a b : A) : attempt unit :=
  if decide (a = b) then Done tt else Failed (Exn AssertionError).

(** [SystemUserMixin.validate_user], given the result of [id <username>]
    on the master server. *)
Definition validate_user (system_users : list (string * list string))
    (idcmd : command_result) (username : string) : attempt unit :=
  _ ← assertEqual 0 (return_code idcmd);
  user ← of_result (objects_get system_users username);
  let groups := snd user ++ [fst user] in
  idgroups ← list_item (split " " (strip (stdout idcmd))) 2;
  let idgroups := findall idgroups in
  assertEqual (list_to_set groups : gset string) (list_to_set idgroups).

(** The line [id] prints: the user, its primary group and all its groups,
    each as a number followed by the name in parentheses. *)
Definition id_entry (e : string * string) : string :=
  fst e +:+ "(" +:+ snd e +:+ ")".

Definition id_line (user primary : string * string) (groups : list (string * string))
    : string :=
  "uid=" +:+ id_entry user +:+ " gid=" +:+ id_entry primary
    +:+ " groups=" +:+ join "," (List.map id_entry groups).

(** As far as [grep] can tell, [path] has no entry for the user: no line of
    the file starts with the user's name and a colon, or the file is not
    there. *)
Definition no_entry (h : SystemUserTests.host) (username path : string) : Prop :=
  match SystemUserTests.files h !! path with
  | None => True
  | Some file_lines => forall line, In line file_lines ->
                         String.prefix (username +:+ ":") line = false
  end.

(** A plain user name: ASCII letters, digits, underscores and hyphens, at
    least one character, the first of them not a hyphen. *)
Definition plain_char (c : ascii) : bool := is_word c || Ascii.eqb c "-".

Definition plain_name (s : string) : bool :=
  match s with
  | EmptyString => false
  | String c _ => is_word c && all_chars plain_char s
  end.

(** Classes of characters: anything but white space, anything but the
    blank, anything but an opening parenthesis. *)
Definition not_space (c : ascii) : bool := negb (is_space c).
Definition not_blank (c : ascii) : bool := negb (Ascii.eqb c " ").
Definition no_open (c : ascii) : bool := negb (Ascii.eqb c "(").

(** A numeric id and a name as [id] prints them: digits, and a name made
    of letters, digits and underscores. *)
Definition well_formed_entry (e : string * string) : bool :=
  negb (String.eqb (fst e) EmptyString) && all_chars is_digit (fst e)
  && negb (String.eqb (snd e) EmptyString) && all_chars is_word (snd e).

End SystemUserChecks.

(* ===================================================================== *)
(** * DNS zone defaults, continued *)
(* ===================================================================== *)

Module DnsZoneSettings.
Import DnsSettings.

(** Every setting of the module, by the attribute it reads. *)
Definition all_settings : list (string * (gmap string setting -> setting)) :=
  scalar_settings ++
  [ ("DNS_REGISTER_CHOICES", DNS_REGISTER_CHOICES);
    ("DNS_DEFAULT_DOMAIN_REGISTERS", DNS_DEFAULT_DOMAIN_REGISTERS) ].

End DnsZoneSettings.

(* ===================================================================== *)
(** * Properties *)
(* ===================================================================== *)

(** ** DNS zone defaults *)

Section DnsSettingsFacts.
Import DnsSettings.

Lemma getattr_absent (settings : gmap string setting) name dflt :
  settings !! name = None -> getattr settings name dflt = dflt.
Proof. intros H. unfold getattr. now rewrite H. Qed.

Lemma getattr_present (settings : gmap string setting) name dflt v :
  settings !! name = Some v -> getattr settings name dflt = v.
Proof. intros H. unfold getattr. now rewrite H. Qed.

(** C2, as the specification words it, fails on the hostmaster address:
    without any override the module yields [suport.orchestra.org], not
    [support.orchestra.org]. *)
Lemma dns_hostmaster_default_differs :
  DNS_DEFAULT_HOSTMASTER_EMAIL ∅ <> SStr "support.orchestra.org".
Proof. discriminate. Qed.

(** C2 (amended): each of the seven scalar settings is the literal default
    of the module when the deployment does not define it -- the hostmaster
    address being [suport.orchestra.org] -- and is the deployment's value,
    verbatim, when it does. *)
Theorem dns_zone_defaults_and_overrides (settings : gmap string setting) :
  ((settings !! "DNS_DEFAULT_HOSTMASTER_EMAIL" = None ->
      DNS_DEFAULT_HOSTMASTER_EMAIL settings = SStr "suport.orchestra.org") /\
   (settings !! "DNS_DEFAULT_PRIMARY_NS" = None ->
      DNS_DEFAULT_PRIMARY_NS settings = SStr "ns1.orchestra.org") /\
   (settings !! "DNS_DOMAIN_SERIAL" = None ->
      DNS_DOMAIN_SERIAL settings = SInt 203308) /\
   (settings !! "DNS_DOMAIN_SLAVE_REFRESH" = None ->
      DNS_DOMAIN_SLAVE_REFRESH settings = SStr "1d") /\
   (settings !! "DNS_DOMAIN_SLAVE_RETRY" = None ->
      DNS_DOMAIN_SLAVE_RETRY settings = SStr "2h") /\
   (settings !! "DNS_DOMAIN_SLAVE_EXPIRATION" = None ->
      DNS_DOMAIN_SLAVE_EXPIRATION settings = SStr "4w") /\
   (settings !! "DNS_DOMAIN_MIN_CACHING_TIME" = None ->
      DNS_DOMAIN_MIN_CACHING_TIME settings = SStr "1h")) /\
  (forall name value v,
      In (name, value) scalar_settings ->
      settings !! name = Some v -> value settings = v).
Proof.
  split.
  - repeat split; intros H; now apply getattr_absent.
  - intros name value v Hin Hv. simpl in Hin.
    repeat (destruct Hin as [[= <- <-] | Hin]; [now apply getattr_present |]).
    contradiction.
Qed.

Lemma dns_zone_defaults_and_overrides_witness :
  DNS_DEFAULT_HOSTMASTER_EMAIL {[ "DNS_DOMAIN_SERIAL" := SInt 2016040501 ]}
    = SStr "suport.orchestra.org" /\
  DNS_DOMAIN_SERIAL {[ "DNS_DOMAIN_SERIAL" := SInt 2016040501 ]} = SInt 2016040501.
Proof.
  pose proof (dns_zone_defaults_and_overrides
                {[ "DNS_DOMAIN_SERIAL" := SInt 2016040501 ]}) as [Hd Ho].
  split.
  - apply Hd. reflexivity.
  - apply (Ho "DNS_DOMAIN_SERIAL" DNS_DOMAIN_SERIAL).
    + simpl. tauto.
    + reflexivity.
Defined.

End DnsSettingsFacts.

(** ** Amendment candidates *)

Section AmendOfFacts.
Import Bills.

Lemma in_closed_filter (b : Bill) (qs : list Bill) :
  In b (List.filter (fun b => Bool.eqb (is_open b) false) qs)
  <-> In b qs /\ is_open b = false.
Proof.
  rewrite filter_In. split; intros [Hin Hopen]; split; trivial.
  - now destruct (is_open b).
  - now rewrite Hopen.
Qed.

(** Fields other than [amend_of] keep the inherited queryset. *)
Lemma formfield_other_fields super name w :
  name <> "amend_of" ->
  queryset (formfield_for_dbfield super name w)
  = queryset (super name
      (if String.eqb name "comments" then Some (Textarea 70 4)
       else if String.eqb name "html" then Some (Textarea 150 20) else w)).
Proof.
  intros Hne. unfold formfield_for_dbfield.
  destruct (String.eqb_spec name "amend_of") as [->|_]; [contradiction | reflexivity].
Qed.

(** C6: every bill the [amend_of] field offers is closed; the candidates
    are exactly the closed bills of the inherited queryset, so an open bill
    is never offered. *)
Theorem amend_of_offers_only_closed_bills
    (super : string -> option widget -> formfield) (w : option widget) (b : Bill) :
  In b (queryset (formfield_for_dbfield super "amend_of" w)) ->
  is_open b = false /\ In b (queryset (super "amend_of" w)).
Proof.
  unfold formfield_for_dbfield. simpl. rewrite in_closed_filter. tauto.
Qed.

Lemma amend_of_offers_only_closed_bills_witness :
  let closed := {| pk := 2; number := "I0002"; is_open := false; amend_of_id := None |} in
  let opened := {| pk := 3; number := EmptyString; is_open := true; amend_of_id := None |} in
  let super := fun (_ : string) (w : option widget) =>
    {| field_widget := default DefaultWidget w; queryset := [closed; opened] |} in
  queryset (formfield_for_dbfield super "amend_of" None) = [closed] /\
  is_open closed = false /\ In closed (queryset (super "amend_of" None)).
Proof.
  intros closed opened super. split; [reflexivity |].
  apply (amend_of_offers_only_closed_bills super None closed).
  simpl. left. reflexivity.
Defined.

End AmendOfFacts.

(** ** Credential forms *)

Section CredentialFormFacts.
Import Py Forms.

(** The submitted data plays no part in [clean_password]. *)
Lemma clean_password_ignores_submission (form : UserChangeForm)
    (submitted : gmap string value) :
  clean_password {| change_initial := change_initial form;
                    change_submitted := submitted;
                    change_instance := change_instance form |}
  = clean_password form.
Proof. reflexivity. Qed.

(** C5: whatever is submitted, cleaning the password field of a change form
    bound to a stored user returns the stored value, and writing the
    cleaned value back leaves the user, password hash included, as it
    was. *)
Theorem change_form_keeps_password (user : instance) (stored : value)
    (submitted : gmap string value) :
  attrs user !! "password" = Some stored ->
  clean_password (UserChangeForm_init user submitted) = Return stored /\
  apply_password (UserChangeForm_init user submitted) = Return user.
Proof.
  intros Hstored.
  assert (Hclean : clean_password (UserChangeForm_init user submitted) = Return stored).
  { unfold clean_password, dict_item. simpl. now rewrite Hstored. }
  split; [exact Hclean |].
  unfold apply_password. rewrite Hclean. simpl.
  rewrite insert_id by exact Hstored. now destruct user.
Qed.

Lemma change_form_keeps_password_witness :
  let user := {| attrs := {[ "username" := PStr "alice";
                             "password" := PStr "pbkdf2_sha256$20000$salt$hash" ]};
                 data := ∅ |} in
  let submitted : gmap string value := {[ "password" := PStr "hunter2" ]} in
  clean_password (UserChangeForm_init user submitted)
    = Return (PStr "pbkdf2_sha256$20000$salt$hash") /\
  apply_password (UserChangeForm_init user submitted) = Return user.
Proof.
  intros user submitted.
  apply (change_form_keeps_password user (PStr "pbkdf2_sha256$20000$salt$hash") submitted).
  reflexivity.
Defined.

(** Equal entries, whatever they are, pass the confirmation check. *)
Lemma clean_password2_equal (cleaned_data : gmap string value) :
  dict_get cleaned_data "password1" PNone = dict_get cleaned_data "password2" PNone ->
  clean_password2 cleaned_data = Return (dict_get cleaned_data "password2" PNone).
Proof.
  intros Heq. unfold clean_password2. rewrite Heq.
  rewrite bool_decide_eq_true_2 by reflexivity.
  now rewrite andb_false_r.
Qed.

(** C7, as the specification words it, fails when an entry is missing from
    the cleaned data (the first password was left blank, or was rejected by
    its own validation): the entries differ, yet the confirmation is
    accepted and no mismatch is reported. *)
Lemma clean_password2_missing_entry_accepted :
  let cleaned_data : gmap string value := {[ "password2" := PStr "s3cret!A" ]} in
  dict_get cleaned_data "password1" PNone <> dict_get cleaned_data "password2" PNone /\
  clean_password2 cleaned_data = Return (PStr "s3cret!A") /\
  clean_password_fields (fun _ => true) EmptyString "s3cret!A"
    = Return (cleaned_data, {[ "password1" := ["required"] ]}).
Proof. split; [discriminate | split; reflexivity]. Qed.

(** C7 (amended): when both entries are present, non-empty and different,
    the confirmation check raises the mismatch error, the error is
    recorded against [password2] and [save] refuses the form, so no user is
    stored; when the entries are equal the check returns the submitted
    confirmation. *)
Theorem creation_form_password_confirmation (make_password : string -> string)
    (cleaned_data : gmap string value) (errors : gmap string (list string))
    (p1 p2 : string) :
  cleaned_data !! "password1" = Some (PStr p1) ->
  cleaned_data !! "password2" = Some (PStr p2) ->
  p1 <> EmptyString -> p2 <> EmptyString ->
  (p1 <> p2 ->
     clean_password2 cleaned_data = Raise password_mismatch /\
     exists cleaned' errors',
       run_clean_hook "password2" clean_password2 (cleaned_data, errors)
         = Return (cleaned', errors') /\
       cleaned' !! "password2" = None /\
       In "password_mismatch" (default [] (errors' !! "password2")) /\
       forall user commit store,
         UserCreationForm_save make_password cleaned' errors' user commit store
           = Raise ValueError) /\
  (p1 = p2 -> clean_password2 cleaned_data = Return (PStr p2)).
Proof.
  intros H1 H2 Hne1 Hne2.
  assert (Ht : forall s, s <> EmptyString -> truthy (PStr s) = true).
  { intros s Hs. simpl. now destruct (String.eqb_spec s EmptyString). }
  split.
  - intros Hdiff.
    assert (Hraise : clean_password2 cleaned_data = Raise password_mismatch).
    { unfold clean_password2, dict_get. rewrite H1, H2, !Ht by assumption.
      rewrite bool_decide_eq_false_2; [reflexivity | congruence]. }
    split; [exact Hraise |].
    eexists. eexists. split; [unfold run_clean_hook; rewrite Hraise; reflexivity |].
    split; [apply lookup_delete_eq |].
    split.
    + rewrite lookup_insert_eq. simpl. apply in_or_app. right. now left.
    + intros user commit store. unfold UserCreationForm_save, ModelForm_save.
      destruct (decide (<["password2":=default [] (errors !! "password2")
                            ++ ["password_mismatch"]]> errors = ∅)) as [He|_].
      * exfalso. revert He. apply insert_non_empty.
      * reflexivity.
  - intros ->. rewrite clean_password2_equal; unfold dict_get; now rewrite ?H1, ?H2.
Qed.

Lemma creation_form_password_confirmation_witness :
  clean_password2 {[ "password1" := PStr "s3cret!A"; "password2" := PStr "s3cret!B" ]}
    = Raise password_mismatch.
Proof.
  refine (proj1 (proj1 (creation_form_password_confirmation (fun s => s)
            {[ "password1" := PStr "s3cret!A"; "password2" := PStr "s3cret!B" ]}
            ∅ "s3cret!A" "s3cret!B" _ _ _ _) _)).
  - reflexivity.
  - reflexivity.
  - discriminate.
  - discriminate.
  - discriminate.
Defined.

End CredentialFormFacts.

(** ** Plugin data forms *)

Section PluginFormFacts.
Import Py Forms.

Lemma seeded_idempotent inst name f :
  seeded inst name (seeded inst name f) = seeded inst name f.
Proof.
  unfold seeded, dict_get. simpl. now destruct (data inst !! name).
Qed.

Lemma seed_initials_spec (inst : instance) (names : list string) :
  forall fields : gmap string field,
    (forall name, name ∈ names -> is_Some (fields !! name)) ->
    exists fields' : gmap string field,
      seed_initials inst names fields = Return fields' /\
      forall name,
        fields' !! name
        = if decide (name ∈ names) then seeded inst name <$> fields !! name
          else fields !! name.
Proof.
  induction names as [|x names IH]; intros fields Hall.
  - exists fields. split; [reflexivity |]. intros name.
    destruct (decide (name ∈ [])) as [Hin|_]; [inversion Hin | reflexivity].
  - destruct (Hall x) as [f Hf]; [left |].
    simpl. unfold seed_initial. rewrite Hf. simpl.
    destruct (IH (<[x := seeded inst x f]> fields)) as (fields' & Hrun & Hlook).
    { intros name Hin. destruct (decide (x = name)) as [->|Hne].
      - rewrite lookup_insert_eq. eauto.
      - rewrite lookup_insert_ne by exact Hne. apply Hall. now right. }
    exists fields'. split; [exact Hrun |].
    intros name. rewrite Hlook.
    destruct (decide (x = name)) as [<-|Hne].
    + rewrite lookup_insert_eq, Hf. simpl.
      destruct (decide (x ∈ x :: names)) as [_|Hn]; [| exfalso; apply Hn; left].
      destruct (decide (x ∈ names)); simpl; [now rewrite seeded_idempotent | reflexivity].
    + rewrite lookup_insert_ne by exact Hne.
      destruct (decide (name ∈ names)) as [Hin|Hnin].
      * destruct (decide (name ∈ x :: names)) as [_|Hn]; [reflexivity |].
        exfalso. apply Hn. now right.
      * destruct (decide (name ∈ x :: names)) as [Hin|_]; [| reflexivity].
        exfalso. apply elem_of_cons in Hin as [->|Hin]; [now apply Hne | now apply Hnin].
Qed.

Lemma collect_declared_spec (cleaned_data : gmap string value) (names : list string) :
  (forall name, name ∈ names -> is_Some (cleaned_data !! name)) ->
  exists blob : gmap string value,
    collect_declared cleaned_data names = Return blob /\
    dom blob = list_to_set names /\
    forall name, name ∈ names -> blob !! name = cleaned_data !! name.
Proof.
  induction names as [|x names IH]; intros Hall.
  - exists ∅. split; [reflexivity |]. split; [apply dom_empty_L |].
    intros name Hin. inversion Hin.
  - destruct (Hall x) as [v Hv]; [left |].
    destruct IH as (blob & Hrun & Hdom & Hlook).
    { intros name Hin. apply Hall. now right. }
    exists (<[x := v]> blob). simpl. unfold dict_item. rewrite Hv. simpl.
    rewrite Hrun. simpl. split; [reflexivity |]. split.
    + rewrite dom_insert_L, Hdom. reflexivity.
    + intros name Hin. destruct (decide (x = name)) as [<-|Hne].
      * now rewrite lookup_insert_eq.
      * rewrite lookup_insert_ne by exact Hne. apply Hlook.
        apply elem_of_cons in Hin as [->|Hin]; [contradiction | exact Hin].
Qed.

(** A declared field missing from the cleaned data makes [save] raise. *)
Lemma collect_declared_missing (cleaned_data : gmap string value) (names : list string) name :
  name ∈ names -> cleaned_data !! name = None ->
  exists key, collect_declared cleaned_data names = Raise (KeyError key).
Proof.
  induction names as [|x names IH]; intros Hin Hnone; [inversion Hin |].
  simpl. unfold dict_item.
  destruct (cleaned_data !! x) as [v|] eqn:Hx; simpl; [| eauto].
  apply elem_of_cons in Hin as [->|Hin]; [congruence |].
  destruct (IH Hin Hnone) as [key ->]. simpl. eauto.
Qed.

(** Hiding the plugin selector does not touch any initial value. *)
Lemma hidden_plugin_field_initial (base_fields : gmap string field) plugin_field name :
  initial <$>
    (match base_fields !! plugin_field with
     | Some f => <[plugin_field := {| initial := initial f; field_widget := HiddenInput |}]>
                   base_fields
     | None => base_fields
     end) !! name
  = initial <$> base_fields !! name.
Proof.
  destruct (base_fields !! plugin_field) as [f|] eqn:Hf; [| reflexivity].
  destruct (decide (plugin_field = name)) as [<-|Hne].
  - now rewrite lookup_insert_eq, Hf.
  - now rewrite lookup_insert_ne.
Qed.

(** Editing an existing record: every declared field starts from the value
    stored in the blob, and from its own default when the blob has no such
    key. *)
Lemma plugin_form_init_seeds (plugin_field plugin_name : string)
    (declared_fields : list string) (base_fields : gmap string field)
    (new_instance inst : instance) :
  (forall name, name ∈ declared_fields -> is_Some (base_fields !! name)) ->
  exists form,
    PluginDataForm_init plugin_field plugin_name declared_fields base_fields
      new_instance (Some inst) = Return form /\
    form_instance form = inst /\
    forall name f, name ∈ declared_fields -> base_fields !! name = Some f ->
      initial <$> fields form !! name
      = Some (match data inst !! name with Some v => v | None => initial f end).
Proof.
  intros Hall. unfold PluginDataForm_init.
  set (hidden := match base_fields !! plugin_field with
                 | Some f => _ | None => _ end).
  destruct (seed_initials_spec inst declared_fields hidden) as (fields' & Hrun & Hlook).
  { intros name Hin. destruct (Hall name Hin) as [f Hf].
    pose proof (hidden_plugin_field_initial base_fields plugin_field name) as Hh.
    fold hidden in Hh. rewrite Hf in Hh. simpl in Hh.
    destruct (hidden !! name); [eauto | discriminate]. }
  rewrite Hrun. simpl. eexists. split; [reflexivity |]. simpl.
  split; [reflexivity |].
  intros name f Hin Hf. rewrite Hlook.
  destruct (decide (name ∈ declared_fields)) as [_|Hn]; [| contradiction].
  pose proof (hidden_plugin_field_initial base_fields plugin_field name) as Hh.
  fold hidden in Hh. rewrite Hf in Hh. simpl in Hh.
  destruct (hidden !! name) as [g|]; [| discriminate].
  simpl in *. injection Hh as ->. reflexivity.
Qed.

(** C4: saving a valid form writes the plugin identifier onto the record
    and replaces the blob by exactly the declared fields' cleaned values;
    an edit form reloaded on the saved record starts each declared field
    from the saved value; and on any record a declared field starts from
    the blob's value, or from the field's own default when the key is
    absent. *)
Theorem plugin_data_form_round_trip (form : PluginDataForm) (commit : bool)
    (store : option instance) (base_fields : gmap string field)
    (new_instance : instance) :
  (forall name, name ∈ declared_fields form -> is_Some (cleaned_data form !! name)) ->
  errors form = ∅ ->
  (forall name, name ∈ declared_fields form -> is_Some (base_fields !! name)) ->
  exists saved,
    PluginDataForm_save form commit store
      = Return (saved, if commit then Some saved else store) /\
    attrs saved !! plugin_field form = Some (PStr (plugin_name form)) /\
    dom (data saved) = list_to_set (declared_fields form) /\
    (forall name, name ∈ declared_fields form ->
       data saved !! name = cleaned_data form !! name) /\
    (exists reloaded,
       PluginDataForm_init (plugin_field form) (plugin_name form)
         (declared_fields form) base_fields new_instance (Some saved)
         = Return reloaded /\
       forall name v, name ∈ declared_fields form ->
         cleaned_data form !! name = Some v ->
         initial <$> fields reloaded !! name = Some v) /\
    (forall inst, exists edit,
       PluginDataForm_init (plugin_field form) (plugin_name form)
         (declared_fields form) base_fields new_instance (Some inst)
         = Return edit /\
       forall name f, name ∈ declared_fields form -> base_fields !! name = Some f ->
         initial <$> fields edit !! name
         = Some (match data inst !! name with Some v => v | None => initial f end)).
Proof.
  intros Hclean Hvalid Hbase.
  destruct (collect_declared_spec (cleaned_data form) (declared_fields form) Hclean)
    as (blob & Hrun & Hdom & Hlook).
  exists {| attrs := <[plugin_field form := PStr (plugin_name form)]>
                       (attrs (form_instance form));
            data := blob |}.
  split.
  { unfold PluginDataForm_save. rewrite Hrun. simpl.
    unfold ModelForm_save. now rewrite decide_True by exact Hvalid. }
  split; [apply lookup_insert_eq |].
  split; [exact Hdom |].
  split; [exact Hlook |].
  split.
  - destruct (plugin_form_init_seeds (plugin_field form) (plugin_name form)
                (declared_fields form) base_fields new_instance
                {| attrs := <[plugin_field form := PStr (plugin_name form)]>
                              (attrs (form_instance form));
                   data := blob |} Hbase) as (reloaded & Hinit & _ & Hseed).
    exists reloaded. split; [exact Hinit |].
    intros name v Hin Hv. destruct (Hbase name Hin) as [f Hf].
    rewrite (Hseed name f Hin Hf). simpl. now rewrite (Hlook name Hin), Hv.
  - intros inst.
    destruct (plugin_form_init_seeds (plugin_field form) (plugin_name form)
                (declared_fields form) base_fields new_instance inst Hbase)
      as (edit & Hinit & _ & Hseed).
    exists edit. split; [exact Hinit | exact Hseed].
Qed.

Lemma plugin_data_form_round_trip_witness :
  let form := {| plugin_field := "type"; plugin_name := "php";
                 declared_fields := ["version"; "timeout"];
                 fields := ∅;
                 cleaned_data := {[ "name" := PStr "blog"; "type" := PStr "php";
                                    "version" := PStr "5.4"; "timeout" := PInt 30 ]};
                 errors := ∅;
                 form_instance := {| attrs := {[ "name" := PStr "blog" ]};
                                     data := {[ "stale" := PBool true ]} |} |} in
  let base_fields : gmap string field :=
    {[ "name" := {| initial := PNone; field_widget := DefaultWidget |};
       "type" := {| initial := PNone; field_widget := DefaultWidget |};
       "version" := {| initial := PStr "5.2"; field_widget := DefaultWidget |};
       "timeout" := {| initial := PInt 60; field_widget := DefaultWidget |} ]} in
  exists saved,
    PluginDataForm_save form true None = Return (saved, Some saved) /\
    dom (data saved) = {[ "version"; "timeout" ]} /\
    exists reloaded,
      PluginDataForm_init "type" "php" ["version"; "timeout"] base_fields
        {| attrs := ∅; data := ∅ |} (Some saved) = Return reloaded /\
      initial <$> fields reloaded !! "timeout" = Some (PInt 30).
Proof.
  intros form base_fields.
  assert (Hdecl : forall name, name ∈ ["version"; "timeout"] ->
                    name = "version" \/ name = "timeout").
  { intros name Hin. apply elem_of_cons in Hin as [->|Hin]; [now left |].
    apply elem_of_cons in Hin as [->|Hin]; [now right | inversion Hin]. }
  destruct (plugin_data_form_round_trip form true None base_fields
              {| attrs := ∅; data := ∅ |}) as (saved & Hsave & _ & Hdom & _ & Hreload & _).
  - intros name Hin. destruct (Hdecl name Hin) as [->| ->]; vm_compute; eauto.
  - reflexivity.
  - intros name Hin. destruct (Hdecl name Hin) as [->| ->]; vm_compute; eauto.
  - exists saved. split; [exact Hsave |]. split.
    + rewrite Hdom. simpl. set_solver.
    + destruct Hreload as (reloaded & Hinit & Hseed).
      exists reloaded. split; [exact Hinit |].
      apply Hseed; [right; left | reflexivity].
Defined.

End PluginFormFacts.

(** ** Stripping white space *)

Section StripFacts.
Import Py.

Lemma lstrip_no_leading_space s : starts_with_space (lstrip s) = false.
Proof.
  induction s as [|c r IH]; simpl; [reflexivity |].
  destruct (is_space c) eqn:Hc; [exact IH | simpl; exact Hc].
Qed.

Lemma rstrip_no_trailing_space s : ends_with_space (rstrip s) = false.
Proof.
  induction s as [|c r IH]; simpl; [reflexivity |].
  destruct (rstrip r) as [|c' r'] eqn:Hr.
  - destruct (is_space c) eqn:Hc; simpl; [reflexivity | exact Hc].
  - exact IH.
Qed.

Lemma rstrip_keeps_head s :
  starts_with_space s = false -> starts_with_space (rstrip s) = false.
Proof.
  destruct s as [|c r]; simpl; [reflexivity |]. intros Hc.
  destruct (rstrip r); [rewrite Hc |]; simpl; exact Hc.
Qed.

Lemma lstrip_decompose s :
  exists l, s = l +:+ lstrip s /\ all_space l = true.
Proof.
  induction s as [|c r (l & Heq & Hl)]; simpl.
  - exists EmptyString. split; reflexivity.
  - destruct (is_space c) eqn:Hc.
    + exists (String c l). simpl. rewrite Hc, Hl. split; [| reflexivity].
      change (String c r = String c (l +:+ lstrip r)). now f_equal.
    + exists EmptyString. split; reflexivity.
Qed.

Lemma rstrip_decompose s :
  exists r, s = rstrip s +:+ r /\ all_space r = true.
Proof.
  induction s as [|c t (r & Heq & Hr)]; simpl.
  - exists EmptyString. split; reflexivity.
  - destruct (rstrip t) as [|c' t'] eqn:Ht.
    + simpl in Heq. subst t. destruct (is_space c) eqn:Hc.
      * exists (String c r). simpl. rewrite Hc, Hr. split; reflexivity.
      * exists r. split; [reflexivity | exact Hr].
    + exists r. split; [| exact Hr].
      change (String c t = String c (String c' t' +:+ r)). now f_equal.
Qed.

(** [strip] removes white space only, and leaves none at either end. *)
Lemma strip_spec s :
  starts_with_space (strip s) = false /\
  ends_with_space (strip s) = false /\
  exists l r, s = l +:+ strip s +:+ r /\ all_space l = true /\ all_space r = true.
Proof.
  unfold strip. split; [| split].
  - apply rstrip_keeps_head, lstrip_no_leading_space.
  - apply rstrip_no_trailing_space.
  - destruct (lstrip_decompose s) as (l & Hl & Hls).
    destruct (rstrip_decompose (lstrip s)) as (r & Hr & Hrs).
    exists l, r. split; [| split; assumption].
    rewrite <- Hr. exact Hl.
Qed.

End StripFacts.

(** ** Stripping white space from a text of any characters *)

Section TextStripFacts.
Import Py Str.

(** The white space of [str.isspace], character by character. *)
Lemma isspace_white_space c : isspace c = true <-> In c white_space.
Proof.
  unfold isspace, white_space. simpl.
  rewrite !orb_true_iff, !andb_true_iff, !N.leb_le, !N.eqb_eq. lia.
Qed.

Lemma text_lstrip_no_leading_space s : starts_with_space (lstrip s) = false.
Proof.
  induction s as [|c r IH]; simpl; [reflexivity |].
  destruct (isspace c) eqn:Hc; [exact IH | simpl; exact Hc].
Qed.

Lemma text_rstrip_no_trailing_space s : ends_with_space (rstrip s) = false.
Proof.
  induction s as [|c r IH]; simpl; [reflexivity |].
  destruct (rstrip r) as [|c' r'] eqn:Hr.
  - destruct (isspace c) eqn:Hc; simpl; [reflexivity | exact Hc].
  - exact IH.
Qed.

Lemma text_rstrip_keeps_head s :
  starts_with_space s = false -> starts_with_space (rstrip s) = false.
Proof.
  destruct s as [|c r]; simpl; [reflexivity |]. intros Hc.
  destruct (rstrip r); [rewrite Hc |]; simpl; exact Hc.
Qed.

Lemma text_lstrip_decompose s :
  exists l, s = l ++ lstrip s /\ all_space l = true.
Proof.
  induction s as [|c r (l & Heq & Hl)]; simpl.
  - exists []. split; reflexivity.
  - destruct (isspace c) eqn:Hc.
    + exists (c :: l). simpl. rewrite Hc. split; [now f_equal | exact Hl].
    + exists []. split; reflexivity.
Qed.

Lemma text_rstrip_decompose s :
  exists r, s = rstrip s ++ r /\ all_space r = true.
Proof.
  induction s as [|c t (r & Heq & Hr)]; simpl.
  - exists []. split; reflexivity.
  - destruct (rstrip t) as [|c' t'] eqn:Ht.
    + simpl in Heq. subst t. destruct (isspace c) eqn:Hc.
      * exists (c :: r). simpl. rewrite Hc. split; [reflexivity | exact Hr].
      * exists r. split; [reflexivity | exact Hr].
    + exists r. split; [| exact Hr]. simpl. now f_equal.
Qed.

Lemma starts_with_space_head s :
  starts_with_space s = false <-> forall c, head s = Some c -> isspace c = false.
Proof.
  destruct s as [|a r]; simpl.
  - split; [discriminate | reflexivity].
  - split; [intros H c [= <-]; exact H | intros H; now apply H].
Qed.

Lemma ends_with_space_last s :
  ends_with_space s = false <-> forall c, last s = Some c -> isspace c = false.
Proof.
  induction s as [|a r IH]; simpl.
  - split; [discriminate | reflexivity].
  - destruct r as [|b r'].
    + simpl. split; [intros H c [= <-]; exact H | intros H; now apply H].
    + exact IH.
Qed.

Lemma all_space_white_space l :
  all_space l = true <-> Forall (fun c => In c white_space) l.
Proof.
  unfold all_space. rewrite forallb_forall, List.Forall_forall.
  split; intros H c Hc; apply isspace_white_space, H, Hc.
Qed.

(** [strip] removes white space only, and leaves none at either end. *)
Lemma text_strip_spec s :
  starts_with_space (strip s) = false /\
  ends_with_space (strip s) = false /\
  exists l r, s = l ++ strip s ++ r /\ all_space l = true /\ all_space r = true.
Proof.
  unfold strip. split; [| split].
  - apply text_rstrip_keeps_head, text_lstrip_no_leading_space.
  - apply text_rstrip_no_trailing_space.
  - destruct (text_lstrip_decompose s) as (l & Hl & Hls).
    destruct (text_rstrip_decompose (lstrip s)) as (r & Hr & Hrs).
    exists l, r. split; [| split; assumption].
    rewrite <- Hr. exact Hl.
Qed.

(** No character of the white space stands at either end of a stripped
    text. *)
Lemma text_strip_ends s c :
  In c white_space -> head (strip s) <> Some c /\ last (strip s) <> Some c.
Proof.
  intros Hc. apply isspace_white_space in Hc.
  destruct (text_strip_spec s) as (Hhead & Htail & _).
  split; intros H.
  - rewrite (proj1 (starts_with_space_head _) Hhead c H) in Hc. discriminate.
  - rewrite (proj1 (ends_with_space_last _) Htail c H) in Hc. discriminate.
Qed.

End TextStripFacts.

(** ** Mailer *)

Section MailerFacts.
Import Py Str Mail.

Lemma send_email_template_subject render site_name scheme netloc default_from
    template context to email_from html attachments :
  subject (send_email_template render site_name scheme netloc default_from
             template context to email_from html attachments)
  = strip (render template SubjectPass (with_site site_name scheme netloc context)).
Proof. unfold send_email_template. now destruct (html_given html). Qed.

Lemma send_email_template_body render site_name scheme netloc default_from
    template context to email_from html attachments :
  body (send_email_template render site_name scheme netloc default_from
          template context to email_from html attachments)
  = strip (render template MessagePass (with_site site_name scheme netloc context)).
Proof. unfold send_email_template. now destruct (html_given html). Qed.

(** C9: the subject of the message handed to [send] is the rendered subject
    with the white space at both ends removed -- nothing else is removed,
    and none is left at either end, where white space is every character
    [str.isspace] accepts, listed in [white_space] -- and the message
    carries a [text/html] alternative exactly when an HTML template is
    given, which is then the only alternative. *)
Theorem mailer_subject_stripped_and_html_optional
    (render_to_string : string -> pass -> gmap string ctxval -> str)
    (site_name scheme netloc default_from template : string)
    (context : gmap string ctxval)
    (to : recipients) (email_from html : option string) (attachments : list string) :
  let msg := send_email_template render_to_string site_name scheme netloc default_from
               template context to email_from html attachments in
  let context' := with_site site_name scheme netloc context in
  let rendered := render_to_string template SubjectPass context' in
  subject msg = strip rendered /\
  starts_with_space (subject msg) = false /\
  ends_with_space (subject msg) = false /\
  (exists l r, rendered = l ++ subject msg ++ r /\
               all_space l = true /\ all_space r = true /\
               Forall (fun c => In c white_space) (l ++ r)) /\
  (forall c, In c white_space ->
     head (subject msg) <> Some c /\ last (subject msg) <> Some c) /\
  ((exists content, In (content, "text/html") (alternatives msg))
     <-> html_given html = true) /\
  (html = None -> alternatives msg = []) /\
  (forall name, html = Some name -> name <> EmptyString ->
     alternatives msg = [(render_to_string name MessagePass context', "text/html")]).
Proof.
  intros msg context' rendered.
  assert (Hsubject : subject msg = strip rendered)
    by apply send_email_template_subject.
  rewrite Hsubject.
  destruct (text_strip_spec rendered) as (Hhead & Htail & l & r & Hparts & Hl & Hr).
  split; [reflexivity |]. split; [exact Hhead |]. split; [exact Htail |].
  split.
  { exists l, r. repeat (split; [assumption |]).
    apply Forall_app. split; now apply all_space_white_space. }
  split; [intros c; apply text_strip_ends |].
  unfold msg, send_email_template. fold context'.
  split; [| split].
  - destruct (html_given html); simpl.
    + split; [reflexivity | intros _; eexists; left; reflexivity].
    + split; [intros [_ []] | discriminate].
  - intros ->. reflexivity.
  - intros name -> Hne. simpl.
    destruct (String.eqb_spec name EmptyString) as [->|_]; [contradiction | reflexivity].
Qed.

Lemma mailer_subject_stripped_and_html_optional_witness :
  let render := fun (template : string) (p : pass) (_ : gmap string ctxval) =>
    match p with
    | SubjectPass =>
        [0xA; 0x20]%N ++ of_string "Bill I0001" ++ [0xA0; 0x2003; 0xD; 0xA]%N
    | MessagePass => of_string "Dear customer"
    end in
  let msg := send_email_template render "Orchestra" "https" "orchestra.lan"
               "no-reply@orchestra.lan" "bill.mail" ∅
               (OneAddress "alice@orchestra.lan") None (Some "bill.html") [] in
  subject msg = of_string "Bill I0001" /\
  alternatives msg = [(of_string "Dear customer", "text/html")].
Proof.
  intros render msg.
  pose proof (mailer_subject_stripped_and_html_optional render "Orchestra" "https"
                "orchestra.lan" "no-reply@orchestra.lan" "bill.mail" ∅
                (OneAddress "alice@orchestra.lan") None (Some "bill.html") [])
    as (Hsubject & _ & _ & _ & _ & _ & _ & Halt).
  split.
  - etransitivity; [exact Hsubject | reflexivity].
  - apply (Halt "bill.html"); [reflexivity | discriminate].
Defined.

End MailerFacts.

(** ** Deletion checks of the system user harness *)

Section ValidateDeleteFacts.
Import Py SystemUserTests.

(** The outcome of [validate_delete] does not depend on [/etc/group]: the
    file may hold anything, or be missing. *)
Lemma validate_delete_ignores_etc_group (system_users : list string) (master : host)
    (username : string) (group_file : option (list string)) :
  validate_delete system_users
    {| identities := identities master;
       files := match group_file with
                | Some content => <[ "/etc/group" := content ]> (files master)
                | None => delete "/etc/group" (files master)
                end |} username
  = validate_delete system_users master username.
Proof.
  unfold validate_delete, validate_delete_commands, assert_all_fail, sshrun, exit_status.
  simpl.
  destruct group_file;
    now rewrite ?lookup_insert_ne, ?lookup_delete_ne by discriminate.
Qed.

(** On a host without a file [/etc/groups] the second lookup always fails,
    whatever the user name. *)
Lemma etc_groups_lookup_always_fails (master : host) (username : string) :
  files master !! "/etc/groups" = None ->
  sshrun master (GrepCmd username "/etc/groups") = Raise (CommandError 2).
Proof. intros H. unfold sshrun, exit_status. now rewrite H. Qed.

(** C3: the harness reads [/etc/groups], not [/etc/group].  On a master
    whose [/etc/group] still lists the deleted user, the group lookup the
    claim describes succeeds, and yet [validate_delete] passes. *)
Theorem validate_delete_reads_etc_groups :
  let master := {| identities := [];
                   files := {[ "/etc/group" := ["root:x:0:"; "alice:x:1001:"];
                               "/etc/passwd" := ["root:x:0:0:root:/root:/bin/bash"];
                               "/etc/shadow" := ["root:*:16000:0:99999:7:::"] ]} |} in
  paths_checked (validate_delete_commands "alice")
    = ["/etc/groups"; "/etc/passwd"; "/etc/shadow"] /\
  command_line (GrepCmd "alice" "/etc/groups")
    = "grep " +:+ dquote +:+ "^alice:" +:+ dquote +:+ " /etc/groups" /\
  sshrun master (GrepCmd "alice" "/etc/group") = Return 0 /\
  validate_delete [] master "alice" = Return tt.
Proof. repeat split; vm_compute; reflexivity. Qed.

End ValidateDeleteFacts.

(** ** Bill totals *)

Section BillTotalFacts.
Import Py Bills.
Local Open Scope Q_scope.

Lemma Qsum_app xs ys : Qsum (xs ++ ys) == Qsum xs + Qsum ys.
Proof.
  induction xs as [|x xs IH]; simpl; [ring | rewrite IH; ring].
Qed.

Lemma Qsum_ext {A} (f g : A -> Q) (xs : list A) :
  (forall x, In x xs -> f x == g x) ->
  Qsum (List.map f xs) == Qsum (List.map g xs).
Proof.
  induction xs as [|x xs IH]; intros H; simpl; [reflexivity |].
  rewrite (H x) by now left. rewrite IH; [reflexivity |].
  intros y Hy. apply H. now right.
Qed.

Lemma Sum_app xs ys :
  Coalesce (Sum (xs ++ ys)) 0 == Coalesce (Sum xs) 0 + Coalesce (Sum ys) 0.
Proof.
  induction xs as [|[x|] xs IH]; simpl.
  - ring.
  - rewrite IH. ring.
  - exact IH.
Qed.

Lemma Sum_flat_map {A} (f : A -> list (sql Q)) (xs : list A) :
  Coalesce (Sum (flat_map f xs)) 0
  == Qsum (List.map (fun x => Coalesce (Sum (f x)) 0) xs).
Proof.
  induction xs as [|x xs IH]; simpl; [reflexivity |].
  rewrite Sum_app, IH. reflexivity.
Qed.

Lemma Sum_Some (xs : list Q) :
  Coalesce (Sum (List.map Some xs)) 0 == Qsum xs.
Proof.
  induction xs as [|x xs IH]; simpl; [reflexivity | now rewrite IH].
Qed.

Lemma filter_none {A} (xs : list A) : List.filter (fun _ => false) xs = [].
Proof. induction xs; simpl; auto. Qed.

(** The joined rows of a bill: one all-NULL row for a bill without lines,
    otherwise the rows of each of its lines in turn. *)
Lemma bill_rows_by_line (db : database) (b : Bill) :
  bill_rows db b
  = match lines_of db b with
    | [] => [(None, None)]
    | ls => flat_map (rows_of_line db) ls
    end.
Proof.
  unfold bill_rows, left_join at 2. simpl. rewrite app_nil_r. fold (lines_of db b).
  destruct (lines_of db b) as [|l0 ls0] eqn:Hls.
  - unfold left_join. simpl. rewrite filter_none. reflexivity.
  - clear Hls.
    match goal with
    | |- List.map ?F (left_join ?on _ _) = _ =>
        change (List.map F (left_join on (List.map (fun y => (b, Some y)) (l0 :: ls0))
                              (sublines db))
                = flat_map (rows_of_line db) (l0 :: ls0))
    end.
    generalize (l0 :: ls0) as ls. clear l0 ls0.
    induction ls as [|l ls IH]; [reflexivity |].
    cbn [List.map left_join flat_map] in *.
    rewrite List.map_app. f_equal; [| exact IH].
    unfold rows_of_line, sublines_of. cbn [snd].
    destruct (List.filter (fun s => line_id s =? line_pk l)%Z (sublines db)); simpl.
    + reflexivity.
    + rewrite List.map_map. reflexivity.
Qed.

Lemma rows_of_line_share (db : database) (l : BillLine) :
  Coalesce (Sum (List.map approx_total_term (rows_of_line db l))) 0
  == approx_line_share db l.
Proof.
  unfold rows_of_line, approx_line_share.
  destruct (sublines_of db l) as [|s ss].
  - simpl. ring.
  - rewrite <- Sum_Some, !List.map_map. reflexivity.
Qed.

(** What the annotation adds up: the share of each line of the bill. *)
Lemma approx_total_by_line (db : database) (b : Bill) :
  approx_total db b == Qsum (List.map (approx_line_share db) (lines_of db b)).
Proof.
  unfold approx_total. rewrite bill_rows_by_line.
  destruct (lines_of db b) as [|l0 ls0] eqn:Hls; [reflexivity |].
  rewrite flat_map_concat_map, concat_map, List.map_map, <- flat_map_concat_map.
  rewrite Sum_flat_map. apply Qsum_ext. intros l _. apply rows_of_line_share.
Qed.

(** A line with [k] sublines is charged its own subtotal [max k 1] times. *)
Lemma approx_line_share_excess (db : database) (l : BillLine) :
  approx_line_share db l
  == line_total db l
     + inject_Z (Z.of_nat (Nat.pred (length (sublines_of db l))))
       * (subtotal l * (1 + tax l / 100)).
Proof.
  unfold approx_line_share, line_total.
  set (rate := 1 + tax l / 100). set (st := subtotal l).
  destruct (sublines_of db l) as [|s ss]; [simpl; ring |].
  cbn [length Nat.pred]. revert s.
  induction ss as [|s' ss IH]; intros s.
  - simpl. ring.
  - specialize (IH s'). cbn [List.map Qsum fold_right length] in *.
    fold (Qsum (List.map (fun s0 => (st + total s0) * rate) ss)) in *.
    fold (Qsum (List.map total ss)) in *.
    rewrite IH. rewrite Nat2Z.inj_succ, <- Z.add_1_r, inject_Z_plus. ring.
Qed.

Lemma approx_line_share_single (db : database) (l : BillLine) :
  (length (sublines_of db l) <= 1)%nat ->
  approx_line_share db l == line_total db l.
Proof.
  intros Hk. rewrite approx_line_share_excess.
  replace (Nat.pred (length (sublines_of db l))) with 0%nat by lia.
  simpl. ring.
Qed.

(** While no line of the bill has more than one subline, the annotation is
    the unrounded total of the specification. *)
Lemma approx_total_exact_without_repeated_sublines (db : database) (b : Bill) :
  (forall l, In l (lines_of db b) -> (length (sublines_of db l) <= 1)%nat) ->
  approx_total db b == exact_total db b.
Proof.
  intros H. rewrite approx_total_by_line. unfold exact_total.
  apply Qsum_ext. intros l Hl. apply approx_line_share_single, H, Hl.
Qed.

(** The line listing aggregates the sublines first, and so gets every line
    right, whatever its number of sublines. *)
Lemma computed_total_line_total (db : database) (l : BillLine) :
  exists q, computed_total db l = Some q /\ q == line_total db l.
Proof.
  unfold computed_total, line_total, line_rows, left_join. simpl.
  rewrite app_nil_r. fold (sublines_of db l).
  destruct (sublines_of db l) as [|s ss]; simpl.
  - eexists. split; [reflexivity | ring].
  - rewrite !List.map_map. simpl. eexists. split; [reflexivity |].
    rewrite <- (Sum_Some (List.map total ss)), List.map_map. ring.
Qed.

(** With at most one subline the two values agree: 121.00 for one line of
    subtotal 100 and tax 21, and 133.10 once a subline of 10 is added. *)
Example totals_with_one_subline :
  let bill := {| pk := 1; number := "I0001"; is_open := true; amend_of_id := None |} in
  let line := {| line_pk := 10; bill_id := 1; subtotal := 100; tax := 21 |} in
  let plain := {| bills := [bill]; lines := [line]; sublines := [] |} in
  let corrected := {| bills := [bill]; lines := [line];
                      sublines := [ {| subline_pk := 100; line_id := 10; total := 10 |} ] |} in
  compute_total plain bill == 121 /\ approx_total plain bill == 121 /\
  compute_total corrected bill == 1331 # 10 /\ approx_total corrected bill == 1331 # 10.
Proof. repeat split; vm_compute; reflexivity. Qed.

(** C1: on a bill with one line of subtotal 100, tax 21 and two sublines
    of 10 and 5, the total shown is 139.15 = (100 + 15) * 1.21, while the
    value the column is sorted on is 260.15
    = (100 + 10) * 1.21 + (100 + 5) * 1.21: the line's subtotal is counted
    once per subline. *)
Theorem approx_total_differs_from_compute_total :
  let bill := {| pk := 1; number := "I0001"; is_open := true; amend_of_id := None |} in
  let db := {| bills := [bill];
               lines := [ {| line_pk := 10; bill_id := 1; subtotal := 100; tax := 21 |} ];
               sublines := [ {| subline_pk := 100; line_id := 10; total := 10 |};
                             {| subline_pk := 101; line_id := 10; total := 5 |} ] |} in
  exact_total db bill == 13915 # 100 /\
  fst (display_total "EUR" db bill) == 13915 # 100 /\
  display_total_admin_order_field db bill == 26015 # 100 /\
  ~ display_total_admin_order_field db bill == fst (display_total "EUR" db bill).
Proof.
  intros bill db. repeat split; try (vm_compute; reflexivity).
  intros H. vm_compute in H. discriminate.
Qed.

End BillTotalFacts.

(** ** Integer conversion *)

Section IntFacts.
Import Py.

Lemma rstrip_id s : ends_with_space s = false -> rstrip s = s.
Proof.
  induction s as [|c r IH]; simpl; [reflexivity |].
  destruct r as [|c' r'].
  - simpl. now intros ->.
  - intros H. now rewrite (IH H).
Qed.

Lemma digit_range c : is_digit c = true <-> (48 <= code c <= 57)%N.
Proof.
  unfold is_digit. rewrite andb_true_iff, !N.leb_le. reflexivity.
Qed.

Lemma digit_not_c_space c : is_digit c = true -> c_isspace c = false.
Proof.
  intros H. apply digit_range in H. unfold c_isspace.
  apply orb_false_iff. split; [apply andb_false_iff; right; apply N.leb_gt; lia |].
  apply N.eqb_neq. lia.
Qed.

Lemma uint_of_char_digit c d d' :
  uint_of_char c d = Some d' -> is_digit c = true.
Proof.
  destruct d as [d|]; [| discriminate].
  intros H. apply uint_of_char_spec in H.
  repeat (destruct H as [[-> _] | H]; [reflexivity |]).
  destruct H as [-> _]. reflexivity.
Qed.

Lemma uint_of_string_digits s d :
  NilEmpty.uint_of_string s = Some d -> all_chars is_digit s = true.
Proof.
  revert d. induction s as [|c r IH]; intros d H; [reflexivity |].
  simpl in *. destruct (NilEmpty.uint_of_string r) as [d'|] eqn:Hr.
  - rewrite (uint_of_char_digit _ _ _ H). now rewrite (IH d').
  - discriminate.
Qed.

(** A literal is either digits, or a minus sign before digits. *)
Lemma literal_value_shape s z :
  literal_value s = Some z ->
  exists c r, s = String c r /\
    ((c = "-"%char /\ r <> EmptyString /\ all_chars is_digit r = true /\
      option_map Z.opp (int_digits r) = Some z) \/
     (c <> "-"%char /\ all_chars is_digit s = true /\ int_digits s = Some z)).
Proof.
  unfold literal_value, NilZero.int_of_string, int_digits.
  destruct s as [|c r]; [discriminate |]. intros H. exists c, r. split; [reflexivity |].
  destruct (Ascii.eqb_spec c "-") as [->|Hc].
  - left. split; [reflexivity |].
    destruct (NilZero.uint_of_string r) as [u|] eqn:Hu; [| discriminate].
    destruct r as [|c' r']; [discriminate |].
    split; [discriminate |]. split.
    + apply (uint_of_string_digits _ u). exact Hu.
    + simpl in *. exact H.
  - right. split; [exact Hc |].
    destruct (NilZero.uint_of_string (String c r)) as [u|] eqn:Hu; [| discriminate].
    split; [apply (uint_of_string_digits _ u); exact Hu |].
    simpl in *. exact H.
Qed.

(** Digits only are scanned to their end. *)
Lemma scan_digits_all_digits s :
  all_chars is_digit s = true ->
  forall prev, s <> EmptyString \/ prev = true ->
  scan_digits prev s = Some (s, EmptyString).
Proof.
  induction s as [|c r IH]; intros Hd prev Hne.
  - destruct Hne as [Hne | ->]; [contradiction | reflexivity].
  - simpl in *. apply andb_true_iff in Hd as [Hc Hr]. rewrite Hc.
    rewrite (IH Hr true) by now right. reflexivity.
Qed.

Lemma skip_spaces_id s : (forall c r, s = String c r -> c_isspace c = false) ->
  skip_spaces s = s.
Proof.
  destruct s as [|c r]; [reflexivity |]. intros H. simpl. now rewrite (H c r eq_refl).
Qed.

(** The routine reads every decimal literal as the integer it denotes. *)
Lemma long_from_string_literal s z :
  literal_value s = Some z -> long_from_string s = Return z.
Proof.
  intros H. destruct (literal_value_shape s z H) as (c & r & -> & Hshape).
  unfold long_from_string.
  destruct Hshape as [(-> & Hr & Hd & Hv) | (Hc & Hd & Hv)].
  - simpl skip_spaces. simpl.
    rewrite (scan_digits_all_digits r Hd false) by now left.
    simpl. destruct (int_digits r) as [n|]; [| discriminate].
    simpl in Hv. now injection Hv as <-.
  - assert (Hdc : is_digit c = true).
    { simpl in Hd. now apply andb_true_iff in Hd as [Hdc _]. }
    rewrite skip_spaces_id.
    2:{ intros c0 r0 [= <- <-]. now apply digit_not_c_space. }
    destruct (Ascii.eqb_spec c "-") as [->|_]; [contradiction |].
    destruct (Ascii.eqb_spec c "+") as [->|_]; [discriminate |].
    rewrite (scan_digits_all_digits _ Hd false) by (left; discriminate).
    simpl skip_spaces. now rewrite Hv.
Qed.

(** The routine raises nothing but [ValueError]. *)
Lemma long_from_string_cases s :
  (exists z, long_from_string s = Return z) \/ long_from_string s = Raise ValueError.
Proof.
  unfold long_from_string.
  destruct (match skip_spaces s with
            | EmptyString => (false, skip_spaces s)
            | String c r =>
                if Ascii.eqb c "-" then (true, r)
                else if Ascii.eqb c "+" then (false, r) else (false, skip_spaces s)
            end) as [negative u].
  destruct (scan_digits false u) as [[digits rest]|]; [| now right].
  destruct (skip_spaces rest); [| now right].
  destruct (int_digits digits); [left; eauto | now right].
Qed.

Lemma mapM_raise {A} (f : A -> result Z) (cs : list A) c :
  (forall x, (exists z, f x = Return z) \/ f x = Raise ValueError) ->
  In c cs -> f c = Raise ValueError -> mapM f cs = Raise ValueError.
Proof.
  intros Hcases. induction cs as [|x cs IH]; intros Hin Hc; [contradiction |].
  simpl. destruct (Hcases x) as [[z Hz] | Hx].
  - rewrite Hz. simpl. destruct Hin as [->|Hin]; [congruence |].
    now rewrite (IH Hin Hc).
  - now rewrite Hx.
Qed.

Lemma mapM_Forall2 {A B} (f : A -> result B) (xs : list A) (ys : list B) :
  Forall2 (fun x y => f x = Return y) xs ys <-> mapM f xs = Return ys.
Proof.
  split.
  - induction 1 as [|x y xs ys Hxy _ IH]; [reflexivity |].
    simpl. rewrite Hxy. simpl. now rewrite IH.
  - revert ys. induction xs as [|x xs IH]; intros ys H; simpl in H.
    + injection H as <-. constructor.
    + destruct (f x) as [y|e] eqn:Hx; [| discriminate]. simpl in H.
      destruct (mapM f xs) as [ys'|e] eqn:Hxs; [| discriminate]. simpl in H.
      injection H as <-. constructor; [exact Hx | now apply IH].
Qed.

(** A failing traversal failed on one of its elements. *)
Lemma mapM_raise_inv {A B} (f : A -> result B) (xs : list A) e :
  mapM f xs = Raise e -> exists x, In x xs /\ f x = Raise e.
Proof.
  induction xs as [|x xs IH]; [discriminate |]. simpl.
  destruct (f x) as [y|e'] eqn:Hx; simpl.
  - destruct (mapM f xs) as [ys|e'] eqn:Hxs; [discriminate |]. simpl.
    intros [= ->]. destruct (IH eq_refl) as (x' & Hin & Hx').
    exists x'. split; [now right | exact Hx'].
  - intros [= ->]. exists x. split; [now left | exact Hx].
Qed.

(** ** Text that the routine rejects *)

Lemma skip_spaces_keeps s c :
  In c (list_ascii_of_string s) -> c_isspace c = false ->
  In c (list_ascii_of_string (skip_spaces s)).
Proof.
  induction s as [|a r IH]; simpl; [tauto |].
  intros [->|Hin] Hc.
  - rewrite Hc. now left.
  - destruct (c_isspace a); [now apply IH | now right].
Qed.

Lemma scan_digits_rest s : forall prev digits rest c,
  scan_digits prev s = Some (digits, rest) ->
  In c (list_ascii_of_string s) ->
  is_digit c = false -> Ascii.eqb c "_" = false ->
  In c (list_ascii_of_string rest).
Proof.
  induction s as [|a r IH]; intros prev digits rest c Hscan Hin Hd Hu; [contradiction |].
  simpl in Hscan. destruct (is_digit a) eqn:Ha.
  - destruct (scan_digits true r) as [[ds rs]|] eqn:Hr; [| discriminate].
    injection Hscan as <- <-. destruct Hin as [->|Hin]; [congruence |].
    exact (IH _ _ _ _ Hr Hin Hd Hu).
  - destruct (Ascii.eqb a "_") eqn:Hau.
    + destruct prev; [| discriminate].
      destruct Hin as [->|Hin]; [congruence |].
      exact (IH _ _ _ _ Hscan Hin Hd Hu).
    + destruct prev; [| discriminate]. injection Hscan as <- <-. exact Hin.
Qed.

(** A character that is neither a digit, a sign, an underscore nor white
    space of the C locale makes the routine fail. *)
Lemma long_from_string_foreign_char s c :
  In c (list_ascii_of_string s) ->
  is_digit c = false -> c_isspace c = false -> Ascii.eqb c "+" = false ->
  Ascii.eqb c "-" = false -> Ascii.eqb c "_" = false ->
  long_from_string s = Raise ValueError.
Proof.
  intros Hin Hd Hs Hplus Hminus Hu.
  pose proof (skip_spaces_keeps s c Hin Hs) as Ht.
  unfold long_from_string.
  destruct (skip_spaces s) as [|a r] eqn:Hskip; [contradiction |].
  assert (Hsign : (a = "-"%char \/ a = "+"%char) ->
            In c (list_ascii_of_string r)).
  { intros Ha. destruct Ht as [<-|Ht]; [| exact Ht].
    destruct Ha as [->| ->]; simpl in *; congruence. }
  assert (Hrest : forall u, In c (list_ascii_of_string u) ->
            forall digits rest, scan_digits false u = Some (digits, rest) ->
            exists a' r', skip_spaces rest = String a' r').
  { intros u Hcu digits rest Hscan.
    pose proof (scan_digits_rest _ _ _ _ _ Hscan Hcu Hd Hu) as Hcr.
    pose proof (skip_spaces_keeps _ _ Hcr Hs) as Hcs.
    destruct (skip_spaces rest) as [|a' r']; [contradiction | eauto]. }
  destruct (Ascii.eqb_spec a "-") as [Ha|_]; [| destruct (Ascii.eqb_spec a "+") as [Ha|_]].
  - destruct (scan_digits false r) as [[digits rest]|] eqn:Hscan; [| reflexivity].
    destruct (Hrest r (Hsign (or_introl Ha)) _ _ Hscan) as (a' & r' & ->). reflexivity.
  - destruct (scan_digits false r) as [[digits rest]|] eqn:Hscan; [| reflexivity].
    destruct (Hrest r (Hsign (or_intror Ha)) _ _ Hscan) as (a' & r' & ->). reflexivity.
  - destruct (scan_digits false (String a r)) as [[digits rest]|] eqn:Hscan; [| reflexivity].
    destruct (Hrest _ Ht _ _ Hscan) as (a' & r' & ->). reflexivity.
Qed.

Lemma skip_spaces_blank s : all_chars c_isspace s = true -> skip_spaces s = EmptyString.
Proof.
  induction s as [|c r IH]; simpl; [reflexivity |].
  intros H. apply andb_true_iff in H as [-> Hr]. now apply IH.
Qed.

(** An empty or blank text is no integer either. *)
Lemma long_from_string_blank s :
  all_chars c_isspace s = true -> long_from_string s = Raise ValueError.
Proof.
  intros H. unfold long_from_string. now rewrite (skip_spaces_blank s H).
Qed.

End IntFacts.

(** ** [int] on texts of any characters *)

Section TextIntFacts.
Import Py.
Variable decimal : N -> option N.

Lemma string_of_list_ascii_in l c :
  In c (list_ascii_of_string (string_of_list_ascii l)) <-> In c l.
Proof. now rewrite list_ascii_of_string_of_list_ascii. Qed.

Lemma of_string_round_trip s :
  string_of_list_ascii (List.map ascii_of_N (Str.of_string s)) = s.
Proof.
  unfold Str.of_string, code. rewrite List.map_map.
  rewrite (List.map_ext _ (fun c => c) ascii_N_embedding), List.map_id.
  apply string_of_list_ascii_of_string.
Qed.

(** [int] raises nothing but [ValueError]. *)
Lemma int_cases s :
  (exists z, Str.int decimal s = Return z) \/ Str.int decimal s = Raise ValueError.
Proof. apply long_from_string_cases. Qed.

(** [int] reads every decimal literal as the integer it denotes. *)
Lemma int_literal s z : Str.decimal_literal s = Some z -> Str.int decimal s = Return z.
Proof.
  unfold Str.decimal_literal, Str.int, Str.to_ascii.
  destruct (forallb (fun c => (c <? 128)%N) s); [| discriminate].
  apply long_from_string_literal.
Qed.

Lemma question_mark_foreign :
  is_digit "?" = false /\ c_isspace "?" = false /\ Ascii.eqb "?" "+" = false /\
  Ascii.eqb "?" "-" = false /\ Ascii.eqb "?" "_" = false.
Proof. repeat split. Qed.

Lemma transform_foreign s a :
  In a s -> Str.int_char decimal a = false ->
  long_from_string (Str.transform decimal s) = Raise ValueError.
Proof.
  intros Hin Ha.
  assert (H : exists b, In b (list_ascii_of_string (Str.transform decimal s)) /\
            is_digit b = false /\ c_isspace b = false /\ Ascii.eqb b "+" = false /\
            Ascii.eqb b "-" = false /\ Ascii.eqb b "_" = false).
  { induction s as [|c r IH]; [contradiction |]. simpl.
    destruct (c <? 127)%N eqn:Hc.
    - destruct Hin as [->|Hin].
      + exists (ascii_of_N a). split; [now left |].
        unfold Str.int_char in Ha. rewrite Hc in Ha. simpl in Ha.
        repeat (apply orb_false_iff in Ha as [Ha ?]). now repeat split.
      + destruct (IH Hin) as (b & Hb & Hf). exists b. split; [now right | exact Hf].
    - destruct (isspace c) eqn:Hsp.
      + destruct Hin as [->|Hin].
        * unfold Str.int_char in Ha. rewrite Hc, Hsp in Ha. discriminate.
        * destruct (IH Hin) as (b & Hb & Hf). exists b. split; [now right | exact Hf].
      + destruct (decimal c) as [d|] eqn:Hdec.
        * destruct Hin as [->|Hin].
          -- unfold Str.int_char in Ha. rewrite Hc, Hsp, Hdec in Ha. simpl in Ha.
             try rewrite bool_decide_eq_true_2 in Ha by eauto. discriminate.
          -- destruct (IH Hin) as (b & Hb & Hf). exists b. split; [now right | exact Hf].
        * exists "?"%char. split; [now left | exact question_mark_foreign]. }
  destruct H as (b & Hb & Hd & Hs & Hp & Hm & Hu).
  exact (long_from_string_foreign_char _ b Hb Hd Hs Hp Hm Hu).
Qed.

Lemma del_foreign :
  let a := ascii_of_N 127 in
  is_digit a = false /\ c_isspace a = false /\ Ascii.eqb a "+" = false /\
  Ascii.eqb a "-" = false /\ Ascii.eqb a "_" = false.
Proof. repeat split. Qed.

(** A character that no integer text holds makes the conversion fail:
    within ASCII anything but a digit, a sign, an underscore and the white
    space of the C locale, beyond ASCII anything but white space and
    decimal digits. *)
Lemma int_rejects_foreign_char s a :
  In a s -> Str.int_char decimal a = false -> Str.int decimal s = Raise ValueError.
Proof.
  intros Hin Ha. unfold Str.int, Str.to_ascii.
  destruct (forallb (fun c => (c <? 128)%N) s) eqn:Hascii; [| now apply (transform_foreign s a)].
  assert (Hb : In (ascii_of_N a)
                 (list_ascii_of_string (string_of_list_ascii (List.map ascii_of_N s)))).
  { apply string_of_list_ascii_in. now apply in_map. }
  destruct (a <? 127)%N eqn:Hlt.
  - unfold Str.int_char in Ha. rewrite Hlt in Ha. simpl in Ha.
    repeat (apply orb_false_iff in Ha as [Ha ?]).
    now apply (long_from_string_foreign_char _ (ascii_of_N a) Hb).
  - assert (a = 127%N) as ->.
    { rewrite forallb_forall in Hascii. specialize (Hascii a Hin).
      apply N.ltb_lt in Hascii. apply N.ltb_ge in Hlt. lia. }
    destruct del_foreign as (Hd & Hs & Hp & Hm & Hu).
    exact (long_from_string_foreign_char _ _ Hb Hd Hs Hp Hm Hu).
Qed.

Lemma ascii_space_c_isspace a :
  (a < 127)%N -> isspace a = true -> Str.int_char decimal a = true ->
  c_isspace (ascii_of_N a) = true.
Proof.
  intros Hlt Hsp Hic. apply isspace_white_space in Hsp.
  unfold Str.white_space in Hsp. simpl in Hsp.
  unfold Str.int_char in Hic. apply N.ltb_lt in Hlt. rewrite Hlt in Hic.
  apply N.ltb_lt in Hlt.
  repeat (destruct Hsp as [<-|Hsp]; [first [reflexivity | discriminate Hic | lia] |]).
  contradiction.
Qed.

Lemma transform_blank s :
  Str.all_space s = true -> (forall a, In a s -> Str.int_char decimal a = true) ->
  all_chars c_isspace (Str.transform decimal s) = true.
Proof.
  induction s as [|c r IH]; [reflexivity |]. simpl.
  intros H Hic. apply andb_true_iff in H as [Hc Hr].
  assert (IHr : all_chars c_isspace (Str.transform decimal r) = true).
  { apply IH; [exact Hr | intros a Ha; apply Hic; now right]. }
  destruct (c <? 127)%N eqn:Hlt.
  - simpl. rewrite IHr, andb_true_r.
    apply ascii_space_c_isspace; [now apply N.ltb_lt | exact Hc | apply Hic; now left].
  - rewrite Hc. simpl. exact IHr.
Qed.

Lemma ascii_blank s :
  Str.all_space s = true -> (forall a, In a s -> Str.int_char decimal a = true) ->
  forallb (fun c => (c <? 128)%N) s = true ->
  all_chars c_isspace (string_of_list_ascii (List.map ascii_of_N s)) = true.
Proof.
  induction s as [|c r IH]; [reflexivity |]. simpl.
  intros H Hic Hascii. apply andb_true_iff in H as [Hc Hr].
  apply andb_true_iff in Hascii as [Hlt Hascii].
  rewrite IH; [| exact Hr | intros a Ha; apply Hic; now right | exact Hascii].
  rewrite andb_true_r.
  destruct (c <? 127)%N eqn:Hlt'.
  - apply ascii_space_c_isspace; [now apply N.ltb_lt | exact Hc | apply Hic; now left].
  - exfalso. apply N.ltb_lt in Hlt. apply N.ltb_ge in Hlt'.
    assert (c = 127%N) as -> by lia. discriminate Hc.
Qed.

(** A text of white space only, the empty text among them, is no
    integer. *)
Lemma int_rejects_blank s : Str.all_space s = true -> Str.int decimal s = Raise ValueError.
Proof.
  intros H.
  destruct (forallb (Str.int_char decimal) s) eqn:Hall.
  - rewrite forallb_forall in Hall.
    unfold Str.int, Str.to_ascii.
    destruct (forallb (fun c => (c <? 128)%N) s) eqn:Hascii.
    + apply long_from_string_blank. now apply ascii_blank.
    + apply long_from_string_blank. now apply transform_blank.
  - assert (Hex : exists a, In a s /\ Str.int_char decimal a = false).
    { clear H. induction s as [|c r IH]; [discriminate |]. simpl in Hall.
      destruct (Str.int_char decimal c) eqn:Hc.
      - destruct (IH Hall) as (a & Ha & Hf). exists a. split; [now right | exact Hf].
      - exists c. split; [now left | exact Hc]. }
    destruct Hex as (a & Ha & Hf). exact (int_rejects_foreign_char s a Ha Hf).
Qed.

End TextIntFacts.

(** ** The bulk line manager *)

Section LineManagerFacts.
Import Py Bills.

Lemma split_nonempty sep s : Str.split sep s <> [].
Proof.
  destruct s as [|c r]; simpl; [discriminate |].
  destruct (c =? sep)%N; [discriminate |].
  destruct (Str.split sep r); discriminate.
Qed.

Lemma parse_bill_ids_nonempty decimal v ids :
  parse_bill_ids decimal v = Return ids -> ids <> [].
Proof.
  unfold parse_bill_ids. intros H. apply mapM_Forall2 in H.
  pose proof (split_nonempty Str.comma v) as Hne.
  destruct H; [contradiction | discriminate].
Qed.

Lemma parse_bill_ids_literals decimal v ids :
  Forall2 (fun c z => Str.decimal_literal c = Some z) (Str.split Str.comma v) ids ->
  parse_bill_ids decimal v = Return ids.
Proof.
  intros H. apply mapM_Forall2.
  induction H; constructor; [now apply int_literal | assumption].
Qed.

(** Parsing fails with [ValueError] only, and only on a component that
    [int] rejects. *)
Lemma parse_bill_ids_raise decimal v e :
  parse_bill_ids decimal v = Raise e ->
  e = ValueError /\
  exists c, In c (Str.split Str.comma v) /\ Str.int decimal c = Raise ValueError.
Proof.
  intros H. apply mapM_raise_inv in H as (c & Hin & Hc).
  destruct (int_cases decimal c) as [[z Hz] | Hv]; [congruence |].
  split; [congruence | eauto].
Qed.

Lemma manager_get_queryset_scoped db ids l :
  ids <> [] ->
  In l (manager_get_queryset db ids) <-> In l (lines db) /\ In (bill_id l) ids.
Proof.
  intros Hne. unfold manager_get_queryset.
  destruct ids as [|i ids]; [contradiction |].
  rewrite filter_In, existsb_exists. split.
  - intros [Hl (z & Hz & Heq)]. apply Z.eqb_eq in Heq. subst z. now split.
  - intros [Hl Hin]. split; [exact Hl |]. exists (bill_id l). split; [exact Hin |].
    apply Z.eqb_refl.
Qed.

Lemma some_selected_bill_closed_iff db ids :
  some_selected_bill_closed db ids = true
  <-> exists b, In b (bills db) /\ In (pk b) ids /\ is_open b = false.
Proof.
  unfold some_selected_bill_closed. rewrite existsb_exists. split.
  - intros (b & Hb & H). apply andb_true_iff in H as [Hsel Hclosed].
    apply existsb_exists in Hsel as (z & Hz & Heq). apply Z.eqb_eq in Heq. subst z.
    exists b. repeat split; try assumption. now destruct (is_open b).
  - intros (b & Hb & Hsel & Hclosed). exists b. split; [exact Hb |].
    apply andb_true_iff. split.
    + apply existsb_exists. exists (pk b). split; [exact Hsel | apply Z.eqb_refl].
    + now rewrite Hclosed.
Qed.

Lemma objects_get_unique db key bill :
  objects_get db key = Return bill ->
  In bill (bills db) /\ pk bill = key /\
  forall b, In b (bills db) -> pk b = key -> b = bill.
Proof.
  unfold objects_get.
  destruct (List.filter (fun b => pk b =? key) (bills db)) as [|b0 [|b1 rest]] eqn:Hf;
    try discriminate.
  intros [= <-].
  assert (Hin : In b0 (List.filter (fun b => pk b =? key) (bills db)))
    by (rewrite Hf; now left).
  apply filter_In in Hin as [Hin Hpk]. apply Z.eqb_eq in Hpk.
  repeat split; try assumption.
  intros b Hb Hkey.
  assert (Hbf : In b (List.filter (fun b => pk b =? key) (bills db))).
  { apply filter_In. split; [exact Hb | now apply Z.eqb_eq]. }
  rewrite Hf in Hbf. destruct Hbf as [->|[]]. reflexivity.
Qed.

(** Without a selection the view answers with the notice and a redirect. *)
Lemma changelist_view_no_selection decimal rev db old
    (GET : gmap string (list Str.str)) extra :
  GET !! "ids" = None \/ GET !! "ids" = Some [] ->
  changelist_view decimal rev db old GET extra
  = Return {| messages := [no_bills_selected]; answer := Redirect "..";
              self_bill_ids := old |}.
Proof. unfold changelist_view. now intros [-> | ->]. Qed.

(** A conversion error leaves the view as it is: nothing handles it. *)
Lemma changelist_view_parse_error decimal rev db old
    (GET : gmap string (list Str.str)) extra v rest e :
  GET !! "ids" = Some (v :: rest) ->
  parse_bill_ids decimal v = Raise e ->
  changelist_view decimal rev db old GET extra = Raise e.
Proof. intros HG Hp. unfold changelist_view. now rewrite HG, Hp. Qed.

(** The manager opened on a well-formed selection. *)
Lemma changelist_view_selection decimal rev db old
    (GET : gmap string (list Str.str)) extra v rest ids :
  GET !! "ids" = Some (v :: rest) ->
  parse_bill_ids decimal v = Return ids ->
  (length ids = 1%nat -> exists bill, objects_get db (List.hd 0 ids) = Return bill) ->
  exists o context,
    changelist_view decimal rev db old GET extra = Return o /\
    answer o = ChangeList context (delete "ids" GET) (manager_get_queryset db ids) /\
    self_bill_ids o = Some ids /\
    (forall m, In m (messages o) -> msg_level m = WARNING) /\
    ((exists m, In m (messages o))
       <-> exists b, In b (bills db) /\ In (pk b) ids /\ is_open b = false).
Proof.
  intros HG Hp Hone. unfold changelist_view. rewrite HG, Hp. simpl.
  destruct (Nat.eqb_spec (length ids) 1) as [Hlen|Hlen].
  - destruct (Hone Hlen) as [bill Hbill]. rewrite Hbill. simpl.
    destruct (objects_get_unique _ _ _ Hbill) as (Hin & Hpk & Huniq).
    destruct ids as [|i [|j ids]]; try discriminate. simpl in *.
    eexists. eexists. split; [reflexivity |]. simpl.
    split; [reflexivity |]. split; [reflexivity |].
    destruct (is_open bill) eqn:Hopen; simpl.
    + split; [tauto |]. split; [intros [_ []] |].
      intros (b & Hb & [Hsel|[]] & Hclosed).
      rewrite (Huniq b Hb (eq_sym Hsel)) in Hclosed. congruence.
    + split; [intros m [<-|[]]; reflexivity |].
      split; [| intros _; eexists; left; reflexivity].
      intros _. exists bill.
      split; [exact Hin | split; [left; symmetry; exact Hpk | exact Hopen]].
  - simpl. eexists. eexists. split; [reflexivity |]. simpl.
    split; [reflexivity |]. split; [reflexivity |].
    rewrite <- some_selected_bill_closed_iff.
    destruct (some_selected_bill_closed db ids); simpl.
    + split; [intros m [<-|[]]; reflexivity |].
      split; [reflexivity | intros _; eexists; left; reflexivity].
    + split; [tauto |]. split; [intros [_ []] | discriminate].
Qed.

(** ** Printing and reading back *)

Lemma literal_value_str_of_int z : literal_value (str_of_int z) = Some z.
Proof.
  unfold literal_value, str_of_int. rewrite NilZero.isi.
  - simpl. now rewrite DecimalZ.of_to.
  - destruct z as [|p|p]; simpl; try discriminate.
    intros [= H]. now apply (DecimalPos.Unsigned.to_uint_nonnil p).
  - destruct z as [|p|p]; simpl; try discriminate.
    intros [= H]. now apply (DecimalPos.Unsigned.to_uint_nonnil p).
Qed.

Lemma digit_no_comma c : is_digit c = true -> no_comma c = true.
Proof.
  unfold no_comma. destruct (Ascii.eqb_spec c ",") as [->|_]; [discriminate | reflexivity].
Qed.

Lemma all_chars_weaken (p q : ascii -> bool) s :
  (forall c, p c = true -> q c = true) -> all_chars p s = true -> all_chars q s = true.
Proof.
  intros Hpq. induction s as [|c r IH]; [reflexivity |]. simpl.
  intros H. apply andb_true_iff in H as [Hc Hr]. now rewrite (Hpq c Hc), IH.
Qed.

Lemma literal_no_comma s z : literal_value s = Some z -> all_chars no_comma s = true.
Proof.
  intros H. destruct (literal_value_shape s z H) as (c & r & -> & Hshape).
  destruct Hshape as [(-> & _ & Hd & _) | (_ & Hd & _)].
  - simpl. apply (all_chars_weaken is_digit); [exact digit_no_comma | exact Hd].
  - apply (all_chars_weaken is_digit); [exact digit_no_comma | exact Hd].
Qed.

Lemma split_no_comma s : all_chars no_comma s = true -> split "," s = [s].
Proof.
  induction s as [|c r IH]; [reflexivity |]. simpl. unfold no_comma at 1.
  intros H. apply andb_true_iff in H as [Hc Hr].
  destruct (Ascii.eqb c ","); [discriminate |]. now rewrite (IH Hr).
Qed.

Lemma split_app_comma s t :
  all_chars no_comma s = true ->
  split "," (s +:+ "," +:+ t) = s :: split "," t.
Proof.
  induction s as [|c r IH]; [reflexivity |]. simpl. unfold no_comma at 1.
  intros H. apply andb_true_iff in H as [Hc Hr].
  change (String c r +:+ "," +:+ t) with (String c (r +:+ "," +:+ t)).
  simpl. destruct (Ascii.eqb c ","); [discriminate |]. now rewrite (IH Hr).
Qed.

Lemma split_join cs :
  cs <> [] -> Forall (fun c => all_chars no_comma c = true) cs ->
  split "," (join "," cs) = cs.
Proof.
  intros Hne Hall. induction Hall as [|c cs Hc Hcs IH]; [contradiction |].
  destruct cs as [|c' cs'].
  - simpl. now apply split_no_comma.
  - change (join "," (c :: c' :: cs')) with (c +:+ "," +:+ join "," (c' :: cs')).
    rewrite (split_app_comma _ _ Hc), IH; [reflexivity | discriminate].
Qed.

(** Splitting the text of a [string] at the commas splits the [string]. *)
Lemma split_of_string s :
  Str.split Str.comma (Str.of_string s) = List.map Str.of_string (split "," s).
Proof.
  induction s as [|c r IH]; [reflexivity |].
  change (Str.of_string (String c r)) with (code c :: Str.of_string r).
  simpl. rewrite IH.
  assert (Hc : (code c =? Str.comma)%N = Ascii.eqb c ",").
  { destruct (Ascii.eqb_spec c ",") as [->|Hne]; [reflexivity |].
    apply N.eqb_neq. intros Heq. apply Hne.
    rewrite <- (ascii_N_embedding c). unfold code in Heq. now rewrite Heq. }
  rewrite Hc. destruct (Ascii.eqb c ","); [reflexivity |].
  destruct (split "," r); reflexivity.
Qed.

Lemma digit_ascii c : is_digit c = true -> (code c <? 128)%N = true.
Proof. intros H. apply digit_range in H. apply N.ltb_lt. lia. Qed.

Lemma all_digits_ascii s :
  all_chars is_digit s = true ->
  forallb (fun c => (c <? 128)%N) (Str.of_string s) = true.
Proof.
  induction s as [|c r IH]; [reflexivity |].
  intros H. simpl in H. apply andb_true_iff in H as [Hc Hr].
  change (Str.of_string (String c r)) with (code c :: Str.of_string r).
  cbn [forallb]. now rewrite (digit_ascii c Hc), IH.
Qed.

(** The text of a literal is a literal of the same value. *)
Lemma decimal_literal_of_string s z :
  literal_value s = Some z -> Str.decimal_literal (Str.of_string s) = Some z.
Proof.
  intros H. unfold Str.decimal_literal. rewrite of_string_round_trip, H.
  destruct (literal_value_shape s z H) as (c & r & -> & Hshape).
  destruct Hshape as [(-> & _ & Hd & _) | (_ & Hd & _)].
  - change (forallb (fun c => (c <? 128)%N) (Str.of_string (String "-" r)))
      with (forallb (fun c => (c <? 128)%N) (Str.of_string r)).
    now rewrite (all_digits_ascii r Hd).
  - now rewrite (all_digits_ascii _ Hd).
Qed.

(** The identifiers of a non-empty selection, printed and joined with
    commas, are read back as they were. *)
Lemma parse_bill_ids_round_trip decimal (ids : list Z) :
  ids <> [] ->
  parse_bill_ids decimal (Str.of_string (join "," (List.map str_of_int ids))) = Return ids.
Proof.
  intros Hne. apply parse_bill_ids_literals.
  rewrite split_of_string, split_join.
  - clear Hne. induction ids as [|z ids IH]; simpl; constructor; [| exact IH].
    apply decimal_literal_of_string, literal_value_str_of_int.
  - destruct ids; [contradiction | discriminate].
  - apply List.Forall_forall. intros c Hc. apply in_map_iff in Hc as (z & <- & _).
    apply (literal_no_comma _ z), literal_value_str_of_int.
Qed.

(** C8: the view does not treat an empty selection as the specification
    says when the parameter is there but empty.  For the request [?ids=],
    whose query holds the empty text under [ids], the view queues no
    notice and answers no redirect: it raises [ValueError], which nothing
    handles, whatever the rest of the request -- while the same request
    without the parameter gets the notice [No bills selected.] and the
    redirect to the previous screen. *)
Theorem line_manager_empty_ids_unhandled (decimal : N -> option N) (rev : Z -> string)
    (db : database) (old : option (list Z)) (GET : gmap string (list Str.str))
    (extra : option (gmap string string)) (rest : list Str.str) :
  GET !! "ids" = Some ([] :: rest) ->
  changelist_view decimal rev db old GET extra = Raise ValueError /\
  (forall o, changelist_view decimal rev db old GET extra <> Return o) /\
  changelist_view decimal rev db old (delete "ids" GET) extra
  = Return {| messages := [no_bills_selected]; answer := Redirect "..";
              self_bill_ids := old |}.
Proof.
  intros HG.
  assert (Hrun : changelist_view decimal rev db old GET extra = Raise ValueError).
  { apply (changelist_view_parse_error decimal rev db old GET extra [] rest _ HG).
    reflexivity. }
  split; [exact Hrun |]. split; [rewrite Hrun; discriminate |].
  apply changelist_view_no_selection. left. apply lookup_delete_eq.
Qed.

Lemma line_manager_empty_ids_unhandled_witness :
  let db := {| bills := [ {| pk := 1; number := "I0001"; is_open := true;
                             amend_of_id := None |} ];
               lines := []; sublines := [] |} in
  let GET : gmap string (list Str.str) :=
    {[ "ids" := [[]]; "account" := [Str.of_string "7"] ]} in
  changelist_view (fun _ => None) (fun _ => "/admin/bills/bill/1/") db None GET None
    = Raise ValueError /\
  changelist_view (fun _ => None) (fun _ => "/admin/bills/bill/1/") db None
    (delete "ids" GET) None
    = Return {| messages := [no_bills_selected]; answer := Redirect "..";
                self_bill_ids := None |}.
Proof.
  intros db GET.
  pose proof (line_manager_empty_ids_unhandled (fun _ => None)
                (fun _ => "/admin/bills/bill/1/") db None GET None [] eq_refl)
    as (Hraise & _ & Hnotice).
  split; [exact Hraise | exact Hnotice].
Defined.

(** C10: the selection is read without any check.  A value whose
    components are all decimal literals is parsed to the integers they
    denote; as soon as one component is not accepted by [int] -- it holds a
    character no integer text can hold, or it is empty or blank -- the view
    ends in an unhandled [ValueError]; parsing fails in no other way and
    with no other error; and the notice [No bills selected.] is queued
    only when the parameter is missing or holds no value. *)
Theorem line_manager_ids_unchecked (decimal : N -> option N) (rev : Z -> string)
    (db : database) (old : option (list Z)) (GET : gmap string (list Str.str))
    (extra : option (gmap string string)) :
  (forall v ids,
     Forall2 (fun c z => Str.decimal_literal c = Some z) (Str.split Str.comma v) ids ->
     parse_bill_ids decimal v = Return ids) /\
  (forall v rest c,
     GET !! "ids" = Some (v :: rest) ->
     In c (Str.split Str.comma v) ->
     Str.int decimal c = Raise ValueError \/
     (exists a, In a c /\ Str.int_char decimal a = false) \/
     Str.all_space c = true ->
     parse_bill_ids decimal v = Raise ValueError /\
     changelist_view decimal rev db old GET extra = Raise ValueError) /\
  (forall v e,
     parse_bill_ids decimal v = Raise e ->
     e = ValueError /\
     exists c, In c (Str.split Str.comma v) /\ Str.int decimal c = Raise ValueError) /\
  (forall o,
     changelist_view decimal rev db old GET extra = Return o ->
     In no_bills_selected (messages o) ->
     GET !! "ids" = None \/ GET !! "ids" = Some []).
Proof.
  split; [exact (parse_bill_ids_literals decimal) |]. split; [| split].
  - intros v rest c HG Hin Hbad.
    assert (Hc : Str.int decimal c = Raise ValueError).
    { destruct Hbad as [H | [(a & Ha & Hforeign) | Hblank]].
      - exact H.
      - exact (int_rejects_foreign_char decimal c a Ha Hforeign).
      - exact (int_rejects_blank decimal c Hblank). }
    assert (Hp : parse_bill_ids decimal v = Raise ValueError)
      by exact (mapM_raise _ _ c (int_cases decimal) Hin Hc).
    split; [exact Hp |].
    exact (changelist_view_parse_error decimal rev db old GET extra v rest _ HG Hp).
  - exact (parse_bill_ids_raise decimal).
  - intros o Hrun Hnotice.
    destruct (GET !! "ids") as [[|v rest]|] eqn:HG; [now right | | now left].
    exfalso. destruct (parse_bill_ids decimal v) as [ids|e] eqn:Hp.
    + unfold changelist_view in Hrun. rewrite HG, Hp in Hrun. simpl in Hrun.
      destruct (length ids =? 1)%nat.
      * destruct (objects_get db (List.hd 0 ids)) as [bill|e]; [| discriminate].
        simpl in Hrun. injection Hrun as <-. simpl in Hnotice.
        destruct (is_open bill); simpl in Hnotice;
          [contradiction | destruct Hnotice as [[=]|[]]].
      * simpl in Hrun. injection Hrun as <-. simpl in Hnotice.
        destruct (some_selected_bill_closed db ids); simpl in Hnotice;
          [destruct Hnotice as [[=]|[]] | contradiction].
    + rewrite (changelist_view_parse_error decimal rev db old GET extra v rest e HG Hp)
        in Hrun.
      discriminate.
Qed.

Lemma line_manager_ids_unchecked_witness :
  let db := {| bills := []; lines := []; sublines := [] |} in
  let arabic_indic := fun c : N =>
    if ((0x660 <=? c) && (c <=? 0x669))%N then Some (c - 0x660)%N else None in
  parse_bill_ids arabic_indic (Str.of_string "3,14,-15") = Return [3; 14; -15] /\
  changelist_view arabic_indic (fun _ => EmptyString) db None
    {[ "ids" := [Str.of_string "1,2x,3"] ]} None = Raise ValueError /\
  changelist_view arabic_indic (fun _ => EmptyString) db None
    {[ "ids" := [Str.of_string "1,,3"] ]} None = Raise ValueError /\
  parse_bill_ids arabic_indic ([0xA0; 0x661; 0x2003] ++ Str.of_string ", +1_0 ")%N
    = Return [1; 10] /\
  parse_bill_ids arabic_indic ([0x1F] ++ Str.of_string "1")%N = Raise ValueError.
Proof.
  intros db arabic_indic.
  pose proof (line_manager_ids_unchecked arabic_indic (fun _ => EmptyString) db None
                {[ "ids" := [Str.of_string "1,2x,3"] ]} None) as (Hgood & Hbad & _).
  pose proof (line_manager_ids_unchecked arabic_indic (fun _ => EmptyString) db None
                {[ "ids" := [Str.of_string "1,,3"] ]} None) as (_ & Hblank & _).
  split; [| split; [| split; [| split]]].
  - apply Hgood. repeat constructor.
  - refine (proj2 (Hbad (Str.of_string "1,2x,3") [] (Str.of_string "2x") _ _ _)).
    + reflexivity.
    + simpl. tauto.
    + right. left. exists 120%N. split; [simpl; tauto | reflexivity].
  - refine (proj2 (Hblank (Str.of_string "1,,3") [] [] _ _ _)).
    + reflexivity.
    + simpl. tauto.
    + right. right. reflexivity.
  - reflexivity.
  - reflexivity.
Defined.

End LineManagerFacts.

(** ** The listing annotations, in closed form *)

Section ListingFacts.
Import Py Bills BillAdmin.

Lemma Count_app {A} (xs ys : list (sql A)) : Count (xs ++ ys) = (Count xs + Count ys)%nat.
Proof. unfold Count. now rewrite List.filter_app, List.length_app. Qed.

Lemma Count_rows_of_line (db : database) (l : BillLine) :
  Count (List.map (fun row => option_map line_pk (fst row)) (rows_of_line db l))
  = Nat.max 1 (length (sublines_of db l)).
Proof.
  unfold rows_of_line. destruct (sublines_of db l) as [|s ss]; [reflexivity |].
  rewrite List.map_map. unfold Count.
  change (Nat.max 1 (length (s :: ss))) with (length (s :: ss)).
  generalize (s :: ss) as xs. intros xs.
  induction xs as [|x xs IH]; simpl; [reflexivity | now f_equal].
Qed.

(** X1: the line count shown in the bill listing ([num_lines]) is taken
    over the same join as the total, so it counts every line of the bill
    once per subline (and once when it has none); it is never less than the
    real number of lines. *)
Theorem lines_count_once_per_subline (db : database) (b : Bill) :
  lines__count db b
  = list_sum (List.map (fun l => Nat.max 1 (length (sublines_of db l))) (lines_of db b))
  /\ (length (lines_of db b) <= lines__count db b)%nat.
Proof.
  assert (Hcount : lines__count db b
    = list_sum (List.map (fun l => Nat.max 1 (length (sublines_of db l))) (lines_of db b))).
  { unfold lines__count. rewrite bill_rows_by_line.
    destruct (lines_of db b) as [|l0 ls0]; [reflexivity |].
    generalize (l0 :: ls0) as ls. intros ls.
    induction ls as [|l ls IH]; [reflexivity |].
    cbn [flat_map List.map list_sum]. rewrite List.map_app, Count_app.
    rewrite Count_rows_of_line. simpl list_sum. f_equal. exact IH. }
  split; [exact Hcount |]. rewrite Hcount. clear Hcount.
  induction (lines_of db b) as [|l ls IH]; [apply Nat.le_refl |].
  change (S (length ls)
          <= Nat.max 1 (length (sublines_of db l))
             + list_sum (List.map (fun l => Nat.max 1 (length (sublines_of db l))) ls))%nat.
  pose proof (Nat.le_max_l 1 (length (sublines_of db l))). lia.
Qed.

Local Open Scope Q_scope.

Lemma Qsum_plus {A} (f g : A -> Q) (xs : list A) :
  Qsum (List.map (fun x => f x + g x) xs) == Qsum (List.map f xs) + Qsum (List.map g xs).
Proof.
  induction xs as [|x xs IH]; simpl; [ring | rewrite IH; ring].
Qed.

(** X2: the value the bill listing sorts on, in closed form: every line
    contributes its sublines once and its own subtotal once per subline
    (once when it has none), all taxed at the line's rate. *)
Theorem approx_total_closed_form (db : database) (b : Bill) :
  approx_total db b
  == Qsum (List.map
             (fun l =>
                (inject_Z (Z.of_nat (Nat.max 1 (length (sublines_of db l)))) * subtotal l
                 + Qsum (List.map total (sublines_of db l)))
                * (1 + tax l / 100))
             (lines_of db b)).
Proof.
  rewrite approx_total_by_line. apply Qsum_ext. intros l _.
  rewrite approx_line_share_excess. unfold line_total.
  destruct (sublines_of db l) as [|s ss].
  - simpl. ring.
  - change (Nat.max 1 (length (s :: ss))) with (S (length ss)).
    cbn [length Nat.pred]. rewrite Nat2Z.inj_succ, <- Z.add_1_r, inject_Z_plus. ring.
Qed.

Lemma round2_comp (q q' : Q) : q == q' -> round2 q = round2 q'.
Proof.
  intros H. unfold round2, round_half_even.
  assert (H100 : q * 100 == q' * 100) by now rewrite H.
  rewrite (Qfloor_comp _ _ H100).
  assert (Hc : (q * 100 - inject_Z (Qfloor (q' * 100)) ?= 1 # 2)
             = (q' * 100 - inject_Z (Qfloor (q' * 100)) ?= 1 # 2)).
  { apply Qcompare_comp; [now rewrite H100 | reflexivity]. }
  now rewrite Hc.
Qed.

(** X3: the line listing aggregates the sublines before adding the line's
    subtotal: for every line, with any number of sublines, the computed
    total is [(subtotal + sum of subline totals) * (1 + tax/100)], never
    NULL, and the displayed total is that amount rounded to two places. *)
Theorem line_listing_total (db : database) (l : BillLine) :
  exists q,
    computed_total db l = Some q /\
    q == (subtotal l + Qsum (List.map total (sublines_of db l))) * (1 + tax l / 100) /\
    line_display_total db l
    = round2 ((subtotal l + Qsum (List.map total (sublines_of db l))) * (1 + tax l / 100)).
Proof.
  destruct (computed_total_line_total db l) as (q & Hq & Heq).
  exists q. split; [exact Hq |]. split; [exact Heq |].
  unfold line_display_total. rewrite Hq.
  destruct (Qeq_bool q 0) eqn:Hz.
  - apply Qeq_bool_eq in Hz. apply round2_comp. rewrite <- Hz. exact Heq.
  - apply round2_comp. exact Heq.
Qed.

Lemma Sum_option_map_Some (ss : list BillSubline) :
  Coalesce (Sum (List.map (option_map total) (List.map Some ss))) 0
  == Qsum (List.map total ss).
Proof. induction ss as [|s ss IH]; simpl; [reflexivity | now rewrite IH]. Qed.

(** X4: the subline column of the line listing is empty exactly when the
    subline totals of the line add up to zero, in particular when the line
    has no subline; otherwise it shows their sum. *)
Theorem subline_column (db : database) (l : BillLine) :
  (display_sublinetotal db l = None
     <-> Qsum (List.map total (sublines_of db l)) == 0) /\
  (forall q, display_sublinetotal db l = Some q ->
     q == Qsum (List.map total (sublines_of db l))).
Proof.
  assert (Hrows : line_rows db l
                  = match sublines_of db l with
                    | [] => [None]
                    | ss => List.map Some ss
                    end).
  { unfold line_rows, left_join. simpl. rewrite app_nil_r. fold (sublines_of db l).
    destruct (sublines_of db l) as [|s ss]; [reflexivity |].
    exact (List.map_map (fun y => (l, Some y)) snd (s :: ss)). }
  assert (Hsum : match subline_total db l with
                 | Some q => q == Qsum (List.map total (sublines_of db l))
                 | None => sublines_of db l = []
                 end).
  { unfold subline_total. rewrite Hrows.
    destruct (sublines_of db l) as [|s ss]; [reflexivity |].
    cbn [Sum List.map Qsum fold_right option_map].
    now rewrite Sum_option_map_Some. }
  unfold display_sublinetotal.
  destruct (subline_total db l) as [q|].
  - rename Hsum into Hq. destruct (Qeq_bool q 0) eqn:Hz.
    + apply Qeq_bool_eq in Hz. split; [| discriminate].
      split; [intros _; now rewrite <- Hq | reflexivity].
    + apply Qeq_bool_neq in Hz. split.
      * split; [discriminate |]. intros H0. exfalso. apply Hz. now rewrite Hq.
      * intros q' [= <-]. exact Hq.
  - rewrite Hsum. split; [| discriminate]. split; reflexivity.
Qed.

End ListingFacts.

(** ** What a bill's state opens and closes in the admin *)

Section BillGatingFacts.
Import Py PyMore Bills BillAdmin.

(** X5: once a bill is closed every field of [add_fields] is read-only and
    the editable line inline is never instantiated, while the read-only
    inline is kept; for an open bill, or when adding one, the inherited
    read-only fields are unchanged and the read-only inline is never
    instantiated.  With the inlines the class declares exactly one of the
    two remains. *)
Theorem closed_bill_is_read_only (super_fields : list string) (super_inlines : list inline)
    (obj : option Bill) :
  (is_closed obj = true ->
     (forall f, In f super_fields \/ In f add_fields ->
                In f (get_readonly_fields super_fields obj)) /\
     (forall i, In i (get_inline_instances super_inlines obj)
                <-> In i super_inlines /\ i <> BillLineInline) /\
     get_inline_instances inlines obj = [ClosedBillLineInline]) /\
  (is_closed obj = false ->
     get_readonly_fields super_fields obj = super_fields /\
     (forall i, In i (get_inline_instances super_inlines obj)
                <-> In i super_inlines /\ i <> ClosedBillLineInline) /\
     get_inline_instances inlines obj = [BillLineInline]).
Proof.
  unfold get_readonly_fields, get_inline_instances.
  split; intros ->.
  - split; [intros f Hf; apply in_or_app; exact Hf |].
    split; [| reflexivity].
    intros i. rewrite filter_In. split; intros [Hin Hne]; split; trivial.
    + intros ->. now rewrite bool_decide_eq_true_2 in Hne.
    + now rewrite bool_decide_eq_false_2.
  - split; [reflexivity |]. split; [| reflexivity].
    intros i. rewrite filter_In. split; intros [Hin Hne]; split; trivial.
    + intros ->. now rewrite bool_decide_eq_true_2 in Hne.
    + now rewrite bool_decide_eq_false_2.
Qed.

Lemma closed_bill_is_read_only_witness :
  let bill := {| pk := 7; number := "I0007"; is_open := false; amend_of_id := None |} in
  In "due_on" (get_readonly_fields ["number"; "display_total"] (Some bill)) /\
  get_inline_instances inlines (Some bill) = [ClosedBillLineInline].
Proof.
  intros bill.
  destruct (closed_bill_is_read_only ["number"; "display_total"] inlines (Some bill))
    as [Hclosed _].
  destruct Hclosed as (Hfields & _ & Hinl); [reflexivity |].
  split; [apply Hfields; right; simpl; tauto | exact Hinl].
Defined.

(** X6: for an existing bill [get_fieldsets] overwrites the third field of
    the first fieldset -- with [amend_of_link] when the bill amends
    another, with [amend_links] otherwise -- and leaves every other field,
    the title and the classes alone; an open bill gets that first fieldset
    only, a closed one all of them.  Without a first fieldset, or with
    fewer than three fields in it, the assignment raises [IndexError];
    when no bill is given the inherited fieldsets are returned as they
    are. *)
Theorem get_fieldsets_switches_third_field (first : fieldset) (rest : list fieldset)
    (b : Bill) :
  let name := if has_amend_of b then "amend_of_link" else "amend_links" in
  ((2 < length (fs_fields first))%nat ->
     exists first',
       get_fieldsets (first :: rest) (Some b)
         = Done (if is_open b then [first'] else first' :: rest) /\
       fs_title first' = fs_title first /\
       fs_classes first' = fs_classes first /\
       length (fs_fields first') = length (fs_fields first) /\
       fs_fields first' !! 2%nat = Some name /\
       forall i, i <> 2%nat -> fs_fields first' !! i = fs_fields first !! i) /\
  ((length (fs_fields first) <= 2)%nat ->
     get_fieldsets (first :: rest) (Some b) = Failed IndexError) /\
  get_fieldsets [] (Some b) = Failed IndexError /\
  get_fieldsets (first :: rest) None = Done (first :: rest).
Proof.
  intros name. split; [| split; [| split; reflexivity]].
  - intros Hlen. unfold get_fieldsets, list_item, list_set_item. simpl.
    destruct (Nat.ltb_spec 2 (length (fs_fields first))) as [_|Hge]; [| lia].
    simpl. eexists. split; [now destruct (is_open b) |]. simpl.
    split; [reflexivity |]. split; [reflexivity |].
    split; [apply length_insert |].
    split; [now apply list_lookup_insert_eq |].
    intros i Hi. apply list_lookup_insert_ne. congruence.
  - intros Hlen. unfold get_fieldsets, list_item, list_set_item. simpl.
    destruct (Nat.ltb_spec 2 (length (fs_fields first))) as [Hlt|_]; [lia | reflexivity].
Qed.

Lemma get_fieldsets_switches_third_field_witness :
  let amendment := {| pk := 9; number := EmptyString; is_open := true; amend_of_id := Some 7 |} in
  exists first',
    get_fieldsets fieldsets (Some amendment) = Done [first'] /\
    fs_fields first' !! 2%nat = Some "amend_of_link".
Proof.
  intros amendment.
  destruct (proj1 (get_fieldsets_switches_third_field
                     {| fs_title := None; fs_classes := [];
                        fs_fields := ["number"; "type"; "amend_of_link"; "account_link";
                                      "display_total"; "display_payment_state";
                                      "is_sent"; "comments"] |}
                     (List.tl fieldsets) amendment))
    as (first' & Hrun & _ & _ & _ & Hthird & _).
  - simpl. lia.
  - exists first'. split; [exact Hrun | exact Hthird].
Defined.

Lemma get_change_view_actions_app l1 l2 obj type_in_AMEND_MAP :
  get_change_view_actions (l1 ++ l2) obj type_in_AMEND_MAP
  = get_change_view_actions l1 obj type_in_AMEND_MAP
    ++ get_change_view_actions l2 obj type_in_AMEND_MAP.
Proof. unfold get_change_view_actions. apply List.filter_app. Qed.

(** X7: the actions offered on a bill's change page are the inherited
    ones, in their order, minus [close_bills] and
    [close_send_download_bills] once the bill is closed, and minus
    [amend_bills] when the bill's type has no amendment type; without a
    bill nothing is removed.  The order is kept because the actions are
    gone through one by one: what is offered of two lists put end to end
    is what is offered of the first, followed by what is offered of the
    second, and of a single action either that action or nothing. *)
Theorem change_view_actions_offered (super_actions : list string) (obj : option Bill)
    (type_in_AMEND_MAP : bool) (action : string) :
  let offered := fun actions => get_change_view_actions actions obj type_in_AMEND_MAP in
  let removed :=
    (is_closed obj = true /\
       (action = "close_bills" \/ action = "close_send_download_bills")) \/
    (obj <> None /\ type_in_AMEND_MAP = false /\ action = "amend_bills") in
  (In action (offered super_actions)
   <-> In action super_actions /\
       (is_closed obj = true ->
          action <> "close_bills" /\ action <> "close_send_download_bills") /\
       (obj <> None -> type_in_AMEND_MAP = false -> action <> "amend_bills")) /\
  get_change_view_actions super_actions None type_in_AMEND_MAP = super_actions /\
  (forall before after,
     offered (before ++ after) = offered before ++ offered after) /\
  (removed -> offered [action] = []) /\
  (~ removed -> offered [action] = [action]) /\
  (forall before after,
     super_actions = before ++ action :: after ->
     offered super_actions
     = offered before ++ (if decide removed then [] else [action]) ++ offered after) /\
  (is_closed obj = true -> type_in_AMEND_MAP = false ->
     offered change_view_actions
     = ["manage_lines"; "view_bill"; "download_bills"; "send_bills"]).
Proof.
  intros offered removed.
  assert (Hmem : forall l, In action (offered l)
            <-> In action l /\
                (is_closed obj = true ->
                   action <> "close_bills" /\ action <> "close_send_download_bills") /\
                (obj <> None -> type_in_AMEND_MAP = false -> action <> "amend_bills")).
  { intros l. unfold offered, get_change_view_actions. rewrite filter_In.
    destruct obj as [b|]; simpl.
    + destruct (is_open b), type_in_AMEND_MAP; simpl;
        repeat match goal with
               | |- context [String.eqb ?a ?b] => destruct (String.eqb_spec a b)
               end; subst; simpl; split;
        try (intros [Hin Hb]; (discriminate Hb || (split; [exact Hin |];
             split; intros; try discriminate; try split; congruence)));
        intros (Hin & Hc & Ha); split; try assumption; try reflexivity; exfalso;
        first [ now destruct (Hc eq_refl) | now apply Ha ].
    + split; [intros [Hin _] | intros (Hin & _)]; split; trivial.
      * split; [discriminate | congruence]. }
  assert (Hone : (removed -> offered [action] = []) /\
                 (~ removed -> offered [action] = [action])).
  { pose proof (Hmem [action]) as H.
    assert (Hcases : offered [action] = [] \/ offered [action] = [action]).
    { unfold offered, get_change_view_actions. simpl.
      match goal with |- context [if ?b then _ else _] => destruct b end; auto. }
    split.
    - intros Hrem. destruct Hcases as [Hc|Hc]; [exact Hc | exfalso].
      assert (Hin : In action (offered [action])) by (rewrite Hc; now left).
      apply H in Hin as (_ & Hclosed & Hamend).
      destruct Hrem as [(Hcl & Hname) | (Hobj & Htype & Hname)].
      + destruct (Hclosed Hcl) as [H1 H2]. destruct Hname; contradiction.
      + exact (Hamend Hobj Htype Hname).
    - intros Hkeep. destruct Hcases as [Hc|Hc]; [exfalso | exact Hc].
      assert (Hin : In action (offered [action])).
      { apply H. split; [now left |]. split.
        - intros Hcl. split; intros Hname; apply Hkeep; left; split; auto.
        - intros Hobj Htype Hname. apply Hkeep. right. auto. }
      rewrite Hc in Hin. contradiction. }
  split; [apply Hmem |].
  split.
  { unfold get_change_view_actions. simpl.
    induction super_actions as [|a l IH]; [reflexivity | simpl; now rewrite IH]. }
  split; [intros before after; apply get_change_view_actions_app |].
  split; [apply Hone |]. split; [apply Hone |].
  split.
  - intros before after ->. unfold offered.
    change (action :: after) with ([action] ++ after).
    rewrite !get_change_view_actions_app. f_equal. f_equal.
    destruct (decide removed) as [Hrem|Hkeep]; [now apply Hone | now apply Hone].
  - intros Hcl Htype. unfold offered. destruct obj as [b|]; [| discriminate].
    simpl in Hcl. subst type_in_AMEND_MAP.
    unfold get_change_view_actions. destruct (is_open b); [discriminate | reflexivity].
Qed.

(** X8: the payment state shown for a bill carries the star and the
    caution exactly when a closed bill amends it -- an amendment that is
    still open does not count; its colour is the one of the table, grey for
    a state the table does not list. *)
Theorem payment_state_stale_mark (reverse_change : Z -> string)
    (reverse_changelist : string) (db : database) (b : Bill) (transactions : list Z)
    (state : payment_state) (state_display : string) :
  let link := display_payment_state reverse_change reverse_changelist b transactions
                state state_display (closed_amends db b) in
  ((exists a, In a (bills db) /\ amend_of_id a = Some (pk b) /\ is_open a = false) ->
     link_name link = upper state_display +:+ "*" /\
     link_title link = "This bill has been amended, this value may not be valid.") /\
  ((forall a, In a (bills db) -> amend_of_id a = Some (pk b) -> is_open a = true) ->
     link_name link = upper state_display /\ link_title link = EmptyString) /\
  link_color link = match PAYMENT_STATE_COLORS state with
                    | Some colour => colour
                    | None => "grey"
                    end.
Proof.
  intros link. unfold link, display_payment_state. simpl.
  split; [| split; [| reflexivity]].
  - intros (a & Hin & Hamend & Hclosed).
    assert (Ha : In a (closed_amends db b)).
    { apply filter_In. split; [exact Hin |].
      rewrite bool_decide_eq_true_2 by exact Hamend. now rewrite Hclosed. }
    destruct (closed_amends db b); [contradiction | split; reflexivity].
  - intros Hopen. destruct (closed_amends db b) as [|a l] eqn:Hca; [split; reflexivity |].
    exfalso. assert (Ha : In a (closed_amends db b)) by (rewrite Hca; now left).
    apply filter_In in Ha as [Hin Hc]. apply andb_true_iff in Hc as [Hamend Hclosed].
    apply bool_decide_eq_true_1 in Hamend. rewrite (Hopen a Hin Hamend) in Hclosed.
    discriminate.
Qed.

Lemma payment_state_stale_mark_witness :
  let original := {| pk := 7; number := "I0007"; is_open := false; amend_of_id := None |} in
  let amendment := {| pk := 9; number := "A0001"; is_open := false;
                      amend_of_id := Some 7 |} in
  let db := {| bills := [original; amendment]; lines := []; sublines := [] |} in
  link_name (display_payment_state (fun _ => "/t/") "/ts/" original [] PAID "Paid"
               (closed_amends db original)) = "PAID*".
Proof.
  intros original amendment db.
  destruct (payment_state_stale_mark (fun _ => "/t/") "/ts/" db original [] PAID "Paid")
    as [Hstale _].
  destruct Hstale as [Hname _].
  - exists amendment. split; [right; left; reflexivity | split; reflexivity].
  - exact Hname.
Defined.

End BillGatingFacts.

(** ** The line manager's request, further *)

Section LineManagerRequestFacts.
Import Py Bills.

(** What a request that opened the manager was answered with. *)
Lemma changelist_view_opened decimal rev db old (GET : gmap string (list Str.str)) extra
    o context query shown :
  changelist_view decimal rev db old GET extra = Return o ->
  answer o = ChangeList context query shown ->
  exists v rest ids title,
    GET !! "ids" = Some (v :: rest) /\
    parse_bill_ids decimal v = Return ids /\
    context = default ∅ extra ∪ {[ "title" := title ]} /\
    query = delete "ids" GET /\
    shown = manager_get_queryset db ids /\
    self_bill_ids o = Some ids.
Proof.
  unfold changelist_view. intros Hrun Hanswer.
  destruct (GET !! "ids") as [[|v rest]|] eqn:HG.
  - injection Hrun as <-. discriminate.
  - destruct (parse_bill_ids decimal v) as [ids|e] eqn:Hp; [| discriminate].
    simpl in Hrun.
    destruct (length ids =? 1)%nat.
    + destruct (objects_get db (List.hd 0 ids)) as [bill|e]; [| discriminate].
      simpl in Hrun. injection Hrun as <-. simpl in Hanswer. injection Hanswer as <- <- <-.
      exists v, rest, ids. eexists. repeat split; try reflexivity; assumption.
    + simpl in Hrun. injection Hrun as <-. simpl in Hanswer. injection Hanswer as <- <- <-.
      exists v, rest, ids. eexists. repeat split; try reflexivity; assumption.
  - injection Hrun as <-. discriminate.
Qed.

(** X9: a selection written the way a list of integers prints -- decimal,
    joined by commas -- is read back exactly: for every non-empty list of
    bill ids (naming an existing bill when there is just one) the view
    opens the manager on the lines of those bills and remembers the very
    list. *)
Theorem line_manager_reads_printed_ids decimal rev (db : database) old
    (GET : gmap string (list Str.str)) extra (ids : list Z) (rest : list Str.str) :
  ids <> [] ->
  GET !! "ids" = Some (Str.of_string (join "," (List.map str_of_int ids)) :: rest) ->
  (length ids = 1%nat -> exists bill, objects_get db (List.hd 0 ids) = Return bill) ->
  exists o context,
    changelist_view decimal rev db old GET extra = Return o /\
    self_bill_ids o = Some ids /\
    answer o = ChangeList context (delete "ids" GET)
                 (List.filter (fun l => existsb (Z.eqb (bill_id l)) ids) (lines db)).
Proof.
  intros Hne HG Hone.
  destruct (changelist_view_selection decimal rev db old GET extra _ rest ids HG
              (parse_bill_ids_round_trip decimal ids Hne) Hone)
    as (o & context & Hrun & Hanswer & Hids & _).
  exists o, context. split; [exact Hrun |]. split; [exact Hids |].
  rewrite Hanswer. unfold manager_get_queryset.
  destruct ids; [contradiction | reflexivity].
Qed.

Lemma line_manager_reads_printed_ids_witness :
  let db := {| bills := []; lines := [ {| line_pk := 1; bill_id := 12; subtotal := 10; tax := 21 |};
                                        {| line_pk := 2; bill_id := 7; subtotal := 10; tax := 21 |} ];
               sublines := [] |} in
  let GET : gmap string (list Str.str) := {[ "ids" := [Str.of_string "12,-3"] ]} in
  exists o context,
    changelist_view (fun _ => None) (fun _ => EmptyString) db None GET None = Return o /\
    self_bill_ids o = Some [12; -3] /\
    answer o = ChangeList context (delete "ids" GET)
                 [ {| line_pk := 1; bill_id := 12; subtotal := 10; tax := 21 |} ].
Proof.
  intros db GET.
  apply (line_manager_reads_printed_ids (fun _ => None) (fun _ => EmptyString) db None
           GET None [12; -3] []).
  - discriminate.
  - reflexivity.
  - discriminate.
Defined.

(** X10: only the first value of [ids] is read -- further values of the
    parameter change nothing -- and the query the change list is built
    from is the request's query without [ids], every other parameter
    untouched. *)
Theorem line_manager_first_value_only decimal rev (db : database) old
    (GET : gmap string (list Str.str)) extra (v : Str.str) (rest rest' : list Str.str) :
  changelist_view decimal rev db old (<[ "ids" := v :: rest ]> GET) extra
  = changelist_view decimal rev db old (<[ "ids" := v :: rest' ]> GET) extra /\
  (forall o context query shown,
     changelist_view decimal rev db old GET extra = Return o ->
     answer o = ChangeList context query shown ->
     query !! "ids" = None /\
     forall key, key <> "ids" -> query !! key = GET !! key).
Proof.
  split.
  - unfold changelist_view. now rewrite !lookup_insert_eq, !delete_insert_eq.
  - intros o context query shown Hrun Hanswer.
    destruct (changelist_view_opened _ _ _ _ _ _ _ _ _ _ Hrun Hanswer)
      as (v0 & rest0 & ids0 & title & _ & _ & _ & Hquery & _).
    rewrite Hquery.
    split; [apply lookup_delete_eq |].
    intros key Hkey. apply lookup_delete_ne. congruence.
Qed.

(** X11: a lone selected id that no bill carries makes the view raise
    [DoesNotExist], which nothing handles; with two or more ids the view
    never raises, whether the bills exist or not. *)
Theorem line_manager_missing_bill decimal rev (db : database) old
    (GET : gmap string (list Str.str)) extra (v : Str.str) (rest : list Str.str)
    (ids : list Z) :
  GET !! "ids" = Some (v :: rest) ->
  parse_bill_ids decimal v = Return ids ->
  (forall i, ids = [i] -> (forall b, In b (bills db) -> pk b <> i) ->
     changelist_view decimal rev db old GET extra = Raise DoesNotExist) /\
  (length ids <> 1%nat ->
     exists o, changelist_view decimal rev db old GET extra = Return o).
Proof.
  intros HG Hp. unfold changelist_view. rewrite HG, Hp. simpl. split.
  - intros i -> Hnone. simpl. unfold objects_get.
    assert (Hf : List.filter (fun b => pk b =? i) (bills db) = []).
    { induction (bills db) as [|b bs IH]; [reflexivity |]. simpl.
      destruct (Z.eqb_spec (pk b) i) as [Heq|_].
      - exfalso. apply (Hnone b); [now left | exact Heq].
      - apply IH. intros b' Hb'. apply Hnone. now right. }
    now rewrite Hf.
  - intros Hlen. destruct (Nat.eqb_spec (length ids) 1) as [|_]; [contradiction |].
    simpl. eauto.
Qed.

Lemma line_manager_missing_bill_witness :
  let db := {| bills := []; lines := []; sublines := [] |} in
  changelist_view (fun _ => None) (fun _ => EmptyString) db None
    {[ "ids" := [Str.of_string "5"] ]} None
    = Raise DoesNotExist /\
  exists o, changelist_view (fun _ => None) (fun _ => EmptyString) db None
              {[ "ids" := [Str.of_string "5,6"] ]} None
            = Return o.
Proof.
  intros db. split.
  - refine (proj1 (line_manager_missing_bill (fun _ => None) (fun _ => EmptyString) db None
                     {[ "ids" := [Str.of_string "5"] ]} None (Str.of_string "5") [] [5]
                     _ _) 5 _ _).
    + reflexivity.
    + reflexivity.
    + reflexivity.
    + intros b [].
  - refine (proj2 (line_manager_missing_bill (fun _ => None) (fun _ => EmptyString) db None
                     {[ "ids" := [Str.of_string "5,6"] ]} None (Str.of_string "5,6") []
                     [5; 6] _ _) _).
    + reflexivity.
    + reflexivity.
    + discriminate.
Defined.

(** X12: the page context of the manager is the caller's [extra_context]
    completed with the title: every entry the caller passes is kept -- a
    [title] of the caller replaces the view's own -- and a title is always
    there. *)
Theorem line_manager_context decimal rev (db : database) old
    (GET : gmap string (list Str.str)) (extra : option (gmap string string))
    o context query shown :
  changelist_view decimal rev db old GET extra = Return o ->
  answer o = ChangeList context query shown ->
  (forall e key text, extra = Some e -> e !! key = Some text ->
     context !! key = Some text) /\
  is_Some (context !! "title") /\
  (forall key, key <> "title" -> context !! key = default ∅ extra !! key).
Proof.
  intros Hrun Hanswer.
  destruct (changelist_view_opened _ _ _ _ _ _ _ _ _ _ Hrun Hanswer)
    as (v0 & rest0 & ids0 & title & _ & _ & Hcontext & _).
  rewrite Hcontext.
  split; [| split].
  - intros e key text -> Hkey. simpl. now apply lookup_union_Some_l.
  - destruct (default ∅ extra !! "title") as [t|] eqn:Ht.
    + exists t. now apply lookup_union_Some_l.
    + exists title. rewrite lookup_union_r by exact Ht. apply lookup_singleton_eq.
  - intros key Hkey. rewrite lookup_union.
    rewrite lookup_singleton_ne by congruence.
    now destruct (default ∅ extra !! key).
Qed.

Lemma line_manager_context_witness :
  let db := {| bills := []; lines := []; sublines := [] |} in
  let extra : gmap string string := {[ "title" := "Lines"; "opts" := "x" ]} in
  exists o context query shown,
    changelist_view (fun _ => None) (fun _ => EmptyString) db None
      {[ "ids" := [Str.of_string "5,6"] ]} (Some extra)
      = Return o /\
    answer o = ChangeList context query shown /\
    context !! "title" = Some "Lines".
Proof.
  intros db extra.
  destruct (changelist_view (fun _ => None) (fun _ => EmptyString) db None
              {[ "ids" := [Str.of_string "5,6"] ]}
              (Some extra)) as [o|e] eqn:Hrun; [| vm_compute in Hrun; discriminate].
  destruct (answer o) as [to|context query shown] eqn:Hanswer.
  - exfalso. vm_compute in Hrun. injection Hrun as <-. discriminate.
  - exists o, context, query, shown. split; [reflexivity |]. split; [exact Hanswer |].
    apply (proj1 (line_manager_context (fun _ => None) (fun _ => EmptyString) db None
                    {[ "ids" := [Str.of_string "5,6"] ]} (Some extra) o context query shown
                    Hrun Hanswer) extra "title" "Lines"); reflexivity.
Defined.

End LineManagerRequestFacts.

(** ** Forms, further *)

Section MoreFormFacts.
Import Py Forms UserForms.

Lemma filter_absent {A} `{EqDecision A} (x : A) (l : list A) :
  (forall y, In y l -> y <> x) ->
  List.filter (fun y => bool_decide (y = x)) l = [].
Proof.
  induction l as [|y l IH]; intros H; [reflexivity |]. simpl.
  rewrite bool_decide_eq_false_2 by (apply H; now left).
  apply IH. intros z Hz. apply H. now right.
Qed.

Lemma filter_unique {A} `{EqDecision A} (x : A) (l : list A) :
  List.NoDup l -> In x l -> List.filter (fun y => bool_decide (y = x)) l = [x].
Proof.
  induction 1 as [|y l Hy Hnd IH]; intros Hin; [contradiction |]. simpl.
  destruct (decide (y = x)) as [->|Hne].
  - rewrite bool_decide_eq_true_2 by reflexivity. f_equal.
    apply filter_absent. intros z Hz ->. contradiction.
  - rewrite bool_decide_eq_false_2 by exact Hne.
    apply IH. destruct Hin as [?|?]; [contradiction | assumption].
Qed.

(** X13: [clean_username] returns a user name nobody has yet.  For a name
    already taken it looks the message up under [duplicate_username]: the
    form's own [error_messages] holds [password_mismatch] only, so the
    lookup raises [KeyError] and no validation error is produced; a class
    that supplies the message gets the validation error with it. *)
Theorem clean_username_duplicate (users : list value) (cleaned_data : gmap string value)
    (username : value) :
  cleaned_data !! "username" = Some username ->
  ((forall u, In u users -> u <> username) ->
     forall messages, clean_username messages users cleaned_data = Return username) /\
  (List.NoDup users -> In username users ->
     clean_username error_messages users cleaned_data
       = Raise (KeyError "duplicate_username") /\
     forall messages text, messages !! "duplicate_username" = Some text ->
       clean_username messages users cleaned_data
       = Raise (ValidationError EmptyString text)).
Proof.
  intros Hname. unfold clean_username, dict_item, default_manager_get.
  rewrite Hname. simpl. split.
  - intros Hfree messages. now rewrite (filter_absent username users Hfree).
  - intros Hnd Hin. rewrite (filter_unique username users Hnd Hin).
    split; [reflexivity |]. intros messages text Htext. now rewrite Htext.
Qed.

Lemma clean_username_duplicate_witness :
  clean_username error_messages [PStr "alice"; PStr "bob"]
    {[ "username" := PStr "bob" ]} = Raise (KeyError "duplicate_username") /\
  clean_username error_messages [PStr "alice"; PStr "bob"]
    {[ "username" := PStr "carol" ]} = Return (PStr "carol").
Proof.
  split.
  - refine (proj1 (proj2 (clean_username_duplicate [PStr "alice"; PStr "bob"]
                            {[ "username" := PStr "bob" ]} (PStr "bob") _) _ _)).
    + reflexivity.
    + repeat constructor; simpl; intuition discriminate.
    + simpl. tauto.
  - refine (proj1 (clean_username_duplicate [PStr "alice"; PStr "bob"]
                     {[ "username" := PStr "carol" ]} (PStr "carol") _) _ error_messages).
    + reflexivity.
    + intros u [<-|[<-|[]]]; discriminate.
Defined.

(** X14: [UserCreationForm.save] never keeps the password as submitted: for
    a form without errors it hands back the user with the hash of
    [password1] as password, every other attribute as it was, and writes
    that user to the store exactly when [commit] holds.  A form with errors
    makes it raise [ValueError], and a missing [password1] makes it raise
    [KeyError]; in both cases nothing is stored. *)
Theorem creation_form_stores_hash (make_password : string -> string)
    (cleaned_data : gmap string value) (errors : gmap string (list string))
    (user : instance) (commit : bool) (store : option instance) :
  (forall raw, errors = ∅ -> cleaned_data !! "password1" = Some (PStr raw) ->
     exists saved,
       UserCreationForm_save make_password cleaned_data errors user commit store
         = Return (saved, if commit then Some saved else store) /\
       attrs saved !! "password" = Some (PStr (make_password raw)) /\
       (forall key, key <> "password" -> attrs saved !! key = attrs user !! key) /\
       data saved = data user) /\
  (errors <> ∅ ->
     UserCreationForm_save make_password cleaned_data errors user commit store
       = Raise ValueError) /\
  (errors = ∅ -> cleaned_data !! "password1" = None ->
     UserCreationForm_save make_password cleaned_data errors user commit store
       = Raise (KeyError "password1")).
Proof.
  unfold UserCreationForm_save, ModelForm_save, dict_item. split; [| split].
  - intros raw -> Hpw. rewrite decide_True by reflexivity. simpl. rewrite Hpw. simpl.
    eexists. split; [reflexivity |]. simpl.
    split; [apply lookup_insert_eq |]. split; [| reflexivity].
    intros key Hkey. apply lookup_insert_ne. congruence.
  - intros Herr. now rewrite decide_False by exact Herr.
  - intros -> Hpw. rewrite decide_True by reflexivity. simpl. now rewrite Hpw.
Qed.

Lemma creation_form_stores_hash_witness :
  exists saved,
    UserCreationForm_save (fun s => "sha1$" +:+ s)
      {[ "password1" := PStr "s3cret!Ab"; "password2" := PStr "s3cret!Ab" ]} ∅
      {| attrs := {[ "username" := PStr "carol" ]}; data := ∅ |} true None
      = Return (saved, Some saved) /\
    attrs saved !! "password" = Some (PStr "sha1$s3cret!Ab").
Proof.
  destruct (proj1 (creation_form_stores_hash (fun s => "sha1$" +:+ s)
              {[ "password1" := PStr "s3cret!Ab"; "password2" := PStr "s3cret!Ab" ]} ∅
              {| attrs := {[ "username" := PStr "carol" ]}; data := ∅ |} true None)
              "s3cret!Ab") as (saved & Hsave & Hpw & _).
  - reflexivity.
  - reflexivity.
  - exists saved. split; assumption.
Defined.

Lemma collect_declared_first_missing (cleaned_data : gmap string value)
    (names : list string) name :
  name ∈ names -> cleaned_data !! name = None ->
  exists key, collect_declared cleaned_data names = Raise (KeyError key) /\
              key ∈ names /\ cleaned_data !! key = None.
Proof.
  induction names as [|x names IH]; intros Hin Hnone; [inversion Hin |].
  simpl. unfold dict_item.
  destruct (cleaned_data !! x) as [v|] eqn:Hx; simpl.
  - apply elem_of_cons in Hin as [->|Hin]; [congruence |].
    destruct (IH Hin Hnone) as (key & -> & Hkey & Hk). simpl.
    exists key. split; [reflexivity |]. split; [now right | exact Hk].
  - exists x. split; [reflexivity |]. split; [left | exact Hx].
Qed.

(** X15: [PluginDataForm.save] stores nothing it cannot re-derive: when a
    declared field has no cleaned value the call raises [KeyError] for such
    a field, and when the form carries errors it raises [ValueError]; in
    both cases no instance is returned or stored.  What it saves does not
    depend on the blob the record held before. *)
Theorem plugin_form_save_failures (form : PluginDataForm) (commit : bool)
    (store : option instance) :
  (forall name, name ∈ declared_fields form -> cleaned_data form !! name = None ->
     exists key, PluginDataForm_save form commit store = Raise (KeyError key) /\
                 key ∈ declared_fields form /\ cleaned_data form !! key = None) /\
  ((forall name, name ∈ declared_fields form -> is_Some (cleaned_data form !! name)) ->
   errors form <> ∅ ->
     PluginDataForm_save form commit store = Raise ValueError) /\
  (forall old_blob,
     PluginDataForm_save
       {| plugin_field := plugin_field form; plugin_name := plugin_name form;
          declared_fields := declared_fields form; fields := fields form;
          cleaned_data := cleaned_data form; errors := errors form;
          form_instance := {| attrs := attrs (form_instance form); data := old_blob |} |}
       commit store
     = PluginDataForm_save form commit store).
Proof.
  split; [| split].
  - intros name Hin Hnone.
    destruct (collect_declared_first_missing _ _ _ Hin Hnone) as (key & Hrun & Hkey & Hk).
    exists key. unfold PluginDataForm_save. rewrite Hrun. repeat split; assumption.
  - intros Hall Herr.
    destruct (collect_declared_spec _ _ Hall) as (blob & Hrun & _).
    unfold PluginDataForm_save, ModelForm_save. rewrite Hrun. simpl.
    now rewrite decide_False by exact Herr.
  - intros old_blob. reflexivity.
Qed.

Lemma plugin_form_save_failures_witness :
  exists key,
    PluginDataForm_save
      {| plugin_field := "type"; plugin_name := "php";
         declared_fields := ["version"; "timeout"]; fields := ∅;
         cleaned_data := {[ "version" := PStr "5.4" ]}; errors := ∅;
         form_instance := {| attrs := ∅; data := ∅ |} |} true None
    = Raise (KeyError key) /\ key = "timeout".
Proof.
  destruct (proj1 (plugin_form_save_failures
              {| plugin_field := "type"; plugin_name := "php";
                 declared_fields := ["version"; "timeout"]; fields := ∅;
                 cleaned_data := {[ "version" := PStr "5.4" ]}; errors := ∅;
                 form_instance := {| attrs := ∅; data := ∅ |} |} true None)
              "timeout") as (key & Hrun & _).
  - right. left.
  - reflexivity.
  - exists key. split; [exact Hrun |].
    vm_compute in Hrun. now injection Hrun as <-.
Defined.

Lemma seed_initials_present (inst : instance) (names : list string) :
  forall fields fields' : gmap string field,
    seed_initials inst names fields = Return fields' ->
    forall name, name ∈ names -> is_Some (fields !! name).
Proof.
  induction names as [|x names IH]; intros fields fields' Hrun name Hin;
    [inversion Hin |].
  simpl in Hrun. unfold seed_initial in Hrun.
  destruct (fields !! x) as [f|] eqn:Hx; [| discriminate]. simpl in Hrun.
  apply elem_of_cons in Hin as [->|Hin]; [eauto |].
  specialize (IH _ _ Hrun name Hin).
  destruct (decide (x = name)) as [<-|Hne]; [eauto |].
  now rewrite lookup_insert_ne in IH by exact Hne.
Qed.

Lemma seed_initials_missing (inst : instance) (names : list string) name :
  forall fields : gmap string field,
    name ∈ names -> fields !! name = None ->
    exists key, seed_initials inst names fields = Raise (KeyError key).
Proof.
  intros fields Hin Hnone.
  destruct (seed_initials inst names fields) as [fields'|e] eqn:Hrun.
  - destruct (seed_initials_present _ _ _ _ Hrun name Hin) as [f Hf]. congruence.
  - revert fields Hnone Hrun. clear Hin.
    induction names as [|x names IH]; intros fields Hnone Hrun; [discriminate |].
    simpl in Hrun. unfold seed_initial in Hrun.
    destruct (fields !! x) as [f|] eqn:Hx; simpl in Hrun.
    + destruct (decide (x = name)) as [->|Hne]; [congruence |].
      apply (IH (<[x := seeded inst x f]> fields)); [| exact Hrun].
      now rewrite lookup_insert_ne.
    + injection Hrun as <-. eauto.
Qed.

(** X16: constructing a plugin form hides the plugin selector and nothing
    else: every field keeps its widget except the plugin field, whose
    widget becomes hidden; a field that is not declared keeps its initial
    value, and without an instance every field does; the form works on the
    instance given, or on the fresh one.  A declared field that the form
    does not have makes construction on an instance raise [KeyError]. *)
Theorem plugin_form_init_effects (plugin_field plugin_name : string)
    (declared : list string) (base_fields : gmap string field)
    (new_instance : instance) (kwargs_instance : option instance) :
  (forall form,
     PluginDataForm_init plugin_field plugin_name declared base_fields
       new_instance kwargs_instance = Return form ->
     form_instance form = default new_instance kwargs_instance /\
     (forall name,
        Forms.field_widget <$> fields form !! name
        = (fun f => if decide (name = plugin_field) then HiddenInput
                    else Forms.field_widget f) <$> base_fields !! name) /\
     (forall name, name ∉ declared \/ kwargs_instance = None ->
        initial <$> fields form !! name = initial <$> base_fields !! name)) /\
  (forall inst name,
     kwargs_instance = Some inst -> name ∈ declared -> base_fields !! name = None ->
     exists key,
       PluginDataForm_init plugin_field plugin_name declared base_fields
         new_instance kwargs_instance = Raise (KeyError key)).
Proof.
  unfold PluginDataForm_init.
  set (hidden := match base_fields !! plugin_field with
                 | Some f => _ | None => _ end).
  assert (Hwidget : forall name,
            Forms.field_widget <$> hidden !! name
            = (fun f => if decide (name = plugin_field) then HiddenInput
                        else Forms.field_widget f) <$> base_fields !! name).
  { intros name. unfold hidden.
    destruct (base_fields !! plugin_field) as [f|] eqn:Hf.
    - destruct (decide (name = plugin_field)) as [->|Hne].
      + now rewrite lookup_insert_eq, Hf.
      + rewrite lookup_insert_ne by congruence.
        now destruct (base_fields !! name).
    - destruct (decide (name = plugin_field)) as [->|Hne]; [now rewrite Hf |].
      now destruct (base_fields !! name). }
  pose proof (hidden_plugin_field_initial base_fields plugin_field) as Hinitial.
  fold hidden in Hinitial.
  split.
  - intros form Hrun. destruct kwargs_instance as [inst|]; simpl in Hrun.
    + destruct (seed_initials inst declared hidden) as [fields'|e] eqn:Hseed;
        [| discriminate].
      simpl in Hrun. injection Hrun as <-. simpl.
      destruct (seed_initials_spec inst declared hidden
                  (seed_initials_present _ _ _ _ Hseed)) as (fields'' & Hrun' & Hlook).
      rewrite Hseed in Hrun'. injection Hrun' as <-.
      split; [reflexivity |]. split.
      * intros name. rewrite Hlook, <- Hwidget.
        destruct (decide (name ∈ declared)); [| reflexivity].
        now destruct (hidden !! name).
      * intros name [Hnot | [=]]. rewrite Hlook, <- Hinitial.
        now destruct (decide (name ∈ declared)).
    + injection Hrun as <-. simpl. split; [reflexivity |].
      split; [exact Hwidget | intros name _; apply Hinitial].
  - intros inst name -> Hin Hnone.
    destruct (seed_initials_missing inst declared name hidden Hin) as [key Hkey].
    + specialize (Hinitial name). rewrite Hnone in Hinitial.
      now destruct (hidden !! name).
    + exists key. now rewrite Hkey.
Qed.

End MoreFormFacts.

(** ** Mailer, further *)

Section MoreMailerFacts.
Import Py Str Mail.

(** X17: the mailer never replaces a [site] entry the caller put in the
    context; when there is none it adds the deployment's site name with the
    scheme and domain of its URL; no other entry of the context changes.
    Subject, body and HTML body are all rendered with that one context. *)
Theorem mailer_site_context
    (render_to_string : string -> pass -> gmap string ctxval -> str)
    (site_name scheme netloc default_from template : string)
    (context : gmap string ctxval)
    (to : recipients) (email_from html : option string) (attachments : list string) :
  let context' := with_site site_name scheme netloc context in
  let msg := send_email_template render_to_string site_name scheme netloc default_from
               template context to email_from html attachments in
  (forall site, context !! "site" = Some site -> context' = context) /\
  (context !! "site" = None ->
     context' !! "site" = Some (CSite site_name scheme netloc)) /\
  (forall key, key <> "site" -> context' !! key = context !! key) /\
  subject msg = strip (render_to_string template SubjectPass context') /\
  body msg = strip (render_to_string template MessagePass context') /\
  (forall name content mimetype,
     html = Some name -> In (content, mimetype) (alternatives msg) ->
     content = render_to_string name MessagePass context').
Proof.
  intros context' msg. unfold context', with_site.
  split; [intros site Hsite; now rewrite Hsite |].
  split; [intros Hnone; rewrite Hnone; apply lookup_insert_eq |].
  split.
  { intros key Hkey. destruct (context !! "site"); [reflexivity |].
    apply lookup_insert_ne. congruence. }
  unfold msg, send_email_template. fold (with_site site_name scheme netloc context).
  destruct (html_given html) eqn:Hgiven; simpl.
  - split; [reflexivity |]. split; [reflexivity |].
    intros name content mimetype -> [[= <- <-]|[]]. reflexivity.
  - split; [reflexivity |]. split; [reflexivity |].
    intros name content mimetype _ [].
Qed.

Lemma mailer_site_context_witness :
  let context : gmap string ctxval :=
    {[ "site" := CSite "Shop" "http" "shop.lan"; "bill" := CValue (PStr "I0001") ]} in
  with_site "Orchestra" "https" "orchestra.lan" context = context.
Proof.
  intros context.
  apply (proj1 (mailer_site_context (fun _ _ _ => []) "Orchestra" "https"
                  "orchestra.lan" "no-reply@orchestra.lan" "bill.mail" context
                  (Addresses []) None None [])
           (CSite "Shop" "http" "shop.lan")).
  reflexivity.
Defined.

(** X18: the envelope of the message: a single address becomes a list of
    one, a list of addresses is taken as it is; the sender is the one
    passed, and Django's default sender when none, or an empty one, is
    passed; the body is the rendered body without white space at either
    end; there is at most one alternative, and asking for an HTML body
    changes nothing else of the message. *)
Theorem mailer_envelope
    (render_to_string : string -> pass -> gmap string ctxval -> str)
    (site_name scheme netloc default_from template : string)
    (context : gmap string ctxval)
    (to : recipients) (email_from html : option string) (attachments : list string) :
  let send := send_email_template render_to_string site_name scheme netloc default_from
                template context to email_from in
  let msg := send html attachments in
  let rendered := render_to_string template MessagePass
                    (with_site site_name scheme netloc context) in
  Mail.to msg = match to with OneAddress a => [a] | Addresses l => l end /\
  (forall sender, email_from = Some sender -> sender <> EmptyString ->
     from_email msg = sender) /\
  (email_from = None \/ email_from = Some EmptyString -> from_email msg = default_from) /\
  (exists l r, rendered = l ++ body msg ++ r /\
               Forall (fun c => In c white_space) (l ++ r)) /\
  (forall c, In c white_space -> head (body msg) <> Some c /\ last (body msg) <> Some c) /\
  (length (alternatives msg) <= 1)%nat /\
  subject msg = subject (send None attachments) /\
  body msg = body (send None attachments) /\
  Mail.to msg = Mail.to (send None attachments) /\
  from_email msg = from_email (send None attachments).
Proof.
  intros send msg rendered.
  assert (Hbody : body msg = strip rendered) by apply send_email_template_body.
  destruct (text_strip_spec rendered) as (_ & _ & l & r & Hparts & Hl & Hr).
  assert (Hfrom : from_email msg
                  = match email_from with
                    | Some sender =>
                        if String.eqb sender EmptyString then default_from else sender
                    | None => default_from
                    end).
  { unfold msg, send, send_email_template. now destruct (html_given html). }
  split; [unfold msg, send, send_email_template; now destruct (html_given html) |].
  split.
  { intros sender -> Hne. rewrite Hfrom.
    destruct (String.eqb_spec sender EmptyString); [contradiction | reflexivity]. }
  split; [intros [-> | ->]; exact Hfrom |].
  split.
  { exists l, r. rewrite Hbody. split; [exact Hparts |].
    apply Forall_app. split; now apply all_space_white_space. }
  split; [intros c; rewrite Hbody; apply text_strip_ends |].
  unfold msg, send, send_email_template.
  destruct (html_given html); simpl; repeat split; auto.
Qed.

Lemma mailer_envelope_witness :
  let render := fun (template : string) (p : pass) (_ : gmap string ctxval) =>
    match p with
    | SubjectPass => of_string "Bill I0001"
    | MessagePass => [0x2003; 0xA]%N ++ of_string "Dear customer" ++ [0xA0; 0x20]%N
    end in
  let msg := send_email_template render "Orchestra" "https" "orchestra.lan"
               "no-reply@orchestra.lan" "bill.mail" ∅
               (OneAddress "alice@orchestra.lan") None None [] in
  from_email msg = "no-reply@orchestra.lan" /\
  Mail.to msg = ["alice@orchestra.lan"] /\
  body msg = of_string "Dear customer" /\
  last (body msg) <> Some 0x20%N.
Proof.
  intros render msg.
  pose proof (mailer_envelope render "Orchestra" "https" "orchestra.lan"
                "no-reply@orchestra.lan" "bill.mail" ∅
                (OneAddress "alice@orchestra.lan") None None [])
    as (Hto & _ & Hfrom & _ & Hends & _).
  split; [apply Hfrom; now left |]. split; [exact Hto |].
  split; [reflexivity |].
  apply (Hends 0x20%N). unfold white_space. simpl. tauto.
Defined.

End MoreMailerFacts.

(** ** DNS settings, further *)

Section MoreDnsFacts.
Import DnsSettings DnsZoneSettings.

(** X19: the settings are independent of one another: each of the nine
    reads one attribute of the deployment's settings, its own, so defining
    an attribute sets the setting of that name to exactly that value and
    leaves every other setting as it was. *)
Theorem dns_settings_independent (settings : gmap string setting)
    (name : string) (value : gmap string setting -> setting) :
  In (name, value) all_settings ->
  forall (attribute : string) (v : setting),
    (attribute = name -> value (<[ attribute := v ]> settings) = v) /\
    (attribute <> name -> value (<[ attribute := v ]> settings) = value settings).
Proof.
  intros Hin attribute v. simpl in Hin.
  repeat (destruct Hin as [[= <- <-] | Hin];
          [split; [intros ->; unfold getattr; cbv delta [DNS_DEFAULT_HOSTMASTER_EMAIL
             DNS_DEFAULT_PRIMARY_NS DNS_DOMAIN_SERIAL DNS_DOMAIN_SLAVE_REFRESH
             DNS_DOMAIN_SLAVE_RETRY DNS_DOMAIN_SLAVE_EXPIRATION
             DNS_DOMAIN_MIN_CACHING_TIME DNS_REGISTER_CHOICES
             DNS_DEFAULT_DOMAIN_REGISTERS getattr] beta;
             now rewrite lookup_insert_eq
           | intros Hne; cbv delta [DNS_DEFAULT_HOSTMASTER_EMAIL
             DNS_DEFAULT_PRIMARY_NS DNS_DOMAIN_SERIAL DNS_DOMAIN_SLAVE_REFRESH
             DNS_DOMAIN_SLAVE_RETRY DNS_DOMAIN_SLAVE_EXPIRATION
             DNS_DOMAIN_MIN_CACHING_TIME DNS_REGISTER_CHOICES
             DNS_DEFAULT_DOMAIN_REGISTERS getattr] beta;
             now rewrite lookup_insert_ne by exact Hne] |]).
  contradiction.
Qed.

Lemma dns_settings_independent_witness :
  DNS_DOMAIN_SLAVE_RETRY {[ "DNS_DOMAIN_SERIAL" := SInt 7 ]} = SStr "2h".
Proof.
  refine (proj2 (dns_settings_independent ∅ "DNS_DOMAIN_SLAVE_RETRY"
                   DNS_DOMAIN_SLAVE_RETRY _ "DNS_DOMAIN_SERIAL" (SInt 7)) _).
  - simpl. tauto.
  - discriminate.
Defined.

End MoreDnsFacts.

(** ** Deletion checks, further *)

Section MoreValidateDeleteFacts.
Import Py SystemUserTests SystemUserChecks.

Lemma grep_fails_iff (h : host) (username path : string) :
  assertRaises_CommandError (sshrun h (GrepCmd username path)) = Return tt
  <-> no_entry h username path.
Proof.
  unfold sshrun, exit_status, no_entry.
  destruct (files h !! path) as [file_lines|]; [| simpl; tauto].
  destruct (existsb (String.prefix (username +:+ ":")) file_lines) eqn:Hex; simpl.
  - split; [discriminate |]. intros Hno.
    apply existsb_exists in Hex as (line & Hin & Hp). rewrite (Hno line Hin) in Hp.
    discriminate.
  - split; [| reflexivity]. intros _ line Hin.
    destruct (String.prefix (username +:+ ":") line) eqn:Hp; [| reflexivity].
    assert (existsb (String.prefix (username +:+ ":")) file_lines = true)
      by (apply existsb_exists; eauto).
    congruence.
Qed.

Lemma id_fails_iff (h : host) (username : string) :
  assertRaises_CommandError (sshrun h (IdCmd username)) = Return tt
  <-> forall name, In name (identities h) -> name <> username.
Proof.
  unfold sshrun, exit_status.
  destruct (existsb (String.eqb username) (identities h)) eqn:Hex; simpl.
  - split; [discriminate |]. intros Hno.
    apply existsb_exists in Hex as (name & Hin & Heq). apply String.eqb_eq in Heq.
    exfalso. now apply (Hno name Hin).
  - split; [| reflexivity]. intros _ name Hin ->.
    assert (existsb (String.eqb username) (identities h) = true).
    { apply existsb_exists. exists username. split; [exact Hin | apply String.eqb_refl]. }
    congruence.
Qed.

Lemma record_gone_iff (system_users : list string) (username : string) :
  assert_record_gone system_users username = Return tt
  <-> forall name, In name system_users -> name <> username.
Proof.
  unfold assert_record_gone.
  destruct (List.filter (String.eqb username) system_users) as [|x [|y l]] eqn:Hf.
  - split; [| reflexivity]. intros _ name Hin ->.
    assert (Hx : In username (List.filter (String.eqb username) system_users)).
    { apply filter_In. split; [exact Hin | apply String.eqb_refl]. }
    now rewrite Hf in Hx.
  - split; [discriminate |]. intros Hno. exfalso.
    assert (Hx : In x (List.filter (String.eqb username) system_users))
      by (rewrite Hf; now left).
    apply filter_In in Hx as [Hin Heq]. apply String.eqb_eq in Heq.
    now apply (Hno x Hin).
  - split; [discriminate |]. intros Hno. exfalso.
    assert (Hx : In x (List.filter (String.eqb username) system_users))
      by (rewrite Hf; now left).
    apply filter_In in Hx as [Hin Heq]. apply String.eqb_eq in Heq.
    now apply (Hno x Hin).
Qed.

Lemma bind_unit_iff (r : result unit) (k : result unit) :
  (_ ← r; k) = Return tt <-> r = Return tt /\ k = Return tt.
Proof.
  destruct r as [[]|e]; simpl; [tauto |]. split; [discriminate | intros [? _]; discriminate].
Qed.

Lemma no_entry_missing (h : host) (username path : string) :
  files h !! path = None -> no_entry h username path.
Proof. unfold no_entry. now intros ->. Qed.

Lemma no_entry_lines (h : host) (username path : string) file_lines :
  files h !! path = Some file_lines ->
  existsb (String.prefix (username +:+ ":")) file_lines = false <->
  no_entry h username path.
Proof.
  unfold no_entry. intros ->. split.
  - intros Hex line Hin.
    destruct (String.prefix (username +:+ ":") line) eqn:Hp; [| reflexivity].
    assert (existsb (String.prefix (username +:+ ":")) file_lines = true)
      by (apply existsb_exists; eauto).
    congruence.
  - intros Hno. destruct (existsb _ file_lines) eqn:Hex; [| reflexivity].
    apply existsb_exists in Hex as (line & Hin & Hp). rewrite (Hno line Hin) in Hp.
    discriminate.
Qed.

(** X20: for a plain user name -- ASCII letters, digits, underscores and
    hyphens, not starting with a hyphen, so that the name means itself in
    the command lines and in the pattern of [grep] -- [validate_delete]
    passes exactly when the user's record is gone, [id] does not resolve
    the name, and [grep] finds no entry for it in [/etc/groups],
    [/etc/passwd] and [/etc/shadow] -- where a file that is missing counts
    as holding no entry. *)
Theorem validate_delete_passes_iff (system_users : list string) (master : host)
    (username : string) :
  plain_name username = true ->
  validate_delete system_users master username = Return tt
  <-> (forall name, In name system_users -> name <> username) /\
      (forall name, In name (identities master) -> name <> username) /\
      no_entry master username "/etc/groups" /\
      no_entry master username "/etc/passwd" /\
      no_entry master username "/etc/shadow".
Proof.
  intros _.
  unfold validate_delete, validate_delete_commands, assert_all_fail.
  rewrite !bind_unit_iff, record_gone_iff, id_fails_iff, !grep_fails_iff. tauto.
Qed.

Lemma validate_delete_passes_iff_witness :
  let master := {| identities := ["root"; "web-2"];
                   files := {[ "/etc/group" := ["root:x:0:"; "web-1:x:1001:"];
                               "/etc/passwd" := ["root:x:0:0:root:/root:/bin/bash";
                                                 "web-10:x:1002:1002::/home/web-10:/bin/sh"];
                               "/etc/shadow" := ["root:*:16000:0:99999:7:::"] ]} |} in
  plain_name "web-1" = true /\
  validate_delete ["root"; "web-2"] master "web-1" = Return tt /\
  validate_delete ["root"; "web-2"] master "web-10" <> Return tt.
Proof.
  intros master. split; [reflexivity |]. split.
  - apply (proj2 (validate_delete_passes_iff ["root"; "web-2"] master "web-1" eq_refl)).
    split; [intros name [<-|[<-|[]]]; discriminate |].
    split; [intros name [<-|[<-|[]]]; discriminate |].
    split; [apply no_entry_missing; reflexivity |].
    split; eapply no_entry_lines; reflexivity.
  - intros Hrun.
    apply (proj1 (validate_delete_passes_iff ["root"; "web-2"] master "web-10" eq_refl))
      in Hrun as (_ & _ & _ & Hpasswd & _).
    eapply no_entry_lines in Hpasswd; [| reflexivity]. discriminate Hpasswd.
Defined.

End MoreValidateDeleteFacts.

(** ** Reading the output of [id] *)

Section ValidateUserFacts.
Import Py PyMore SystemUserChecks.

Lemma app_cons c a b : String c a +:+ b = String c (a +:+ b).
Proof. reflexivity. Qed.

Lemma app_assoc_s a b c : (a +:+ b) +:+ c = a +:+ (b +:+ c).
Proof. induction a as [|x a IH]; [reflexivity |]. rewrite !app_cons. now f_equal. Qed.

Lemma app_nil_r_s a : a +:+ EmptyString = a.
Proof. induction a as [|x a IH]; [reflexivity |]. rewrite app_cons. now f_equal. Qed.

Lemma length_app_s a b : String.length (a +:+ b) = (String.length a + String.length b)%nat.
Proof. induction a as [|x a IH]; [reflexivity |]. rewrite app_cons. simpl. now f_equal. Qed.

Lemma all_chars_app p a b : all_chars p (a +:+ b) = all_chars p a && all_chars p b.
Proof.
  induction a as [|x a IH]; [reflexivity |]. rewrite app_cons. simpl.
  now rewrite IH, andb_assoc.
Qed.

(** [span] stops at the first character outside the class. *)
Lemma span_app p a c r :
  all_chars p a = true -> p c = false ->
  span p (a +:+ String c r) = (a, String c r).
Proof.
  intros Ha Hc. induction a as [|x a IH].
  - change (span p (String c r) = (EmptyString, String c r)). simpl. now rewrite Hc.
  - simpl in Ha. apply andb_true_iff in Ha as [Hx Ha].
    rewrite app_cons. simpl. now rewrite Hx, (IH Ha).
Qed.

Lemma word_not_close c : is_word c = true -> Ascii.eqb c ")" = false.
Proof. destruct (Ascii.eqb_spec c ")") as [->|]; [discriminate | reflexivity]. Qed.

Lemma match_group_entry (e : string * string) (rest : string) :
  well_formed_entry e = true ->
  match_group (id_entry e +:+ rest) = Some (snd e, rest).
Proof.
  destruct e as [d n]. unfold well_formed_entry, id_entry. simpl fst. simpl snd.
  intros H. apply andb_true_iff in H as [H Hn]. apply andb_true_iff in H as [H Hne].
  apply andb_true_iff in H as [Hde Hd].
  rewrite !app_assoc_s.
  unfold match_group.
  change ("(" +:+ n +:+ ")" +:+ rest) with (String "(" (n +:+ String ")" rest)).
  rewrite (span_app is_digit d "(" _ Hd eq_refl).
  destruct d as [|d0 d']; [discriminate |].
  simpl Ascii.eqb. cbv iota.
  rewrite (span_app is_word n ")" rest Hn eq_refl).
  destruct n as [|n0 n']; [discriminate |]. reflexivity.
Qed.

Lemma match_group_non_digit c r : is_digit c = false -> match_group (String c r) = None.
Proof. intros H. unfold match_group. simpl. now rewrite H. Qed.

Lemma findall_fuel_empty fuel : findall_fuel fuel EmptyString = [].
Proof. now destruct fuel. Qed.

Lemma findall_fuel_match fuel s w rest :
  match_group s = Some (w, rest) ->
  findall_fuel (S fuel) s = w :: findall_fuel fuel rest.
Proof.
  intros H. destruct s as [|c r]; [discriminate |]. simpl. now rewrite H.
Qed.

Lemma findall_fuel_skip fuel c r :
  is_digit c = false -> findall_fuel (S fuel) (String c r) = findall_fuel fuel r.
Proof.
  intros H. simpl findall_fuel. now rewrite (match_group_non_digit c r H).
Qed.

Lemma length_id_entry e :
  String.length (id_entry e)
  = (String.length (fst e) + String.length (snd e) + 2)%nat.
Proof. unfold id_entry. rewrite !length_app_s. simpl. lia. Qed.

(** The names of a comma-separated list of well-formed entries are found,
    all of them and in order. *)
Lemma findall_fuel_entries (es : list (string * string)) :
  Forall (fun e => well_formed_entry e = true) es ->
  forall fuel,
    (String.length (join "," (List.map id_entry es)) <= fuel)%nat ->
    findall_fuel fuel (join "," (List.map id_entry es)) = List.map snd es.
Proof.
  induction 1 as [|e es He Hes IH]; intros fuel Hfuel.
  - apply findall_fuel_empty.
  - destruct es as [|e' es'].
    + change (join "," (List.map id_entry [e])) with (id_entry e) in *.
      rewrite length_id_entry in Hfuel.
      destruct fuel as [|fuel]; [lia |].
      pose proof (match_group_entry e EmptyString He) as Hm.
      rewrite app_nil_r_s in Hm.
      rewrite (findall_fuel_match _ _ _ _ Hm). now rewrite findall_fuel_empty.
    + change (join "," (List.map id_entry (e :: e' :: es')))
        with (id_entry e +:+ "," +:+ join "," (List.map id_entry (e' :: es'))) in *.
      set (J := join "," (List.map id_entry (e' :: es'))) in *.
      rewrite !length_app_s, length_id_entry in Hfuel. simpl String.length in Hfuel.
      destruct fuel as [|fuel]; [lia |].
      rewrite (findall_fuel_match _ _ _ _ (match_group_entry e ("," +:+ J) He)).
      change ("," +:+ J) with (String "," J).
      destruct fuel as [|fuel]; [lia |].
      rewrite findall_fuel_skip by reflexivity.
      simpl List.map. f_equal. apply IH. lia.
Qed.

Lemma findall_groups (es : list (string * string)) :
  Forall (fun e => well_formed_entry e = true) es ->
  findall ("groups=" +:+ join "," (List.map id_entry es)) = List.map snd es.
Proof.
  intros Hes. unfold findall.
  set (J := join "," (List.map id_entry es)).
  change ("groups=" +:+ J)
    with (String "g" (String "r" (String "o" (String "u" (String "p" (String "s"
            (String "=" J))))))).
  cbn [String.length].
  rewrite !findall_fuel_skip by reflexivity.
  apply findall_fuel_entries; [exact Hes | apply Nat.le_refl].
Qed.

(** ** White space around a line *)

Lemma lstrip_space_prefix l s : all_space l = true -> lstrip (l +:+ s) = lstrip s.
Proof.
  induction l as [|c l IH]; [reflexivity |]. simpl. intros H.
  apply andb_true_iff in H as [Hc Hl]. rewrite ?app_cons. simpl. rewrite Hc. now apply IH.
Qed.

Lemma rstrip_blank r : all_space r = true -> rstrip r = EmptyString.
Proof.
  induction r as [|c r IH]; [reflexivity |]. simpl. intros H.
  apply andb_true_iff in H as [Hc Hr]. now rewrite (IH Hr), Hc.
Qed.

Lemma rstrip_space_suffix s r : all_space r = true -> rstrip (s +:+ r) = rstrip s.
Proof.
  intros Hr. induction s as [|c s IH].
  - change (rstrip r = EmptyString). now apply rstrip_blank.
  - rewrite ?app_cons. simpl. now rewrite IH.
Qed.

Lemma strip_surrounded l s r :
  all_space l = true -> all_space r = true ->
  starts_with_space s = false -> ends_with_space s = false -> s <> EmptyString ->
  strip (l +:+ s +:+ r) = s.
Proof.
  intros Hl Hr Hs He Hne. unfold strip. rewrite (lstrip_space_prefix _ _ Hl).
  destruct s as [|c s']; [contradiction |].
  rewrite ?app_cons. simpl in Hs. simpl lstrip. rewrite Hs.
  rewrite <- app_cons, (rstrip_space_suffix _ _ Hr). now apply rstrip_id.
Qed.

Lemma ends_with_space_app a b :
  b <> EmptyString -> ends_with_space (a +:+ b) = ends_with_space b.
Proof.
  intros Hb. induction a as [|c a IH]; [reflexivity |].
  rewrite ?app_cons. simpl. rewrite IH.
  destruct (a +:+ b) as [|x y] eqn:Hab; [| reflexivity].
  destruct a; [| discriminate]. now destruct b.
Qed.

Lemma all_not_space_ends s : all_chars not_space s = true -> ends_with_space s = false.
Proof.
  induction s as [|c r IH]; [reflexivity |]. simpl. unfold not_space at 1. intros H.
  apply andb_true_iff in H as [Hc Hr]. apply negb_true_iff in Hc.
  destruct r; [exact Hc | now apply IH].
Qed.

(** ** Splitting on a separator *)

Lemma split_none sep s :
  all_chars (fun c => negb (Ascii.eqb c sep)) s = true -> split sep s = [s].
Proof.
  induction s as [|c r IH]; [reflexivity |]. simpl. intros H.
  apply andb_true_iff in H as [Hc Hr]. apply negb_true_iff in Hc.
  now rewrite Hc, (IH Hr).
Qed.

Lemma split_app sep a b :
  all_chars (fun c => negb (Ascii.eqb c sep)) a = true ->
  split sep (a +:+ String sep b) = a :: split sep b.
Proof.
  induction a as [|c r IH].
  - intros _. change (split sep (String sep b) = EmptyString :: split sep b).
    simpl. now rewrite Ascii.eqb_refl.
  - simpl. intros H. apply andb_true_iff in H as [Hc Hr]. apply negb_true_iff in Hc.
    rewrite ?app_cons. simpl. now rewrite Hc, (IH Hr).
Qed.

(** ** The characters of an [id] line *)

Lemma word_not_space c : is_word c = true -> not_space c = true.
Proof.
  unfold is_word, not_space, is_space, is_digit. generalize (code c) as n. intros n H.
  apply negb_true_iff.
  destruct (isspace n) eqn:Hs; [exfalso | reflexivity].
  apply isspace_white_space in Hs. unfold Str.white_space in Hs. simpl in Hs.
  repeat (apply orb_true_iff in H as [H|H]);
    repeat match goal with
           | H : (_ && _)%bool = true |- _ => apply andb_true_iff in H as [? ?]
           | H : (_ <=? _)%N = true |- _ => apply N.leb_le in H
           | H : (_ =? _)%N = true |- _ => apply N.eqb_eq in H
           end;
    lia.
Qed.

Lemma digit_is_word c : is_digit c = true -> is_word c = true.
Proof. unfold is_word. now intros ->. Qed.

Lemma not_space_not_blank c : not_space c = true -> not_blank c = true.
Proof.
  unfold not_space, not_blank. destruct (Ascii.eqb_spec c " ") as [->|_]; [discriminate | reflexivity].
Qed.

Lemma entry_not_space e : well_formed_entry e = true -> all_chars not_space (id_entry e) = true.
Proof.
  destruct e as [d n]. unfold well_formed_entry, id_entry. simpl fst. simpl snd.
  intros H. apply andb_true_iff in H as [H Hn]. apply andb_true_iff in H as [H _].
  apply andb_true_iff in H as [_ Hd].
  rewrite !all_chars_app.
  rewrite (all_chars_weaken is_digit not_space d
             (fun c Hc => word_not_space c (digit_is_word c Hc)) Hd).
  now rewrite (all_chars_weaken is_word not_space n word_not_space Hn).
Qed.

Lemma entries_not_space es :
  Forall (fun e => well_formed_entry e = true) es ->
  all_chars not_space (join "," (List.map id_entry es)) = true.
Proof.
  induction 1 as [|e es He Hes IH]; [reflexivity |].
  destruct es as [|e' es']; [now apply entry_not_space |].
  change (join "," (List.map id_entry (e :: e' :: es')))
    with (id_entry e +:+ "," +:+ join "," (List.map id_entry (e' :: es'))).
  now rewrite !all_chars_app, (entry_not_space e He), IH.
Qed.

(** The three fields of an [id] line without white space inside them. *)
Lemma id_line_fields user primary es l r :
  all_chars not_space (id_entry user) = true ->
  all_chars not_space (id_entry primary) = true ->
  all_chars not_space (join "," (List.map id_entry es)) = true ->
  all_space l = true -> all_space r = true ->
  split " " (strip (l +:+ id_line user primary es +:+ r))
  = [ "uid=" +:+ id_entry user; "gid=" +:+ id_entry primary;
      "groups=" +:+ join "," (List.map id_entry es) ].
Proof.
  intros Hun Hpn Hen Hl Hr.
  set (J := join "," (List.map id_entry es)) in *.
  assert (Hline : id_line user primary es
                  = ("uid=" +:+ id_entry user) +:+ String " "
                      (("gid=" +:+ id_entry primary) +:+ String " " ("groups=" +:+ J))).
  { unfold id_line. fold J. now rewrite !app_assoc_s. }
  rewrite strip_surrounded; try assumption.
  - rewrite Hline.
    rewrite split_app by
      (rewrite all_chars_app; apply andb_true_iff; split; [reflexivity |];
       exact (all_chars_weaken _ _ _ not_space_not_blank Hun)).
    rewrite split_app by
      (rewrite all_chars_app; apply andb_true_iff; split; [reflexivity |];
       exact (all_chars_weaken _ _ _ not_space_not_blank Hpn)).
    rewrite split_none; [reflexivity |].
    rewrite all_chars_app. apply andb_true_iff. split; [reflexivity |].
    exact (all_chars_weaken _ _ _ not_space_not_blank Hen).
  - reflexivity.
  - rewrite Hline.
    rewrite ends_with_space_app by discriminate.
    rewrite <- app_cons, ends_with_space_app by discriminate.
    change (String " " ("groups=" +:+ J)) with (" " +:+ "groups=" +:+ J).
    rewrite ends_with_space_app by discriminate.
    apply all_not_space_ends. rewrite all_chars_app. now rewrite Hen.
  - discriminate.
Qed.

(** The steps of [validate_user] on such a line. *)
Lemma validate_user_on_id_line system_users username row user primary es l r :
  objects_get system_users username = Return row ->
  all_chars not_space (id_entry user) = true ->
  all_chars not_space (id_entry primary) = true ->
  all_chars not_space (join "," (List.map id_entry es)) = true ->
  all_space l = true -> all_space r = true ->
  validate_user system_users
    {| return_code := 0; stdout := l +:+ id_line user primary es +:+ r |} username
  = assertEqual (list_to_set (snd row ++ [fst row]) : gset string)
      (list_to_set (findall ("groups=" +:+ join "," (List.map id_entry es)))).
Proof.
  intros Hrow Hu Hp He Hl Hr. unfold validate_user. simpl.
  rewrite Hrow. simpl.
  now rewrite (id_line_fields user primary es l r Hu Hp He Hl Hr).
Qed.

(** X21: on a line as [id] prints it -- [uid=], [gid=] and [groups=] with
    numeric ids and names of letters, digits and underscores, possibly
    surrounded by white space -- [validate_user] reads exactly the names
    after [groups=], and passes precisely when they are, as a set, the
    user's recorded groups together with its own name. *)
Theorem validate_user_reads_groups (system_users : list (string * list string))
    (username : string) (row : string * list string) (user primary : string * string)
    (es : list (string * string)) (l r : string) :
  objects_get system_users username = Return row ->
  well_formed_entry user = true -> well_formed_entry primary = true ->
  Forall (fun e => well_formed_entry e = true) es ->
  all_space l = true -> all_space r = true ->
  findall ("groups=" +:+ join "," (List.map id_entry es)) = List.map snd es /\
  validate_user system_users
    {| return_code := 0; stdout := l +:+ id_line user primary es +:+ r |} username
  = if decide ((list_to_set (snd row ++ [fst row]) : gset string)
               = list_to_set (List.map snd es))
    then Done tt else Failed (Exn AssertionError).
Proof.
  intros Hrow Hu Hp Hes Hl Hr. split; [now apply findall_groups |].
  rewrite (validate_user_on_id_line _ _ row user primary es l r Hrow
             (entry_not_space _ Hu) (entry_not_space _ Hp) (entries_not_space _ Hes)
             Hl Hr).
  now rewrite (findall_groups es Hes).
Qed.

Lemma validate_user_reads_groups_witness :
  validate_user [("alice", ["bob"]); ("bob", [])]
    {| return_code := 0;
       stdout := EmptyString
                 +:+ id_line ("1000", "alice") ("1000", "alice")
                       [("1001", "bob"); ("1000", "alice")]
                 +:+ String "010"%char EmptyString |} "alice"
  = Done tt.
Proof.
  refine (eq_trans (proj2 (validate_user_reads_groups [("alice", ["bob"]); ("bob", [])]
            "alice" ("alice", ["bob"]) ("1000", "alice") ("1000", "alice")
            [("1001", "bob"); ("1000", "alice")] EmptyString
            (String "010"%char EmptyString) _ _ _ _ _ _)) _).
  - reflexivity.
  - reflexivity.
  - reflexivity.
  - repeat constructor.
  - reflexivity.
  - reflexivity.
  - reflexivity.
Defined.

(** X22: [validate_user] gives up early on three occasions: a non-zero
    return code of [id] fails the first assertion; a missing record raises
    [DoesNotExist]; and an output with fewer than three space-separated
    fields raises [IndexError]. *)
Theorem validate_user_early_failures (system_users : list (string * list string))
    (idcmd : command_result) (username : string) :
  (return_code idcmd <> 0 ->
     validate_user system_users idcmd username = Failed (Exn AssertionError)) /\
  (return_code idcmd = 0 ->
     (forall name, In name (List.map fst system_users) -> name <> username) ->
     validate_user system_users idcmd username = Failed (Exn DoesNotExist)) /\
  (return_code idcmd = 0 ->
   forall row, objects_get system_users username = Return row ->
     (length (split " " (strip (stdout idcmd))) <= 2)%nat ->
     validate_user system_users idcmd username = Failed IndexError).
Proof.
  unfold validate_user, assertEqual. split; [| split].
  - intros Hrc. destruct (decide (0 = return_code idcmd)) as [Heq|_]; [| reflexivity].
    congruence.
  - intros -> Hnone. simpl.
    assert (Hf : List.filter (fun u => String.eqb (fst u) username) system_users = []).
    { induction system_users as [|u us IH]; [reflexivity |]. simpl.
      destruct (String.eqb_spec (fst u) username) as [Heq|_].
      - exfalso. apply (Hnone (fst u)); [now left | exact Heq].
      - apply IH. intros name Hin. apply Hnone. now right. }
    unfold objects_get. now rewrite Hf.
  - intros -> row Hrow Hlen. simpl. rewrite Hrow. simpl.
    unfold list_item. rewrite (proj2 (lookup_ge_None _ _) Hlen). reflexivity.
Qed.

Lemma validate_user_early_failures_witness :
  validate_user [("alice", [])] {| return_code := 1; stdout := "id: alice: no such user" |}
    "alice" = Failed (Exn AssertionError) /\
  validate_user [("alice", [])] {| return_code := 0; stdout := "uid=1000(alice)" |}
    "alice" = Failed IndexError.
Proof.
  pose proof (validate_user_early_failures [("alice", [])]
                {| return_code := 1; stdout := "id: alice: no such user" |} "alice")
    as (Hrc & _).
  pose proof (validate_user_early_failures [("alice", [])]
                {| return_code := 0; stdout := "uid=1000(alice)" |} "alice")
    as (_ & _ & Hshort).
  split.
  - apply Hrc. discriminate.
  - apply (Hshort eq_refl ("alice", [])); [reflexivity | simpl; lia].
Defined.

(** ** Names the pattern does not cover *)

Lemma span_keeps q p t :
  all_chars q t = true -> all_chars q (snd (span p t)) = true.
Proof.
  induction t as [|c t IH]; [reflexivity |]. intros H. simpl.
  destruct (p c); [| exact H].
  simpl in H. apply andb_true_iff in H as [_ Ht]. specialize (IH Ht).
  now destruct (span p t).
Qed.

Lemma match_group_no_open t : all_chars no_open t = true -> match_group t = None.
Proof.
  intros H. unfold match_group.
  pose proof (span_keeps no_open is_digit t H) as Hr.
  destruct (span is_digit t) as [ds r1]. simpl in Hr.
  destruct ds as [|d0 ds]; [reflexivity |].
  destruct r1 as [|c r2]; [reflexivity |].
  simpl in Hr. apply andb_true_iff in Hr as [Hc _]. unfold no_open in Hc.
  apply negb_true_iff in Hc. now rewrite Hc.
Qed.

Lemma findall_fuel_no_open fuel : forall t,
  all_chars no_open t = true -> findall_fuel fuel t = [].
Proof.
  induction fuel as [|fuel IH]; intros t H; [reflexivity |].
  destruct t as [|c r]; [reflexivity |]. simpl findall_fuel.
  rewrite (match_group_no_open _ H). apply IH.
  simpl in H. now apply andb_true_iff in H as [_ Hr].
Qed.

Lemma is_word_no_open c : is_word c = true -> no_open c = true.
Proof.
  unfold no_open. destruct (Ascii.eqb_spec c "(") as [->|_]; [discriminate | reflexivity].
Qed.

(** An entry whose name holds a character outside the class -- a hyphen or
    a dot, say -- is not found. *)
Lemma findall_fuel_foreign_name (a b : string) (x : ascii) :
  all_chars is_word a = true -> is_word x = false ->
  Ascii.eqb x ")" = false -> no_open x = true -> all_chars no_open b = true ->
  forall d fuel,
    all_chars is_digit d = true ->
    findall_fuel fuel (d +:+ "(" +:+ (a +:+ String x b) +:+ ")") = [].
Proof.
  intros Ha Hx Hclose Hopen Hb.
  assert (Hbody : all_chars no_open ((a +:+ String x b) +:+ ")") = true).
  { rewrite !all_chars_app. simpl. rewrite Hopen, Hb.
    now rewrite (all_chars_weaken is_word no_open a is_word_no_open Ha). }
  induction d as [|c d IH]; intros fuel Hd.
  - change (findall_fuel fuel (String "(" ((a +:+ String x b) +:+ ")")) = []).
    destruct fuel as [|fuel]; [reflexivity |].
    rewrite findall_fuel_skip by reflexivity. now apply findall_fuel_no_open.
  - destruct fuel as [|fuel]; [reflexivity |].
    simpl in Hd. apply andb_true_iff in Hd as [Hc Hd].
    assert (Hm : match_group (String c d +:+ "(" +:+ (a +:+ String x b) +:+ ")") = None).
    { unfold match_group.
      change ("(" +:+ (a +:+ String x b) +:+ ")")
        with (String "(" ((a +:+ String x b) +:+ ")")).
      rewrite (span_app is_digit (String c d) "(" _); [| simpl; now rewrite Hc, Hd | reflexivity].
      simpl Ascii.eqb. cbv iota.
      rewrite app_assoc_s. rewrite app_cons.
      rewrite (span_app is_word a x _ Ha Hx).
      destruct a; [reflexivity |]. now rewrite Hclose. }
    rewrite app_cons in *. simpl findall_fuel. rewrite Hm. now apply IH.
Qed.

(** X23: the pattern of [validate_user] takes a name to be letters, digits
    and underscores.  When the only group the host reports has a name with
    another ASCII character in it (a hyphen or a dot, for instance), no group is
    read at all and the check fails with an assertion error, whatever the
    records say -- even when host and records agree. *)
Theorem validate_user_rejects_foreign_name (system_users : list (string * list string))
    (username : string) (row : string * list string) (user primary : string * string)
    (d a b : string) (x : ascii) (l r : string) :
  objects_get system_users username = Return row ->
  all_chars not_space (id_entry user) = true ->
  all_chars not_space (id_entry primary) = true ->
  all_chars is_digit d = true ->
  all_chars is_word a = true ->
  (code x < 128)%N ->
  is_word x = false -> not_space x = true -> no_open x = true -> Ascii.eqb x ")" = false ->
  all_chars not_space b = true -> all_chars no_open b = true ->
  all_space l = true -> all_space r = true ->
  findall ("groups=" +:+ id_entry (d, a +:+ String x b)) = [] /\
  validate_user system_users
    {| return_code := 0;
       stdout := l +:+ id_line user primary [(d, a +:+ String x b)] +:+ r |} username
  = Failed (Exn AssertionError).
Proof.
  intros Hrow Hu Hp Hd Ha _ Hx Hxs Hxo Hxc Hbs Hbo Hl Hr.
  assert (Hnone : findall ("groups=" +:+ id_entry (d, a +:+ String x b)) = []).
  { unfold findall, id_entry. simpl fst. simpl snd.
    set (E := d +:+ "(" +:+ (a +:+ String x b) +:+ ")").
    change ("groups=" +:+ E)
      with (String "g" (String "r" (String "o" (String "u" (String "p" (String "s"
              (String "=" E))))))).
    cbn [String.length]. rewrite !findall_fuel_skip by reflexivity.
    now apply findall_fuel_foreign_name. }
  split; [exact Hnone |].
  rewrite (validate_user_on_id_line _ _ row user primary [(d, a +:+ String x b)] l r Hrow
             Hu Hp); try assumption.
  - change (join "," (List.map id_entry [(d, a +:+ String x b)]))
      with (id_entry (d, a +:+ String x b)).
    rewrite Hnone. unfold assertEqual.
    destruct (decide _) as [Heq|_]; [| reflexivity].
    exfalso. simpl in Heq.
    assert (Hin : fst row ∈ (list_to_set (snd row ++ [fst row]) : gset string)).
    { apply elem_of_list_to_set, elem_of_app. right. left. }
    rewrite Heq in Hin. set_solver.
  - change (join "," (List.map id_entry [(d, a +:+ String x b)]))
      with (id_entry (d, a +:+ String x b)).
    unfold id_entry. simpl fst. simpl snd. rewrite !all_chars_app. simpl.
    rewrite Hxs, Hbs.
    rewrite (all_chars_weaken is_digit not_space d
               (fun c Hc => word_not_space c (digit_is_word c Hc)) Hd).
    now rewrite (all_chars_weaken is_word not_space a word_not_space Ha).
Qed.

Lemma validate_user_rejects_foreign_name_witness :
  validate_user [("web-1", [])]
    {| return_code := 0;
       stdout := EmptyString
                 +:+ id_line ("1002", "web-1") ("1002", "web-1")
                       [("1002", "web" +:+ String "-" "1")]
                 +:+ String "010"%char EmptyString |} "web-1"
  = Failed (Exn AssertionError).
Proof.
  refine (proj2 (validate_user_rejects_foreign_name [("web-1", [])] "web-1" ("web-1", [])
            ("1002", "web-1") ("1002", "web-1") "1002" "web" "1" "-" EmptyString
            (String "010"%char EmptyString) _ _ _ _ _ _ _ _ _ _ _ _ _ _));
    reflexivity.
Defined.

End ValidateUserFacts.
